(** * source2txt: the mirror synchronizer of [file_handler.py]

    A shallow embedding of [FileHandler] (its three watchdog callbacks
    [on_created], [on_moved], [on_deleted]) over a model of the POSIX
    file system, of [os.path] and of the console, and the theorems that
    settle what the handlers do.

    [os.path] is [posixpath]: the separator is [/], and paths are resolved
    as a POSIX system resolves them.

    Python [str] values are modelled as [string], read as the UTF-8
    encoding of the text.  Every needle the program searches for (the
    separator, the dot, the [.txt] suffix) is ASCII, and an ASCII byte never
    occurs inside a multi-byte UTF-8 sequence, so searching bytes and
    searching code points agree.

    A file name is what the file system has, a sequence of bytes, and it
    need not be UTF-8.  Python decodes names with [surrogateescape]: a
    byte that is not part of a UTF-8 sequence becomes a lone surrogate,
    which the file system calls turn back into that byte and which the
    strict encoder behind [open(..., encoding='utf-8')] refuses.  So a
    [string] here holds the bytes of the file system, and [utf8] tells
    whether the strict encoder takes the text. *)

From Stdlib Require Import Ascii String.
From stdpp Require Import gmap strings list fin_maps.

(** ** Python string primitives *)

Module PyStr.

(** [os.sep] and [os.extsep] *)
Abbreviation sep := ("/"%char) (only parsing).
Abbreviation extsep := ("."%char) (only parsing).

Definition is_char (c a : ascii) : bool := bool_decide (a = c).
Global Arguments is_char : simpl never.

Definition nonempty (s : string) : bool :=
  match s with EmptyString => false | String _ _ => true end.

Definition eqb (s t : string) : bool := bool_decide (s = t).
Global Arguments eqb : simpl never.

(** [s.startswith(p)] *)
Fixpoint startswith (s p : string) : bool :=
  match p, s with
  | EmptyString, _ => true
  | String b p', String a s' => bool_decide (a = b) && startswith s' p'
  | String _ _, EmptyString => false
  end.

(** [s.endswith(p)] *)
Fixpoint endswith (s p : string) : bool :=
  eqb s p ||
  match s with
  | EmptyString => false
  | String _ s' => endswith s' p
  end.

(** [c * len(s) == s]: every character of [s] is [c]. *)
Fixpoint all_char (c : ascii) (s : string) : bool :=
  match s with
  | EmptyString => true
  | String a s' => is_char c a && all_char c s'
  end.

(** [s.rstrip(c)] *)
Fixpoint rstrip (c : ascii) (s : string) : string :=
  match s with
  | EmptyString => EmptyString
  | String a s' =>
      match rstrip c s' with
      | EmptyString => if is_char c a then EmptyString else String a EmptyString
      | r => String a r
      end
  end.

(** [(s[:i], s[i:])] for [i = s.rfind(c)], and [None] when [c] does not
    occur in [s] (where [rfind] answers [-1]). *)
Fixpoint rbreak (c : ascii) (s : string) : option (string * string) :=
  match s with
  | EmptyString => None
  | String a s' =>
      match rbreak c s' with
      | Some (h, t) => Some (String a h, t)
      | None => if is_char c a then Some (EmptyString, s) else None
      end
  end.

(** [s.split(c)] *)
Fixpoint split (c : ascii) (s : string) : list string :=
  match s with
  | EmptyString => [EmptyString]
  | String a s' =>
      if is_char c a then EmptyString :: split c s'
      else match split c s' with
           | h :: t => String a h :: t
           | [] => [String a EmptyString]
           end
  end.

(** [c.join(l)] *)
Fixpoint join (c : ascii) (l : list string) : string :=
  match l with
  | [] => EmptyString
  | [x] => x
  | x :: l' => x +:+ String c (join c l')
  end.

(** [c in s] *)
Fixpoint has_char (c : ascii) (s : string) : bool :=
  match s with
  | EmptyString => false
  | String a s' => is_char c a || has_char c s'
  end.

(** [c * n] *)
Fixpoint replicate (n : nat) (c : ascii) : string :=
  match n with
  | O => EmptyString
  | S n' => String c (replicate n' c)
  end.

(** *** The strict UTF-8 encoder

    [s.encode('utf-8')] succeeds on the text that [os.fsdecode] makes of
    bytes exactly when the bytes are well-formed UTF-8: no stray
    continuation byte, no sequence cut short, no overlong form, no
    surrogate (U+D800 to U+DFFF), nothing above U+10FFFF. *)

Definition in_range (lo hi : nat) (a : ascii) : bool :=
  (lo <=? nat_of_ascii a) && (nat_of_ascii a <=? hi).

(** One byte: U+0000 to U+007F. *)
Definition is_ascii (a : ascii) : bool := nat_of_ascii a <? 128.

(** A continuation byte. *)
Definition cont (a : ascii) : bool := in_range 128 191 a.

(** The first byte of a sequence of two: U+0080 to U+07FF. *)
Definition lead2 (a : ascii) : bool := in_range 194 223 a.

(** The first two bytes of a sequence of three: U+0800 to U+FFFF without
    the surrogates. *)
Definition lead3 (a b : ascii) : bool :=
  (in_range 224 224 a && in_range 160 191 b)
  || (in_range 225 236 a && cont b)
  || (in_range 237 237 a && in_range 128 159 b)
  || (in_range 238 239 a && cont b).

(** The first two bytes of a sequence of four: U+10000 to U+10FFFF. *)
Definition lead4 (a b : ascii) : bool :=
  (in_range 240 240 a && in_range 144 191 b)
  || (in_range 241 243 a && cont b)
  || (in_range 244 244 a && in_range 128 143 b).

Fixpoint utf8 (s : string) : bool :=
  match s with
  | EmptyString => true
  | String a s1 =>
      if is_ascii a then utf8 s1
      else
        match s1 with
        | EmptyString => false
        | String b s2 =>
            if lead2 a then cont b && utf8 s2
            else if lead3 a b then
              match s2 with
              | EmptyString => false
              | String c s3 => cont c && utf8 s3
              end
            else if lead4 a b then
              match s2 with
              | EmptyString => false
              | String c s3 =>
                  cont c &&
                  match s3 with
                  | EmptyString => false
                  | String d s4 => cont d && utf8 s4
                  end
              end
            else false
        end
  end.

(** Nothing but ASCII. *)
Fixpoint all_ascii (s : string) : bool :=
  match s with
  | EmptyString => true
  | String a s' => is_ascii a && all_ascii s'
  end.

End PyStr.

(** ** [posixpath] *)

Module PosixPath.
Import PyStr.

Definition curdir : string := ".".
Definition pardir : string := "..".

(** [(p[:i], p[i:])] with [i = p.rfind('/') + 1]. *)
Definition cut (p : string) : string * string :=
  match rbreak sep p with
  | Some (h, String a t) => (h +:+ String a EmptyString, t)
  | _ => (EmptyString, p)
  end.

(** [if head and head != sep*len(head): head = head.rstrip(sep)] *)
Definition strip_head (head : string) : string :=
  if nonempty head && negb (all_char sep head) then rstrip sep head else head.

Definition split (p : string) : string * string :=
  let '(head, tail) := cut p in (strip_head head, tail).

Definition basename (p : string) : string := snd (cut p).

Definition dirname (p : string) : string := strip_head (fst (cut p)).

(** [genericpath._splitext(p, '/', None, '.')]: the extension starts at the
    last dot of the last component, unless only dots precede it there. *)
Definition splitext (p : string) : string * string :=
  let '(head, tail) := cut p in
  match rbreak extsep tail with
  | Some (stem, ext) =>
      if all_char extsep stem then (p, EmptyString) else (head +:+ stem, ext)
  | None => (p, EmptyString)
  end.

Definition isabs (p : string) : bool := startswith p "/".

(** One round of the loop of [join(a, *p)]. *)
Definition join2 (path b : string) : string :=
  if startswith b "/" then b
  else if negb (nonempty path) || endswith path "/" then path +:+ b
  else path +:+ "/" +:+ b.

Definition join (a : string) (p : list string) : string := fold_left join2 p a.

(** One round of the loop of [normpath]; [slashes] is [initial_slashes]. *)
Definition normpath_step (slashes : nat) (new_comps : list string) (comp : string)
  : list string :=
  if eqb comp "" || eqb comp "." then new_comps
  else if negb (eqb comp "..")
          || (bool_decide (slashes = 0) && bool_decide (new_comps = []))
          || (bool_decide (new_comps ≠ []) && bool_decide (last new_comps = Some ".."))
       then new_comps ++ [comp]
  else removelast new_comps.

Definition initial_slashes (path : string) : nat :=
  if startswith path "/" then
    if startswith path "//" && negb (startswith path "///") then 2 else 1
  else 0.

Definition normpath (path : string) : string :=
  if negb (nonempty path) then "."
  else
    let slashes := initial_slashes path in
    let comps := fold_left (normpath_step slashes) (PyStr.split sep path) [] in
    let path' := replicate slashes sep +:+ PyStr.join sep comps in
    if nonempty path' then path' else ".".

Section WithCwd.
(** The working directory of the process, as its list of components;
    [os.getcwd()] prints it. *)
Variable cwd : list string.

Definition getcwd : string := "/" +:+ PyStr.join sep cwd.

Definition abspath (path : string) : string :=
  if isabs path then normpath path else normpath (join getcwd [path]).

Definition nonempty_comps (p : string) : list string :=
  filter (λ x, nonempty x = true) (PyStr.split sep p).

(** [len(commonprefix([l1, l2]))] *)
Fixpoint common (l1 l2 : list string) : nat :=
  match l1, l2 with
  | x :: l1', y :: l2' => if eqb x y then S (common l1' l2') else 0
  | _, _ => 0
  end.

(** [relpath(path, start)]; [None] stands for the [ValueError] raised on
    an empty [path]. *)
Definition relpath (path start : string) : option string :=
  if negb (nonempty path) then None
  else
    let start_list := nonempty_comps (abspath start) in
    let path_list := nonempty_comps (abspath path) in
    let i := common start_list path_list in
    let rel_list := repeat pardir (length start_list - i) ++ drop i path_list in
    match rel_list with
    | [] => Some curdir
    | a :: p => Some (join a p)
    end.
End WithCwd.

(** A proper file name: not empty, not [.], not [..], no separator. *)
Definition is_name (c : string) : bool :=
  nonempty c && negb (eqb c ".") && negb (eqb c "..") && negb (has_char sep c).

(** The absolute, normalized path of a list of names. *)
Definition path_of (cs : list string) : string := "/" +:+ PyStr.join sep cs.

(** A path component: not empty, no separator ([.] and [..] are
    components). *)
Definition is_comp (c : string) : bool := nonempty c && negb (has_char sep c).

End PosixPath.

(** ** The file system

    A tree of regular files and directories, stored as a finite map from
    locations to nodes.  A location is the list of names leading from the root
    to the node; the root itself is a directory and is not stored.  There are
    no symbolic links, owners or permissions. *)

Module FS.
Import PyStr.

Inductive node : Type :=
| File (data : string)
| Dir.

Global Instance node_eq_dec : EqDecision node.
Proof. solve_decision. Defined.

(** The exceptions the handlers can meet. [FileNotFoundError] also stands
    for a path that does not resolve because a name on the way is missing or
    is not a directory. *)
Inductive exn : Type :=
| FileNotFoundError
| FileExistsError
| NotADirectoryError
| IsADirectoryError
| OSError
| ShutilError
| ValueError
| UnicodeEncodeError.

Global Instance exn_eq_dec : EqDecision exn.
Proof. solve_decision. Defined.

(** What a system call leaves behind: the new tree, or an exception together
    with the tree as it is when the exception is raised. *)
Inductive fsres : Type :=
| Done (fs : gmap (list string) node)
| Fail (e : exn) (fs : gmap (list string) node).

(** The tree a system call leaves behind. *)
Definition tree_of (r : fsres) : gmap (list string) node :=
  match r with
  | Done fs => fs
  | Fail _ fs => fs
  end.

Definition node_at (fs : gmap (list string) node) (l : list string) : option node :=
  match l with
  | [] => Some Dir
  | _ => fs !! l
  end.

Definition is_dir_at (fs : gmap (list string) node) (l : list string) : bool :=
  match node_at fs l with
  | Some Dir => true
  | _ => false
  end.

Definition is_dot (c : string) : bool := eqb c "" || eqb c ".".

(** Name resolution, one component at a time: every step is taken from a
    directory; [..] climbs (the root is its own parent); the last name
    need not exist. *)
Fixpoint walk (fs : gmap (list string) node) (cur : list string) (cs : list string)
  : option (list string) :=
  match cs with
  | [] => Some cur
  | c :: cs' =>
      if is_dir_at fs cur then
        if is_dot c then walk fs cur cs'
        else if eqb c ".." then walk fs (removelast cur) cs'
        else walk fs (cur ++ [c]) cs'
      else None
  end.

(** The locations at or below [l]. *)
Definition below (l : list string) (k : list string) : Prop := l `prefix_of` k.

(** The tree without the subtree rooted at [l]. *)
Definition prune (l : list string) (fs : gmap (list string) node)
  : gmap (list string) node :=
  filter (λ kv, ¬ below l kv.1) fs.

(** The tree without what lies strictly below [l]. *)
Definition prune_inside (l : list string) (fs : gmap (list string) node)
  : gmap (list string) node :=
  filter (λ kv, ¬ (below l kv.1 ∧ kv.1 ≠ l)) fs.

(** The subtree rooted at [l], re-rooted at [l']. *)
Definition graft (l l' : list string) (fs : gmap (list string) node)
  : gmap (list string) node :=
  list_to_map
    (map (λ kv, (l' ++ drop (length l) kv.1, kv.2))
         (map_to_list (filter (λ kv, below l kv.1) fs))).

(** A well-formed tree: whatever is stored lies in a directory. *)
Definition wf (fs : gmap (list string) node) : Prop :=
  ∀ l n, fs !! l = Some n → is_dir_at fs (removelast l) = true.

(** [fs'] is [fs] with new directories, and nothing else changed. *)
Definition grows (fs fs' : gmap (list string) node) : Prop :=
  ∀ l, fs' !! l = fs !! l ∨ (fs !! l = None ∧ fs' !! l = Some Dir).

Section WithCwd.
Variable cwd : list string.

Definition resolve (fs : gmap (list string) node) (p : string) : option (list string) :=
  if nonempty p
  then walk fs (if PosixPath.isabs p then [] else cwd) (split sep p)
  else None.

(** [os.path.exists(p)] *)
Definition exists_ (fs : gmap (list string) node) (p : string) : bool :=
  match resolve fs p with
  | Some l => bool_decide (is_Some (node_at fs l))
  | None => false
  end.

(** [os.path.isdir(p)] *)
Definition isdir (fs : gmap (list string) node) (p : string) : bool :=
  match resolve fs p with
  | Some l => is_dir_at fs l
  | None => false
  end.

(** The content of the regular file at [p], if there is one. *)
Definition read (fs : gmap (list string) node) (p : string) : option string :=
  match resolve fs p with
  | Some l => match node_at fs l with
              | Some (File data) => Some data
              | _ => None
              end
  | None => None
  end.

(** [os.makedirs(name, exist_ok=True)], component by component: a missing
    directory is created, an existing one is entered, a regular file in
    the way raises. *)
Fixpoint mkchain (fs : gmap (list string) node) (cur : list string) (cs : list string)
  : fsres :=
  match cs with
  | [] => Done fs
  | c :: cs' =>
      if is_dot c then mkchain fs cur cs'
      else if eqb c ".." then mkchain fs (removelast cur) cs'
      else match node_at fs (cur ++ [c]) with
           | Some Dir => mkchain fs (cur ++ [c]) cs'
           | Some (File _) =>
               Fail (match cs' with [] => FileExistsError | _ => NotADirectoryError end) fs
           | None => mkchain (<[cur ++ [c] := Dir]> fs) (cur ++ [c]) cs'
           end
  end.

Definition makedirs (name : string) (fs : gmap (list string) node) : fsres :=
  if nonempty name then
    let start := if PosixPath.isabs name then [] else cwd in
    if is_dir_at fs start then mkchain fs start (split sep name)
    else Fail FileNotFoundError fs
  else Fail FileNotFoundError fs.

(** [with open(p, 'w', encoding='utf-8') as f: f.write(data)], in its two
    steps.  [open] makes the file or empties the one that is there;
    [f.write] then encodes the whole text, and a text the encoder refuses
    raises [UnicodeEncodeError] with nothing written: the file stays as
    [open] left it, empty. *)
Definition write (p data : string) (fs : gmap (list string) node) : fsres :=
  match resolve fs p with
  | Some l =>
      match node_at fs l with
      | Some Dir => Fail IsADirectoryError fs
      | _ =>
          let opened := <[l := File EmptyString]> fs in
          if utf8 data then Done (<[l := File data]> opened)
          else Fail UnicodeEncodeError opened
      end
  | None => Fail FileNotFoundError fs
  end.

(** [os.remove(p)] *)
Definition remove (p : string) (fs : gmap (list string) node) : fsres :=
  match resolve fs p with
  | Some l =>
      match node_at fs l with
      | Some (File _) => Done (delete l fs)
      | Some Dir => Fail IsADirectoryError fs
      | None => Fail FileNotFoundError fs
      end
  | None => Fail FileNotFoundError fs
  end.

(** The last name of [p], trailing separators ignored. *)
Definition last_name (p : string) : option string :=
  last (filter (λ x, nonempty x = true) (split sep p)).

(** [shutil.rmtree(p)]: the whole subtree goes.  On a path that names the
    directory as [.] or [..], or on the root, the content is removed and
    the final [rmdir] raises. *)
Definition rmtree (p : string) (fs : gmap (list string) node) : fsres :=
  match resolve fs p with
  | Some l =>
      match node_at fs l with
      | Some Dir =>
          match last_name p with
          | Some n =>
              if eqb n "." || eqb n ".." then Fail OSError (prune_inside l fs)
              else Done (prune l fs)
          | None => Fail OSError (prune_inside l fs)
          end
      | Some (File _) => Fail NotADirectoryError fs
      | None => Fail FileNotFoundError fs
      end
  | None => Fail FileNotFoundError fs
  end.

(** [os.rename(src, dst)] *)
Definition rename (src dst : string) (fs : gmap (list string) node) : fsres :=
  match resolve fs src, resolve fs dst with
  | Some l, Some l' =>
      match node_at fs l with
      | Some (File data) =>
          match node_at fs l' with
          | Some Dir => Fail IsADirectoryError fs
          | _ => Done (<[l' := File data]> (delete l fs))
          end
      | Some Dir =>
          if bool_decide (l = l') then Done fs
          else if bool_decide (below l l') then Fail OSError fs
          else match node_at fs l' with
               | Some (File _) => Fail NotADirectoryError fs
               | Some Dir =>
                   if bool_decide (prune_inside l' fs = fs)
                   then Done (graft l l' fs ∪ prune l fs)
                   else Fail OSError fs
               | None => Done (graft l l' fs ∪ prune l fs)
               end
      | None => Fail FileNotFoundError fs
      end
  | _, _ => Fail FileNotFoundError fs
  end.

(** [shutil._basename]: the base name, a trailing separator ignored. *)
Definition _basename (p : string) : string := PosixPath.basename (rstrip sep p).

(** When [os.rename] raises, [shutil.move] copies instead, and on one
    device without permissions the copy fails too: a directory moved
    into itself is reported by [shutil], a regular file in the way of a
    directory by [copytree]. *)
Definition fallback (r : fsres) : fsres :=
  match r with
  | Fail OSError fs => Fail ShutilError fs
  | Fail NotADirectoryError fs => Fail FileExistsError fs
  | _ => r
  end.

(** [shutil.move(src, dst)]: into [dst] when [dst] is a directory, onto
    [dst] otherwise. *)
Definition move (src dst : string) (fs : gmap (list string) node) : fsres :=
  if isdir fs dst then
    if bool_decide (is_Some (resolve fs src) ∧ resolve fs src = resolve fs dst)
    then rename src dst fs
    else
      let real_dst := PosixPath.join dst [_basename src] in
      if exists_ fs real_dst then Fail ShutilError fs
      else fallback (rename src real_dst fs)
  else fallback (rename src dst fs).

End WithCwd.
End FS.

(** ** The handler *)

Module Handler.
Import PyStr.
Export FS.

(** A watchdog event. [dest_path] is read by [on_moved] only. *)
Record event : Type := Event {
  src_path : string;
  dest_path : string;
  is_directory : bool
}.

(** What [datetime.now()] answers. *)
Record datetime : Type := DateTime {
  year : Z;
  month : Z;
  day : Z;
  hour : Z;
  minute : Z
}.

(** The [FileHandler] object, the disk and the console. *)
Record state : Type := State {
  watch_dir : string;
  archive_dir : string;
  system_created_txt_files : gset string;
  disk : gmap (list string) node;
  stdout : list string
}.

(** [FileHandler(watch_dir, archive_dir)] *)
Definition init (watch archive : string) (fs : gmap (list string) node) (out : list string)
  : state :=
  State watch archive ∅ fs out.

Definition set_disk (fs : gmap (list string) node) (st : state) : state :=
  State (watch_dir st) (archive_dir st) (system_created_txt_files st) fs (stdout st).

(** ** Computations: a state that survives exceptions *)

Inductive outcome (A : Type) : Type :=
| Ok (a : A) (st : state)
| Raise (e : exn) (st : state).
Global Arguments Ok {A} a st.
Global Arguments Raise {A} e st.

Definition M (A : Type) : Type := state → outcome A.

Definition ret {A} (a : A) : M A := λ st, Ok a st.

Definition bind {A B} (m : M A) (k : A → M B) : M B :=
  λ st, match m st with
        | Ok a st' => k a st'
        | Raise e st' => Raise e st'
        end.

Definition raise {A} (e : exn) : M A := λ st, Raise e st.

Definition get {A} (f : state → A) : M A := λ st, Ok (f st) st.

Definition syscall (op : gmap (list string) node → fsres) : M unit :=
  λ st, match op (disk st) with
        | Done fs => Ok tt (set_disk fs st)
        | Fail e fs => Raise e (set_disk fs st)
        end.

Definition emit (lines : list string) (st : state) : state :=
  State (watch_dir st) (archive_dir st) (system_created_txt_files st)
        (disk st) (stdout st ++ lines).

Definition mark (p : string) (st : state) : state :=
  State (watch_dir st) (archive_dir st) ({[p]} ∪ system_created_txt_files st)
        (disk st) (stdout st).

(** [print(line)].  The console is [sys.stdout], whose encoding and error
    handler are set by whoever starts the process and not by the program:
    it is taken as one that shows every line it is given. *)
Definition print (line : string) : M unit := λ st, Ok tt (emit [line] st).

(** [self.system_created_txt_files.add(p)] *)
Definition track (p : string) : M unit := λ st, Ok tt (mark p st).

Definition final {A} (r : outcome A) : state :=
  match r with
  | Ok _ st => st
  | Raise _ st => st
  end.

Declare Scope py_scope.
Delimit Scope py_scope with py.
Notation "x <- m ;; k" := (bind m (λ x, k))
  (at level 100, m at next level, right associativity) : py_scope.
Notation "m ;; k" := (bind m (λ _, k))
  (at level 100, right associativity) : py_scope.
Local Open Scope py_scope.

Definition border : string := "=========================".

Definition nl : string := String (ascii_of_nat 10) EmptyString.

(** ** [strftime("%Y-%m-%d %H:%M")] *)

(** The character of the last decimal digit of [n]. *)
Definition dchar (n : Z) : ascii := ascii_of_nat (Z.to_nat (48 + n mod 10)).

Definition digit (n : Z) : string := String (dchar n) EmptyString.

(** [%m], [%d], [%H], [%M]: two digits, zero padded. *)
Definition pad2 (n : Z) : string := digit (n / 10) +:+ digit n.

(** [%Y]: the decimal digits of the year, without padding. *)
Fixpoint decimal_fuel (fuel : nat) (n : Z) : string :=
  match fuel with
  | O => EmptyString
  | S fuel' =>
      if (n <? 10)%Z then digit n
      else decimal_fuel fuel' (n / 10) +:+ digit n
  end.

Definition decimal (n : Z) : string := decimal_fuel (S (Z.to_nat (Z.log2 n))) n.

Definition strftime (now : datetime) : string :=
  decimal (year now) +:+ "-" +:+ pad2 (month now) +:+ "-" +:+ pad2 (day now)
    +:+ " " +:+ pad2 (hour now) +:+ ":" +:+ pad2 (minute now).

(** The text [on_created] writes into a sidecar. *)
Definition sidecar_text (base_name current_date : string) : string :=
  "File name: " +:+ base_name +:+ nl
    +:+ nl
    +:+ "Link: " +:+ nl
    +:+ "                        " +:+ nl
    +:+ "Last updated: " +:+ current_date +:+ nl
    +:+ nl
    +:+ "Other:" +:+ nl.

(** The extensions probed when a [.txt] file is deleted, in this order. *)
Definition possible_extensions : list string :=
  [".mp4"; ".avi"; ".mkv"; ".mov"; ".webm"; ".gif"; ".jpeg"; ".jpg"; ".png";
   ".webp"; ".mp3"; ".aac"; ".wav"; ".flac"; ".bmp"].

Section WithEnvironment.
(** The working directory of the process. *)
Variable cwd : list string.
(** [unicodedata.normalize('NFC', _)] *)
Variable nfc : string → string.

(** [os.path.relpath], raising [ValueError] on an empty path. *)
Definition relpath (path start : string) : M string :=
  match PosixPath.relpath cwd path start with
  | Some r => ret r
  | None => raise ValueError
  end.

Definition path_exists (p : string) : M bool :=
  get (λ st, exists_ cwd (disk st) p).

(** The sidecar path of a relative path whose extension-stripped name is
    [name_without_ext]. *)
Definition txt_path_of (archive relative_path name_without_ext : string) : string :=
  PosixPath.join archive
    [PosixPath.dirname relative_path; name_without_ext +:+ ".txt"].

Definition on_created (now : datetime) (event : event) : M unit :=
  if is_directory event then ret tt
  else
    watch <- get watch_dir;;
    archive <- get archive_dir;;
    relative_path <- relpath (src_path event) watch;;
    let base_name := nfc (PosixPath.basename (src_path event)) in
    let name_without_ext := nfc (fst (PosixPath.splitext base_name)) in
    let txt_path := txt_path_of archive relative_path name_without_ext in
    syscall (makedirs cwd (PosixPath.dirname txt_path));;
    if eqb (src_path event) txt_path then ret tt
    else if endswith base_name ".txt" then
      created <- get system_created_txt_files;;
      if bool_decide (src_path event ∈ created) then ret tt
      else
        print ("Ignored .txt file: " +:+ base_name);;
        print border
    else
      let current_date := strftime now in
      syscall (write cwd txt_path (sidecar_text base_name current_date));;
      track txt_path;;
      print ("File added: " +:+ base_name);;
      print "Corresponding source file also created.";;
      print border.

Definition on_moved (event : event) : M unit :=
  if is_directory event then ret tt
  else
    watch <- get watch_dir;;
    archive <- get archive_dir;;
    old_relative_path <- relpath (src_path event) watch;;
    new_relative_path <- relpath (dest_path event) watch;;
    let old_name_without_ext :=
      nfc (fst (PosixPath.splitext (PosixPath.basename old_relative_path))) in
    let new_name_without_ext :=
      nfc (fst (PosixPath.splitext (PosixPath.basename new_relative_path))) in
    let old_txt_path := txt_path_of archive old_relative_path old_name_without_ext in
    let new_txt_path := txt_path_of archive new_relative_path new_name_without_ext in
    found <- path_exists old_txt_path;;
    if found then
      syscall (makedirs cwd (PosixPath.dirname new_txt_path));;
      syscall (move cwd old_txt_path new_txt_path)
    else ret tt.

(** The loop over [possible_extensions], left at the first hit. *)
Fixpoint probe (watch relative_path base_name name_without_ext : string)
    (exts : list string) : M unit :=
  match exts with
  | [] => ret tt
  | ext :: exts' =>
      let watch_file_path :=
        PosixPath.join watch
          [PosixPath.dirname relative_path; name_without_ext +:+ ext] in
      found <- path_exists watch_file_path;;
      if found then
        syscall (remove cwd watch_file_path);;
        print ("File deleted: " +:+ base_name);;
        print ("Watch file also deleted: " +:+ name_without_ext +:+ ext);;
        print border
      else probe watch relative_path base_name name_without_ext exts'
  end.

Definition on_deleted (event : event) : M unit :=
  watch <- get watch_dir;;
  archive <- get archive_dir;;
  if is_directory event then
    relative_dir_path <- relpath (src_path event) watch;;
    let archive_dir_path := PosixPath.join archive [relative_dir_path] in
    found <- path_exists archive_dir_path;;
    if found then
      syscall (rmtree cwd archive_dir_path);;
      print ("Directory deleted: " +:+ relative_dir_path);;
      print "Corresponding source files also deleted.";;
      print border
    else ret tt
  else
    relative_path <- relpath (src_path event) watch;;
    let base_name := nfc (PosixPath.basename relative_path) in
    let name_without_ext := nfc (fst (PosixPath.splitext base_name)) in
    let txt_path := txt_path_of archive relative_path name_without_ext in
    found <- path_exists txt_path;;
    (if found then
       syscall (remove cwd txt_path);;
       print ("File deleted: " +:+ base_name);;
       print "Corresponding source file also deleted.";;
       print border
     else ret tt);;
    if endswith base_name ".txt" then
      let name_without_ext := fst (PosixPath.splitext base_name) in
      probe watch relative_path base_name name_without_ext possible_extensions
    else ret tt.

(** The sidecar path [on_created] computes for the file at [src]. *)
Definition created_txt (archive rel src : string) : string :=
  txt_path_of archive rel
    (nfc (fst (PosixPath.splitext (nfc (PosixPath.basename src))))).

(** The sidecar path [on_moved] computes for a relative path. *)
Definition moved_txt (archive rel : string) : string :=
  txt_path_of archive rel (nfc (fst (PosixPath.splitext (PosixPath.basename rel)))).

(** The sidecar path [on_deleted] computes for a relative path. *)
Definition deleted_txt (archive rel : string) : string :=
  txt_path_of archive rel
    (nfc (fst (PosixPath.splitext (nfc (PosixPath.basename rel))))).

(** The source path [on_deleted] probes for an extension. *)
Definition candidate (watch rel name_without_ext ext : string) : string :=
  PosixPath.join watch [PosixPath.dirname rel; name_without_ext +:+ ext].

(** The mirror mapping: the sidecar path of the file [name] in the
    directory [ds] below the source root. *)
Definition sidecar_of (archive : string) (ds : list string) (name : string) : string :=
  PosixPath.join archive
    [PyStr.join sep ds; nfc (fst (PosixPath.splitext (nfc name))) +:+ ".txt"].

(** The first part of [on_deleted] for a file: the mapped sidecar goes. *)
Definition drop_sidecar (txt_path base_name : string) (st : state) : outcome unit :=
  if exists_ cwd (disk st) txt_path then
    match remove cwd txt_path (disk st) with
    | Fail e fs' => Raise e (set_disk fs' st)
    | Done fs' =>
        Ok tt (emit ["File deleted: " +:+ base_name;
                     "Corresponding source file also deleted."; border]
                 (set_disk fs' st))
    end
  else Ok tt st.

(** ** Runs of the handler *)

(** What happens to a handler during the life of the process: the
    observer calls one of its callbacks, or the rest of the world
    changes the disk and the console. *)
Inductive call : Type :=
| Created (now : datetime) (event : event)
| Moved (event : event)
| Deleted (event : event)
| World (fs : gmap (list string) node) (out : list string).

(** A callback that raises leaves the state as it is when the exception
    escapes. *)
Definition exec (c : call) (st : state) : state :=
  match c with
  | Created now event => final (on_created now event st)
  | Moved event => final (on_moved event st)
  | Deleted event => final (on_deleted event st)
  | World fs out =>
      State (watch_dir st) (archive_dir st) (system_created_txt_files st) fs out
  end.

Definition run (cs : list call) (st : state) : state := fold_left (λ s c, exec c s) cs st.

Definition reachable (st : state) : Prop :=
  ∃ watch archive fs out cs, st = run cs (init watch archive fs out).

End WithEnvironment.

(** ** The shape of a sidecar record *)

Definition is_digit (a : ascii) : bool :=
  (48 <=? nat_of_ascii a) && (nat_of_ascii a <=? 57).

(** [YYYY-MM-DD HH:MM] *)
Definition timestamp_form (s : string) : bool :=
  match s with
  | String y1 (String y2 (String y3 (String y4 (String d1
    (String m1 (String m2 (String d2
    (String a1 (String a2 (String sp
    (String h1 (String h2 (String co
    (String n1 (String n2 EmptyString))))))))))))))) =>
      is_digit y1 && is_digit y2 && is_digit y3 && is_digit y4
      && is_char "-" d1 && is_digit m1 && is_digit m2
      && is_char "-" d2 && is_digit a1 && is_digit a2
      && is_char " " sp && is_digit h1 && is_digit h2
      && is_char ":" co && is_digit n1 && is_digit n2
  | _ => false
  end.

(** Nothing but spaces. *)
Definition blank (s : string) : bool := all_char " " s.

(** The four labelled fields in their order, a blank line after each of the
    first three, nothing in the link and notes fields. *)
Definition record_shape (name data : string) : Prop :=
  ∃ ts gap1 gap2 gap3 link other,
    data = "File name: " +:+ name +:+ nl
             +:+ gap1 +:+ nl
             +:+ "Link:" +:+ link +:+ nl
             +:+ gap2 +:+ nl
             +:+ "Last updated: " +:+ ts +:+ nl
             +:+ gap3 +:+ nl
             +:+ "Other:" +:+ other +:+ nl
    ∧ timestamp_form ts = true
    ∧ blank gap1 = true ∧ blank gap2 = true ∧ blank gap3 = true
    ∧ blank link = true ∧ blank other = true.


End Handler.

(** ** A disk to run the handler on *)

Module Scenario.
Import PyStr Handler.

(** A fragment of NFC: the letter [e] followed by the combining acute
    accent U+0301 (bytes 204 129 in UTF-8) becomes the precomposed letter
    U+00E9 (bytes 195 169); everything else stays. *)
Definition compose (a : ascii) (r : string) : string :=
  if is_char "e" a && startswith r (String "204" (String "129" EmptyString))
  then match r with
       | String _ (String _ r') => String "195" (String "169" r')
       | _ => String a r
       end
  else String a r.

Fixpoint nfc_sample (s : string) : string :=
  match s with
  | EmptyString => EmptyString
  | String a s' => compose a (nfc_sample s')
  end.

(** A name written with the combining accent, and as it is normalized. *)
Definition cafe_mp4 : string := "cafe" +:+ String "204" (String "129" ".mp4").
Definition cafe_mkv : string := "cafe" +:+ String "204" (String "129" ".mkv").
Definition cafe_txt : string := "caf" +:+ String "195" (String "169" ".txt").

Definition now0 : datetime := DateTime 2024 3 7 9 5.

(** The source root [/w] with one clip in [/w/clips], and the empty archive
    root [/a]. *)
Definition disk0 : gmap (list string) node :=
  list_to_map [(["w"], Dir); (["a"], Dir); (["w"; "clips"], Dir);
               (["w"; "clips"; cafe_mp4], File "moving pictures")].

Definition handler0 : state := init "/w" "/a" disk0 [].

Definition clip_created : event := Event ("/w/clips/" +:+ cafe_mp4) "" false.
Definition clip_deleted : event := Event ("/w/clips/" +:+ cafe_mp4) "" false.
Definition clip_moved : event :=
  Event ("/w/clips/" +:+ cafe_mp4) ("/w/films/" +:+ cafe_mkv) false.
Definition clips_deleted : event := Event "/w/clips" "" true.
Definition sidecar_created : event := Event ("/a/clips/" +:+ cafe_txt) "" false.
Definition nested_notes_created : event := Event "/w/new/dir/notes.txt" "" false.

(** The handler after it has seen the clip. *)
Definition handler1 : state := run [] nfc_sample [Created now0 clip_created] handler0.

(** Two videos of one name, and the deletion of their sidecar. *)
Definition disk_videos : gmap (list string) node :=
  list_to_map [(["w"], Dir); (["a"], Dir);
               (["w"; "video.mp4"], File "mp4"); (["w"; "video.mov"], File "mov")].
Definition video_txt_deleted : event := Event "/a/video.txt" "" false.

(** A document with its sidecar, and a text file of the same name deleted
    in the source tree. *)
Definition disk_notes : gmap (list string) node :=
  list_to_map [(["w"], Dir); (["a"], Dir);
               (["w"; "notes.pdf"], File "pdf"); (["a"; "notes.txt"], File "sidecar")].
Definition notes_txt_deleted : event := Event "/w/notes.txt" "" false.

(** A source directory named [clip.txt]: its mirror in the archive is a
    directory where the sidecar of a file named [clip] would go. *)
Definition disk_clip : gmap (list string) node :=
  list_to_map [(["w"], Dir); (["a"], Dir); (["w"; "clip.txt"], Dir);
               (["w"; "clip.txt"; "v.mp4"], File "v"); (["w"; "old.mp4"], File "old")].
Definition handler_clip : state :=
  run [] nfc_sample
    [Created now0 (Event "/w/clip.txt/v.mp4" "" false);
     Created now0 (Event "/w/old.mp4" "" false)]
    (init "/w" "/a" disk_clip []).

(** The day after [now0]. *)
Definition later : datetime := DateTime 2024 3 8 10 30.

(** The clip renamed to the other container. *)
Definition clip_retyped : event :=
  Event ("/w/clips/" +:+ cafe_mp4) ("/w/clips/" +:+ cafe_mkv) false.
(** The source root itself goes. *)
Definition root_deleted : event := Event "/w" "" true.
(** A file whose sidecar path is the mirror of the directory [clip.txt]. *)
Definition clip_blocked : event := Event "/w/clip.mp4" "" false.

(** The directory [/w/clips] renamed, and the clip going under its new
    path. *)
Definition clips_renamed : event := Event "/w/clips" "/w/films" true.
Definition film_deleted : event := Event ("/w/films/" +:+ cafe_mp4) "" false.
(** A picture put into the archive root. *)
Definition poster_created : event := Event "/a/poster.jpg" "" false.

(** A name as Latin-1 writes it: the byte 233 alone is not UTF-8. *)
Definition latin_mp4 : string := "caf" +:+ String "233" ".mp4".
Definition latin_txt : string := "caf" +:+ String "233" ".txt".
Definition latin_created : event := Event ("/w/" +:+ latin_mp4) "" false.

(** A source directory named [x.txt] beside the files [x.mp4] and
    [old.mp4], after the handler has seen the two files: the sidecar of
    [x.mp4] is a regular file [/a/x.txt], where the mirror of the directory
    would go. *)
Definition disk_x : gmap (list string) node :=
  list_to_map [(["w"], Dir); (["a"], Dir); (["w"; "x.txt"], Dir);
               (["w"; "x.mp4"], File "x"); (["w"; "old.mp4"], File "old")].
Definition handler_x : state :=
  run [] nfc_sample
    [Created now0 (Event "/w/x.mp4" "" false);
     Created now0 (Event "/w/old.mp4" "" false)]
    (init "/w" "/a" disk_x []).
(** A video and a text file appear in the directory [x.txt]. *)
Definition inner_created : event := Event "/w/x.txt/y.mp4" "" false.
Definition inner_notes_created : event := Event "/w/x.txt/notes.txt" "" false.
(** The directory [x.txt] goes. *)
Definition x_txt_deleted : event := Event "/w/x.txt" "" true.

End Scenario.

(** * Facts *)

(** ** Strings *)

Module PyStrFacts.
Import PyStr.

Lemma sapp_nil_l (s : string) : "" +:+ s = s.
Proof. reflexivity. Qed.

Lemma sapp_cons (a : ascii) (s t : string) : String a s +:+ t = String a (s +:+ t).
Proof. reflexivity. Qed.

Lemma sapp_nil_r (s : string) : s +:+ "" = s.
Proof. induction s as [|a s IH]; [done|]. by rewrite sapp_cons, IH. Qed.

Lemma sapp_assoc (s t u : string) : (s +:+ t) +:+ u = s +:+ (t +:+ u).
Proof. induction s as [|a s IH]; [done|]. by rewrite !sapp_cons, IH. Qed.

Lemma slength_app (s t : string) :
  String.length (s +:+ t) = String.length s + String.length t.
Proof. induction s as [|a s IH]; [done|]. rewrite sapp_cons. simpl. by rewrite IH. Qed.

Lemma sapp_eq_nil (s t : string) : s +:+ t = "" → s = "" ∧ t = "".
Proof. destruct s; [done|]. by rewrite sapp_cons. Qed.

Lemma eqb_true (s t : string) : eqb s t = true ↔ s = t.
Proof. unfold eqb. by rewrite bool_decide_eq_true. Qed.

Lemma eqb_false (s t : string) : eqb s t = false ↔ s ≠ t.
Proof. unfold eqb. by rewrite bool_decide_eq_false. Qed.

Lemma eqb_refl (s : string) : eqb s s = true.
Proof. by apply eqb_true. Qed.

Lemma is_char_true (c a : ascii) : is_char c a = true ↔ a = c.
Proof. unfold is_char. by rewrite bool_decide_eq_true. Qed.

Lemma is_char_false (c a : ascii) : is_char c a = false ↔ a ≠ c.
Proof. unfold is_char. by rewrite bool_decide_eq_false. Qed.

Lemma is_char_refl (c : ascii) : is_char c c = true.
Proof. by apply is_char_true. Qed.

(** *** Prefixes and suffixes *)

Lemma startswith_nil (s : string) : startswith s "" = true.
Proof. by destruct s. Qed.

Lemma startswith_char_app (a : ascii) (s t : string) :
  s ≠ "" → startswith (s +:+ t) (String a "") = startswith s (String a "").
Proof.
  destruct s as [|b s]; [done|]. intros _. rewrite sapp_cons. simpl.
  by rewrite !startswith_nil.
Qed.

Lemma endswith_refl (p : string) : endswith p p = true.
Proof. destruct p; simpl; [done|]. by rewrite eqb_refl. Qed.

Lemma endswith_app (a p : string) : endswith (a +:+ p) p = true.
Proof.
  induction a as [|c a IH]; [apply endswith_refl|].
  rewrite sapp_cons. simpl. rewrite IH. apply orb_true_r.
Qed.

Lemma endswith_spec (s p : string) : endswith s p = true ↔ ∃ a, s = a +:+ p.
Proof.
  split.
  - induction s as [|c s IH]; simpl; intros H.
    + apply orb_true_iff in H as [H|H]; [|done].
      apply eqb_true in H as <-. by exists "".
    + apply orb_true_iff in H as [H|H].
      * apply eqb_true in H as <-. by exists "".
      * destruct (IH H) as [a ->]. by exists (String c a).
  - intros [a ->]. apply endswith_app.
Qed.

Lemma endswith_app_r (a s p : string) : endswith s p = true → endswith (a +:+ s) p = true.
Proof.
  rewrite !endswith_spec. intros [b ->]. exists (a +:+ b). by rewrite sapp_assoc.
Qed.

Lemma endswith_nonempty (s p : string) :
  endswith s p = true → nonempty p = true → nonempty s = true.
Proof.
  rewrite endswith_spec. intros [a ->] Hp.
  destruct a; [done|]. by rewrite sapp_cons.
Qed.

(** *** Occurrences of a character *)

Lemma has_char_app (c : ascii) (s t : string) :
  has_char c (s +:+ t) = has_char c s || has_char c t.
Proof.
  induction s as [|a s IH]; [done|].
  rewrite sapp_cons. simpl. by rewrite IH, orb_assoc.
Qed.

Lemma rbreak_none (c : ascii) (s : string) : rbreak c s = None ↔ has_char c s = false.
Proof.
  induction s as [|a s IH]; [done|]. simpl.
  destruct (rbreak c s) as [[h t]|].
  - split; [done|]. intros [_ H]%orb_false_iff. by apply IH in H.
  - destruct (is_char c a); [done|]. simpl. split; [|done]. intros _. by apply IH.
Qed.

Lemma rbreak_some (c : ascii) (s h t : string) :
  rbreak c s = Some (h, t) →
  ∃ t', t = String c t' ∧ s = h +:+ String c t' ∧ has_char c t' = false.
Proof.
  revert h t. induction s as [|a s IH]; intros h t; [done|]. simpl.
  destruct (rbreak c s) as [[h' t']|] eqn:E.
  - intros [= <- <-]. destruct (IH _ _ eq_refl) as (t'' & -> & -> & Hno).
    exists t''. by rewrite sapp_cons.
  - destruct (is_char c a) eqn:Ea; [|done]. intros [= <- <-].
    apply is_char_true in Ea as ->. exists s. split; [done|]. split; [done|].
    by apply rbreak_none.
Qed.

Lemma rbreak_app_sep (c : ascii) (h t : string) :
  has_char c t = false → rbreak c (h +:+ String c t) = Some (h, String c t).
Proof.
  intros Hno. induction h as [|a h IH].
  - rewrite sapp_nil_l. simpl. apply rbreak_none in Hno as ->.
    by rewrite is_char_refl.
  - rewrite sapp_cons. simpl. by rewrite IH.
Qed.

(** *** Splitting and joining *)

Lemma split_nonnil (c : ascii) (s : string) : split c s ≠ [].
Proof.
  induction s as [|a s IH]; [done|]. simpl.
  destruct (is_char c a); [done|]. by destruct (split c s).
Qed.

Lemma split_nosep (c : ascii) (s : string) : has_char c s = false → split c s = [s].
Proof.
  induction s as [|a s IH]; [done|]. simpl.
  intros [Ha Hs]%orb_false_iff. rewrite Ha. by rewrite (IH Hs).
Qed.

Lemma split_app_sep (c : ascii) (s t : string) :
  split c (s +:+ String c t) = split c s ++ split c t.
Proof.
  induction s as [|a s IH].
  - rewrite sapp_nil_l. simpl. by rewrite is_char_refl.
  - rewrite sapp_cons. simpl. destruct (is_char c a); rewrite IH; [done|].
    pose proof (split_nonnil c s). by destruct (split c s).
Qed.

Lemma split_join (c : ascii) (l : list string) :
  Forall (λ x, has_char c x = false) l → l ≠ [] → split c (join c l) = l.
Proof.
  induction 1 as [|x l Hx Hl IH]; [done|]. intros _.
  destruct l as [|y l]; [by apply split_nosep|].
  change (join c (x :: y :: l)) with (x +:+ String c (join c (y :: l))).
  rewrite split_app_sep, (split_nosep _ _ Hx), IH; done.
Qed.

Lemma join_app_one (c : ascii) (l : list string) (x : string) :
  l ≠ [] → join c (l ++ [x]) = join c l +:+ String c x.
Proof.
  induction l as [|y l IH]; [done|]. intros _.
  destruct l as [|z l]; [done|].
  change (join c ((y :: z :: l) ++ [x])) with (y +:+ String c (join c ((z :: l) ++ [x]))).
  rewrite IH by done.
  change (join c (y :: z :: l)) with (y +:+ String c (join c (z :: l))).
  by rewrite sapp_assoc, sapp_cons.
Qed.

(** *** Stripping *)

Lemma all_char_replicate (c : ascii) (n : nat) : all_char c (replicate n c) = true.
Proof. induction n; simpl; [done|]. by rewrite is_char_refl. Qed.

Lemma all_char_spec (c : ascii) (s : string) :
  all_char c s = true → s = replicate (String.length s) c.
Proof.
  induction s as [|a s IH]; [done|]. simpl.
  intros [Ha Hs]%andb_true_iff. apply is_char_true in Ha as ->. by rewrite <- IH.
Qed.

Lemma rstrip_nil_iff (c : ascii) (s : string) : rstrip c s = "" ↔ all_char c s = true.
Proof.
  induction s as [|a s IH]; [done|]. simpl.
  destruct (rstrip c s) eqn:E.
  - destruct (is_char c a); simpl; [|done]. split; [|done]. intros _. by apply IH.
  - split; [done|]. intros [_ H]%andb_true_iff. by apply IH in H.
Qed.

Lemma rstrip_spec (c : ascii) (s : string) :
  ∃ n, s = rstrip c s +:+ replicate n c ∧ endswith (rstrip c s) (String c "") = false.
Proof.
  induction s as [|a s (n & Hs & He)]; [by exists 0|]. simpl.
  destruct (rstrip c s) as [|b r] eqn:E.
  - destruct (is_char c a) eqn:Ea.
    + exists (S n). apply is_char_true in Ea as ->. split; [|done].
      rewrite sapp_nil_l in *. simpl. by rewrite <- Hs.
    + exists n. split; [by rewrite sapp_cons, <- Hs|].
      simpl. apply is_char_false in Ea.
      rewrite orb_false_r. apply eqb_false. congruence.
  - exists n. split; [by rewrite sapp_cons, <- Hs|].
    change (endswith (String a (String b r)) (String c ""))
      with (eqb (String a (String b r)) (String c "") || endswith (String b r) (String c "")).
    rewrite He, orb_false_r. by apply eqb_false.
Qed.

(** *** The encoder *)

Lemma ascii_not_in_range (lo hi : nat) (a : ascii) :
  is_ascii a = true → 128 ≤ lo → in_range lo hi a = false.
Proof.
  unfold is_ascii, in_range. intros Ha%Nat.ltb_lt Hlo.
  apply andb_false_iff. left. apply Nat.leb_gt. lia.
Qed.

Lemma ascii_not_cont (a : ascii) : is_ascii a = true → cont a = false.
Proof. intros Ha. by apply ascii_not_in_range. Qed.

Lemma ascii_not_lead3 (x a : ascii) : is_ascii a = true → lead3 x a = false.
Proof.
  intros Ha. unfold lead3.
  by rewrite (ascii_not_cont a Ha), !(ascii_not_in_range _ _ a Ha), !andb_false_r by lia.
Qed.

Lemma ascii_not_lead4 (x a : ascii) : is_ascii a = true → lead4 x a = false.
Proof.
  intros Ha. unfold lead4.
  by rewrite (ascii_not_cont a Ha), !(ascii_not_in_range _ _ a Ha), !andb_false_r by lia.
Qed.

Lemma utf8_cons_ascii (a : ascii) (s : string) :
  is_ascii a = true → utf8 (String a s) = utf8 s.
Proof. intros Ha. simpl. by rewrite Ha. Qed.

Lemma utf8_all_ascii_app (p s : string) : all_ascii p = true → utf8 (p +:+ s) = utf8 s.
Proof.
  induction p as [|a p IH]; [done|]. simpl all_ascii.
  intros [Ha Hp]%andb_true_iff. by rewrite sapp_cons, utf8_cons_ascii, IH.
Qed.

(** An ASCII character ends whatever sequence is open before it. *)
Lemma utf8_app_ascii (b : string) (a : ascii) (t : string) :
  is_ascii a = true → utf8 (b +:+ String a t) = utf8 b && utf8 t.
Proof.
  intros Ha.
  assert (∀ n b, String.length b ≤ n →
            utf8 (b +:+ String a t) = utf8 b && utf8 t) as H.
  2:{ by apply (H (String.length b)). }
  clear b. induction n as [|n IH]; intros b Hb.
  { destruct b; [|simpl in Hb; lia]. by rewrite sapp_nil_l, utf8_cons_ascii. }
  destruct b as [|x b]; [by rewrite sapp_nil_l, utf8_cons_ascii|].
  simpl in Hb. rewrite sapp_cons.
  destruct (is_ascii x) eqn:Hx.
  { rewrite !utf8_cons_ascii by done. apply IH. lia. }
  destruct b as [|y b].
  { rewrite sapp_nil_l. simpl. rewrite Hx, (ascii_not_cont a Ha).
    rewrite (ascii_not_lead3 x a Ha), (ascii_not_lead4 x a Ha).
    by destruct (lead2 x). }
  simpl in Hb. rewrite sapp_cons.
  change (utf8 (String x (String y (b +:+ String a t))))
    with (if is_ascii x then utf8 (String y (b +:+ String a t))
          else if lead2 x then cont y && utf8 (b +:+ String a t)
          else if lead3 x y then
            match b +:+ String a t with
            | EmptyString => false
            | String c s3 => cont c && utf8 s3
            end
          else if lead4 x y then
            match b +:+ String a t with
            | EmptyString => false
            | String c s3 =>
                cont c && match s3 with
                          | EmptyString => false
                          | String d s4 => cont d && utf8 s4
                          end
            end
          else false).
  change (utf8 (String x (String y b)))
    with (if is_ascii x then utf8 (String y b)
          else if lead2 x then cont y && utf8 b
          else if lead3 x y then
            match b with
            | EmptyString => false
            | String c s3 => cont c && utf8 s3
            end
          else if lead4 x y then
            match b with
            | EmptyString => false
            | String c s3 =>
                cont c && match s3 with
                          | EmptyString => false
                          | String d s4 => cont d && utf8 s4
                          end
            end
          else false).
  rewrite Hx.
  destruct (lead2 x).
  { rewrite IH by lia. by rewrite andb_assoc. }
  destruct (lead3 x y).
  { destruct b as [|z b].
    - rewrite sapp_nil_l. by rewrite (ascii_not_cont a Ha).
    - rewrite sapp_cons. simpl in Hb. rewrite IH by lia. by rewrite andb_assoc. }
  destruct (lead4 x y); [|done].
  destruct b as [|z b].
  { rewrite sapp_nil_l. by rewrite (ascii_not_cont a Ha). }
  rewrite sapp_cons. simpl in Hb.
  destruct b as [|u b].
  { rewrite sapp_nil_l, (ascii_not_cont a Ha). simpl. by rewrite !andb_false_r. }
  rewrite sapp_cons. simpl in Hb. rewrite IH by lia. by rewrite !andb_assoc.
Qed.

Lemma utf8_all_ascii (s : string) : all_ascii s = true → utf8 s = true.
Proof.
  induction s as [|a s IH]; [done|]. simpl all_ascii.
  intros [Ha Hs]%andb_true_iff. rewrite utf8_cons_ascii by done. by apply IH.
Qed.

Lemma utf8_between (p b s : string) (a : ascii) :
  all_ascii p = true → is_ascii a = true → all_ascii s = true →
  utf8 (p +:+ b +:+ String a s) = utf8 b.
Proof.
  intros Hp Ha Hs. rewrite utf8_all_ascii_app by done.
  rewrite utf8_app_ascii by done.
  by rewrite (utf8_all_ascii s Hs), andb_true_r.
Qed.

Lemma all_ascii_app (s t : string) : all_ascii (s +:+ t) = all_ascii s && all_ascii t.
Proof.
  induction s as [|a s IH]; [done|]. rewrite sapp_cons. simpl.
  by rewrite IH, andb_assoc.
Qed.

End PyStrFacts.

(** ** Paths *)

Module PosixPathFacts.
Import PyStr PyStrFacts PosixPath.

(** *** The model against CPython's [posixpath], on sample paths *)

Example normpath_samples :
  normpath "//a/../..//b/./c/" = "//b/c" ∧ normpath "///a" = "/a"
  ∧ normpath "a/../.." = ".." ∧ normpath "" = "." ∧ normpath "/a/./b/.." = "/a".
Proof. repeat split; reflexivity. Qed.

Example dirname_samples :
  dirname "/a/x.txt" = "/a" ∧ dirname "x" = "" ∧ dirname "//a" = "//"
  ∧ dirname "/a//" = "/a" ∧ dirname "///" = "///".
Proof. repeat split; reflexivity. Qed.

Example basename_samples : basename "/a//" = "" ∧ basename "/a/b.c" = "b.c".
Proof. repeat split; reflexivity. Qed.

Example split_samples : split "a//b" = ("a", "b") ∧ split "/a" = ("/", "a").
Proof. repeat split; reflexivity. Qed.

Example splitext_samples :
  splitext "..x" = ("..x", "") ∧ splitext "a." = ("a", ".")
  ∧ splitext "/a.b/c" = ("/a.b/c", "") ∧ splitext ".bashrc" = (".bashrc", "")
  ∧ splitext "a.tar.gz" = ("a.tar", ".gz") ∧ splitext "clip.webm" = ("clip", ".webm").
Proof. repeat split; reflexivity. Qed.

Example join_samples :
  join "/a" [""; "x.txt"] = "/a/x.txt" ∧ join "/a" ["sub"; "x.txt"] = "/a/sub/x.txt"
  ∧ join "/a" ["/b"; "c"] = "/b/c" ∧ join "" ["x"] = "x" ∧ join "a/" ["x"] = "a/x".
Proof. repeat split; reflexivity. Qed.

Example relpath_samples :
  relpath [] "/a/notes.txt" "/w" = Some "../a/notes.txt"
  ∧ relpath [] "/w" "/w" = Some "."
  ∧ relpath [] "/" "/w/x" = Some "../.."
  ∧ relpath [] "/w/a/b.mp4" "/w/" = Some "a/b.mp4"
  ∧ relpath [] "/w/sub/x" "/w/other" = Some "../sub/x"
  ∧ relpath ["usr"; "lib"] "x/y" "/usr" = Some "lib/x/y"
  ∧ relpath [] "" "/w" = None.
Proof. repeat split; reflexivity. Qed.

Example abspath_sample : abspath ["usr"; "lib"] "../bin" = "/usr/bin".
Proof. reflexivity. Qed.

Lemma rbreak_app_nosep (c : ascii) (a s : string) :
  has_char c s = false →
  rbreak c (a +:+ s) =
    match rbreak c a with
    | Some (h, t) => Some (h, t +:+ s)
    | None => None
    end.
Proof.
  intros Hs. induction a as [|x a IH].
  - rewrite sapp_nil_l. simpl. by apply rbreak_none.
  - rewrite sapp_cons. simpl. rewrite IH.
    destruct (rbreak c a) as [[h t]|]; [done|]. by destruct (is_char c x).
Qed.

Lemma cut_app (h t : string) :
  has_char sep t = false → cut (h +:+ String sep t) = (h +:+ "/", t).
Proof. intros Ht. unfold cut. by rewrite rbreak_app_sep. Qed.

Lemma cut_nosep (t : string) : has_char sep t = false → cut t = ("", t).
Proof. intros Ht. unfold cut. apply rbreak_none in Ht. by rewrite Ht. Qed.

Lemma cut_spec (p h t : string) :
  cut p = (h, t) →
  p = h +:+ t ∧ has_char sep t = false ∧ (h = "" ∨ ∃ h', h = h' +:+ "/").
Proof.
  unfold cut. destruct (rbreak sep p) as [[h' t']|] eqn:E.
  - apply rbreak_some in E as (t'' & -> & -> & Hno).
    intros [= <- <-]. split; [by rewrite sapp_assoc|]. split; [done|]. right. by exists h'.
  - intros [= <- <-]. apply rbreak_none in E. by split; [|split; [|left]].
Qed.

Lemma cut_app_nosep (a s : string) :
  has_char sep s = false → cut (a +:+ s) = (fst (cut a), snd (cut a) +:+ s).
Proof.
  intros Hs. unfold cut. rewrite (rbreak_app_nosep _ _ _ Hs).
  destruct (rbreak sep a) as [[h t]|] eqn:E; [|done].
  apply rbreak_some in E as (t' & -> & _ & _). by rewrite sapp_cons.
Qed.

Lemma basename_app_nosep (a s : string) :
  has_char sep s = false → basename (a +:+ s) = basename a +:+ s.
Proof. intros Hs. unfold basename. by rewrite cut_app_nosep. Qed.

Lemma basename_endswith_txt (p : string) :
  endswith p ".txt" = true → endswith (basename p) ".txt" = true.
Proof.
  intros [a ->]%endswith_spec. rewrite basename_app_nosep by done. apply endswith_app.
Qed.

Lemma join2_endswith (path b x : string) :
  endswith b x = true → endswith (join2 path b) x = true.
Proof.
  intros Hb. unfold join2. destruct (startswith b "/"); [done|].
  destruct (negb (nonempty path) || endswith path "/"); by repeat apply endswith_app_r.
Qed.

Lemma join_endswith (a x : string) (p : list string) :
  (∃ b, last p = Some b ∧ endswith b x = true) → endswith (join a p) x = true.
Proof.
  unfold join. revert a. induction p as [|b p IH]; intros a [b' [Hl Hb]]; [done|].
  simpl. destruct p as [|b'' p].
  - simpl in *. injection Hl as ->. by apply join2_endswith.
  - apply IH. exists b'. split; [|done]. by rewrite last_cons_cons in Hl.
Qed.

(** *** Proper names *)

Lemma is_name_spec (c : string) :
  is_name c = true ↔ c ≠ "" ∧ c ≠ "." ∧ c ≠ ".." ∧ has_char sep c = false.
Proof.
  unfold is_name. rewrite !andb_true_iff, !negb_true_iff, !eqb_false.
  destruct c; simpl; intuition congruence.
Qed.

Lemma name_not_startswith_sep (c : string) : is_name c = true → startswith c "/" = false.
Proof.
  intros (Hne & _ & _ & Hs)%is_name_spec. destruct c as [|a c]; [done|].
  simpl in *. apply orb_false_iff in Hs as [Ha _]. apply is_char_false in Ha.
  apply andb_false_iff. left. by apply bool_decide_eq_false.
Qed.

Lemma endswith_char_app (x c : string) (a : ascii) :
  c ≠ "" → endswith (x +:+ c) (String a "") = endswith c (String a "").
Proof.
  intros Hc. induction x as [|y x IH]; [done|].
  rewrite sapp_cons. simpl. rewrite IH.
  replace (eqb (String y (x +:+ c)) (String a "")) with false; [done|].
  symmetry. apply eqb_false. intros [= _ [_ ?]%sapp_eq_nil]. done.
Qed.

Lemma nosep_not_endswith_sep (x c : string) :
  c ≠ "" → has_char sep c = false → endswith (x +:+ c) "/" = false.
Proof.
  intros Hne Hs. rewrite endswith_char_app by done. clear x.
  induction c as [|b c IH]; [done|]. simpl in Hs.
  apply orb_false_iff in Hs as [Hb Hs]. apply is_char_false in Hb.
  simpl. apply orb_false_iff. split.
  - apply eqb_false. intros [= -> _]. done.
  - destruct c as [|b' c]; [done|]. by apply IH.
Qed.

Lemma name_not_endswith_sep (x c : string) :
  is_name c = true → endswith (x +:+ c) "/" = false.
Proof. intros (? & _ & _ & ?)%is_name_spec. by apply nosep_not_endswith_sep. Qed.

Lemma join_names_shape (l : list string) :
  Forall (λ c, is_name c = true) l → l ≠ [] →
  nonempty (PyStr.join sep l) = true ∧ endswith (PyStr.join sep l) "/" = false
  ∧ startswith (PyStr.join sep l) "/" = false.
Proof.
  induction 1 as [|c l Hc Hl IH]; [done|]. intros _.
  pose proof Hc as (Hne & _ & _ & Hs)%is_name_spec.
  destruct l as [|d l].
  - simpl. split; [by destruct c|]. split.
    + rewrite <- (sapp_nil_l c). by apply name_not_endswith_sep.
    + by apply name_not_startswith_sep.
  - destruct IH as (Hn & IH & _); [done|].
    change (PyStr.join sep (c :: d :: l)) with (c +:+ String sep (PyStr.join sep (d :: l))).
    split; [by destruct c|]. split.
    + replace (c +:+ String sep (PyStr.join sep (d :: l)))
        with ((c +:+ "/") +:+ PyStr.join sep (d :: l)) by (by rewrite sapp_assoc).
      rewrite endswith_char_app; [done|]. intros E. by rewrite E in Hn.
    + rewrite startswith_char_app by done. by apply name_not_startswith_sep.
Qed.

(** *** Paths made of proper names *)

Lemma rstrip_snoc (c : ascii) (s : string) : rstrip c (s +:+ String c "") = rstrip c s.
Proof.
  induction s as [|a s IH]; [simpl; by rewrite is_char_refl|].
  rewrite sapp_cons. simpl. by rewrite IH.
Qed.

Lemma rstrip_id (c : ascii) (s : string) :
  endswith s (String c "") = false → rstrip c s = s.
Proof.
  induction s as [|a s IH]; [done|]. simpl.
  intros [Ha Hs]%orb_false_iff. apply eqb_false in Ha.
  destruct s as [|b s].
  - simpl. destruct (is_char c a) eqn:E; [|done]. apply is_char_true in E. congruence.
  - rewrite (IH Hs). done.
Qed.

Lemma strip_head_dir (d : string) :
  nonempty d = true → endswith d "/" = false → strip_head (d +:+ "/") = d.
Proof.
  intros Hn He. unfold strip_head.
  assert (all_char sep (d +:+ "/") = false) as ->.
  { apply not_true_is_false. intros H%rstrip_nil_iff.
    rewrite rstrip_snoc, (rstrip_id _ _ He) in H. by rewrite H in Hn. }
  assert (nonempty (d +:+ "/") = true) as -> by (by destruct d).
  simpl. by rewrite rstrip_snoc, rstrip_id.
Qed.

Lemma join_names_nosep (l : list string) :
  Forall (λ c, is_name c = true) l → Forall (λ x, has_char sep x = false) l.
Proof.
  intros H. eapply Forall_impl; [exact H|]. by intros c (_ & _ & _ & ?)%is_name_spec.
Qed.

Lemma cut_join_names (ds : list string) (name : string) :
  Forall (λ c, is_name c = true) ds → is_name name = true →
  cut (PyStr.join sep (ds ++ [name])) =
    (match ds with [] => "" | _ => PyStr.join sep ds +:+ "/" end, name).
Proof.
  intros Hds (_ & _ & _ & Hn)%is_name_spec.
  destruct ds as [|d ds]; [by apply cut_nosep|].
  rewrite join_app_one by done. by apply cut_app.
Qed.

Lemma basename_join_names (ds : list string) (name : string) :
  Forall (λ c, is_name c = true) ds → is_name name = true →
  basename (PyStr.join sep (ds ++ [name])) = name.
Proof. intros. unfold basename. by rewrite cut_join_names. Qed.

Lemma dirname_join_names (ds : list string) (name : string) :
  Forall (λ c, is_name c = true) ds → is_name name = true →
  dirname (PyStr.join sep (ds ++ [name])) = PyStr.join sep ds.
Proof.
  intros Hds Hn. unfold dirname. rewrite cut_join_names by done.
  destruct ds as [|d ds]; [done|]. simpl fst.
  destruct (join_names_shape (d :: ds)) as (? & ? & _); [done..|].
  by apply strip_head_dir.
Qed.

Lemma basename_path_of (ds : list string) (name : string) :
  Forall (λ c, is_name c = true) ds → is_name name = true →
  basename (path_of (ds ++ [name])) = name.
Proof.
  intros Hds (_ & _ & _ & Hn)%is_name_spec. unfold path_of, basename.
  destruct ds as [|d ds].
  - change ("/" +:+ PyStr.join sep ([] ++ [name])) with ("" +:+ String sep name).
    by rewrite cut_app.
  - rewrite join_app_one by done. rewrite <- sapp_assoc. by rewrite cut_app.
Qed.

Lemma join_names (acc : string) (p : list string) :
  Forall (λ c, is_name c = true) p →
  nonempty acc = true → endswith acc "/" = false →
  join acc p = PyStr.join sep (acc :: p).
Proof.
  unfold join. intros Hp. revert acc.
  induction Hp as [|b p Hb Hp IH]; intros acc Hn He; [done|].
  simpl fold_left. unfold join2 at 2.
  rewrite (name_not_startswith_sep _ Hb), Hn, He. simpl negb. simpl orb. cbv iota.
  rewrite IH.
  - destruct p as [|b' p]; [done|].
    change (PyStr.join sep (acc :: b :: b' :: p))
      with (acc +:+ String sep (b +:+ String sep (PyStr.join sep (b' :: p)))).
    change (PyStr.join sep ((acc +:+ "/" +:+ b) :: b' :: p))
      with ((acc +:+ "/" +:+ b) +:+ String sep (PyStr.join sep (b' :: p))).
    by rewrite !sapp_assoc.
  - by destruct acc.
  - rewrite <- sapp_assoc. by apply name_not_endswith_sep.
Qed.

(** *** [normpath] and [relpath] on normalized absolute paths *)

Lemma split_path_of (cs : list string) :
  Forall (λ c, is_name c = true) cs →
  PyStr.split sep (path_of cs) = "" :: match cs with [] => [""] | _ => cs end.
Proof.
  intros Hcs. unfold path_of.
  change ("/" +:+ PyStr.join sep cs) with ("" +:+ String sep (PyStr.join sep cs)).
  rewrite split_app_sep. simpl. f_equal.
  destruct cs as [|c cs]; [done|].
  apply split_join; [|done]. by apply join_names_nosep.
Qed.

Lemma normpath_step_name (k : nat) (acc : list string) (c : string) :
  is_name c = true → normpath_step k acc c = acc ++ [c].
Proof.
  intros (H1 & H2 & H3 & _)%is_name_spec. unfold normpath_step.
  apply eqb_false in H1, H2, H3. by rewrite H1, H2, H3.
Qed.

Lemma normpath_fold_names (k : nat) (cs acc : list string) :
  Forall (λ c, is_name c = true) cs →
  fold_left (normpath_step k) cs acc = acc ++ cs.
Proof.
  intros Hcs. revert acc. induction Hcs as [|c cs Hc _ IH]; intros acc.
  - by rewrite List.app_nil_r.
  - simpl. rewrite normpath_step_name, IH by done. by rewrite <- List.app_assoc.
Qed.

Lemma initial_slashes_path_of (cs : list string) :
  Forall (λ c, is_name c = true) cs → initial_slashes (path_of cs) = 1.
Proof.
  intros Hcs. unfold initial_slashes, path_of.
  destruct cs as [|c cs]; [done|].
  destruct (join_names_shape (c :: cs)) as (Hn & _ & Hs); [done..|].
  destruct (PyStr.join sep (c :: cs)) as [|a j]; [done|].
  simpl in Hs |- *. rewrite startswith_nil, andb_true_r in Hs. by rewrite Hs.
Qed.

Lemma normpath_path_of (cs : list string) :
  Forall (λ c, is_name c = true) cs → normpath (path_of cs) = path_of cs.
Proof.
  intros Hcs. unfold normpath.
  rewrite initial_slashes_path_of, split_path_of by done.
  change (nonempty (path_of cs)) with true. simpl negb. cbv iota.
  assert (fold_left (normpath_step 1) ("" :: match cs with [] => [""] | _ => cs end) [] = cs)
    as ->.
  { destruct cs as [|c cs]; [done|].
    change (fold_left (normpath_step 1) ("" :: c :: cs) [])
      with (fold_left (normpath_step 1) (c :: cs) []).
    by rewrite normpath_fold_names. }
  done.
Qed.

Lemma nonempty_comps_path_of (cs : list string) :
  Forall (λ c, is_name c = true) cs → nonempty_comps (path_of cs) = cs.
Proof.
  intros Hcs. unfold nonempty_comps. rewrite split_path_of by done.
  rewrite filter_cons_False by done.
  destruct cs as [|c cs]; [done|].
  induction Hcs as [|x l Hx _ IH]; [done|].
  apply is_name_spec in Hx as (Hx & _).
  rewrite filter_cons_True by (by destruct x). by rewrite IH.
Qed.

Lemma common_app (ws rs : list string) : common ws (ws ++ rs) = length ws.
Proof. induction ws as [|w ws IH]; [done|]. simpl. by rewrite eqb_refl, IH. Qed.

Lemma isabs_path_of (cs : list string) : isabs (path_of cs) = true.
Proof. unfold isabs, path_of. simpl. by rewrite startswith_nil. Qed.

Lemma abspath_path_of (cwd cs : list string) :
  Forall (λ c, is_name c = true) cs → abspath cwd (path_of cs) = path_of cs.
Proof.
  intros Hcs. unfold abspath. rewrite isabs_path_of. by apply normpath_path_of.
Qed.

(** A path below the start directory is its own tail. *)
Lemma relpath_under (cwd ws rs : list string) :
  Forall (λ c, is_name c = true) ws → Forall (λ c, is_name c = true) rs → rs ≠ [] →
  relpath cwd (path_of (ws ++ rs)) (path_of ws) = Some (PyStr.join sep rs).
Proof.
  intros Hws Hrs Hne. unfold relpath.
  change (nonempty (path_of (ws ++ rs))) with true. simpl negb. cbv iota.
  rewrite !abspath_path_of, !nonempty_comps_path_of by (by try apply Forall_app).
  rewrite common_app, Nat.sub_diag, drop_app_length. simpl.
  destruct Hrs as [|r rs Hr Hrs]; [done|]. f_equal.
  apply is_name_spec in Hr as Hr'. destruct Hr' as (? & _ & _ & ?).
  apply join_names; [done|by destruct r|].
  rewrite <- (sapp_nil_l r). by apply nosep_not_endswith_sep.
Qed.

Lemma txt_basename_is_name (p : string) :
  endswith p ".txt" = true → is_name (basename p) = true.
Proof.
  intros H%basename_endswith_txt. apply is_name_spec.
  unfold basename in *. destruct (cut p) as [h t] eqn:E.
  apply cut_spec in E as (_ & Hno & _). simpl in *.
  apply endswith_spec in H as [a ->].
  repeat split; [| | |done]; intros E; apply (f_equal String.length) in E;
    rewrite slength_app in E; simpl in E; lia.
Qed.

Lemma relpath_some (cwd : list string) (path start : string) :
  nonempty path = true → ∃ rel, relpath cwd path start = Some rel.
Proof.
  intros Hn. unfold relpath. rewrite Hn. simpl negb. cbv iota zeta.
  destruct (repeat pardir _ ++ drop _ _); by eexists.
Qed.

Lemma relpath_none (cwd : list string) (path start : string) :
  relpath cwd path start = None → path = "".
Proof.
  destruct path as [|a path]; [done|].
  destruct (relpath_some cwd (String a path) start) as [rel ->]; done.
Qed.

End PosixPathFacts.

(** ** The file system *)

Module FSFacts.
Import PyStr PyStrFacts PosixPath PosixPathFacts FS.

Lemma removelast_snoc (l : list string) (c : string) : removelast (l ++ [c]) = l.
Proof. by rewrite removelast_last. Qed.

Lemma snoc_nonnil (l : list string) (c : string) : l ++ [c] ≠ [].
Proof. by destruct l. Qed.

Lemma node_at_snoc (fs : gmap (list string) node) (l : list string) (c : string) :
  node_at fs (l ++ [c]) = fs !! (l ++ [c]).
Proof. unfold node_at. pose proof (snoc_nonnil l c). by destruct (l ++ [c]). Qed.

Lemma is_dir_at_lookup (fs : gmap (list string) node) (l : list string) :
  is_dir_at fs l = true ↔ l = [] ∨ fs !! l = Some Dir.
Proof.
  unfold is_dir_at, node_at. destruct l as [|c l]; [by split; [left|]|].
  destruct (fs !! (c :: l)) as [[]|]; intuition congruence.
Qed.

Lemma is_dir_parent (fs : gmap (list string) node) (l : list string) :
  wf fs → is_dir_at fs l = true → is_dir_at fs (removelast l) = true.
Proof.
  intros Hwf [->|H]%is_dir_at_lookup; [done|]. by eapply Hwf.
Qed.

(** Well-formedness of a given tree is a computation. *)
Lemma wf_check (fs : gmap (list string) node) :
  bool_decide (map_Forall (λ l _, is_dir_at fs (removelast l) = true) fs) = true → wf fs.
Proof. intros H%bool_decide_eq_true. exact H. Qed.

(** *** Growing trees *)

Lemma grows_refl (fs : gmap (list string) node) : grows fs fs.
Proof. intros l. by left. Qed.

Lemma grows_trans (fs1 fs2 fs3 : gmap (list string) node) :
  grows fs1 fs2 → grows fs2 fs3 → grows fs1 fs3.
Proof.
  intros H12 H23 l. destruct (H12 l) as [E1|[E1 E1']], (H23 l) as [E2|[E2 E2']].
  - left. congruence.
  - right. split; congruence.
  - right. split; congruence.
  - congruence.
Qed.

Lemma grows_insert_dir (fs : gmap (list string) node) (l : list string) :
  fs !! l = None → grows fs (<[l := Dir]> fs).
Proof.
  intros Hl k. destruct (decide (l = k)) as [<-|Hne].
  - right. by rewrite lookup_insert_eq.
  - left. by rewrite lookup_insert_ne.
Qed.

Lemma grows_lookup (fs fs' : gmap (list string) node) (l : list string) (n : node) :
  grows fs fs' → fs !! l = Some n → fs' !! l = Some n.
Proof. intros Hg Hl. destruct (Hg l) as [E|[E _]]; congruence. Qed.

Lemma grows_file (fs fs' : gmap (list string) node) (l : list string) (data : string) :
  grows fs fs' → fs' !! l = Some (File data) ↔ fs !! l = Some (File data).
Proof. intros Hg. destruct (Hg l) as [E|[E E']]; rewrite ?E, ?E'; intuition congruence. Qed.

Lemma grows_node_at (fs fs' : gmap (list string) node) (l : list string) (n : node) :
  grows fs fs' → node_at fs l = Some n → node_at fs' l = Some n.
Proof. unfold node_at. destruct l; [done|]. apply grows_lookup. Qed.

Lemma grows_is_dir_at (fs fs' : gmap (list string) node) (l : list string) :
  grows fs fs' → is_dir_at fs l = true → is_dir_at fs' l = true.
Proof.
  intros Hg. rewrite !is_dir_at_lookup. intros [->|H]; [by left|right].
  by eapply grows_lookup.
Qed.

Lemma wf_insert_dir (fs : gmap (list string) node) (cur : list string) (c : string) :
  wf fs → is_dir_at fs cur = true → fs !! (cur ++ [c]) = None →
  wf (<[cur ++ [c] := Dir]> fs).
Proof.
  intros Hwf Hd Hnone l n Hl.
  apply (grows_is_dir_at fs); [by apply grows_insert_dir|].
  destruct (decide (cur ++ [c] = l)) as [<-|Hne].
  - by rewrite removelast_snoc.
  - rewrite lookup_insert_ne in Hl by done. by eapply Hwf.
Qed.

(** *** Name resolution *)

Lemma walk_app (fs : gmap (list string) node) (cs1 cs2 cur : list string) :
  walk fs cur (cs1 ++ cs2) =
    match walk fs cur cs1 with
    | Some l => walk fs l cs2
    | None => None
    end.
Proof.
  revert cur. induction cs1 as [|c cs1 IH]; intros cur; [done|]. simpl.
  destruct (is_dir_at fs cur); [|done].
  destruct (is_dot c); [apply IH|]. destruct (eqb c ".."); apply IH.
Qed.

Lemma walk_grows (fs fs' : gmap (list string) node) (cs cur l : list string) :
  grows fs fs' → walk fs cur cs = Some l → walk fs' cur cs = Some l.
Proof.
  intros Hg. revert cur. induction cs as [|c cs IH]; intros cur; [done|]. simpl.
  destruct (is_dir_at fs cur) eqn:Hd; [|done].
  rewrite (grows_is_dir_at _ _ _ Hg Hd).
  destruct (is_dot c); [apply IH|]. destruct (eqb c ".."); apply IH.
Qed.

Lemma walk_same_dirs (fs fs' : gmap (list string) node) (cs cur : list string) :
  (∀ l, is_dir_at fs' l = is_dir_at fs l) → walk fs' cur cs = walk fs cur cs.
Proof.
  intros Hd. revert cur. induction cs as [|c cs IH]; intros cur; [done|]. simpl.
  rewrite Hd. destruct (is_dir_at fs cur); [|done].
  destruct (is_dot c); [apply IH|]. destruct (eqb c ".."); apply IH.
Qed.

Lemma walk_empties (fs : gmap (list string) node) (n : nat) (cur cs : list string) :
  is_dir_at fs cur = true → walk fs cur (repeat "" n ++ cs) = walk fs cur cs.
Proof. intros Hd. induction n as [|n IH]; [done|]. simpl. by rewrite Hd. Qed.

Lemma walk_name (fs : gmap (list string) node) (cur : list string) (t : string) :
  is_dir_at fs cur = true → is_name t = true → walk fs cur [t] = Some (cur ++ [t]).
Proof.
  intros Hd (H1 & H2 & H3 & _)%is_name_spec. simpl. rewrite Hd.
  apply eqb_false in H1, H2, H3. unfold is_dot. by rewrite H1, H2, H3.
Qed.

(** *** [makedirs] *)

Lemma mkchain_spec (cs : list string) :
  ∀ (fs : gmap (list string) node) (cur : list string),
    wf fs → is_dir_at fs cur = true →
    match mkchain fs cur cs with
    | Done fs' =>
        grows fs fs' ∧ wf fs' ∧ ∃ l, walk fs' cur cs = Some l ∧ is_dir_at fs' l = true
    | Fail _ fs' => grows fs fs' ∧ wf fs'
    end.
Proof.
  induction cs as [|c cs IH]; intros fs cur Hwf Hd.
  - simpl. split; [apply grows_refl|]. split; [done|]. by exists cur.
  - simpl. destruct (is_dot c) eqn:Edot.
    { specialize (IH fs cur Hwf Hd). destruct (mkchain fs cur cs); [|done].
      destruct IH as (Hg & Hwf' & l & Hw & Hl). split; [done|]. split; [done|].
      exists l. by rewrite (grows_is_dir_at _ _ _ Hg Hd). }
    destruct (eqb c "..") eqn:Eup.
    { specialize (IH fs (removelast cur) Hwf (is_dir_parent _ _ Hwf Hd)).
      destruct (mkchain fs (removelast cur) cs); [|done].
      destruct IH as (Hg & Hwf' & l & Hw & Hl). split; [done|]. split; [done|].
      exists l. by rewrite (grows_is_dir_at _ _ _ Hg Hd). }
    rewrite node_at_snoc. destruct (fs !! (cur ++ [c])) as [[data|]|] eqn:En.
    + split; [apply grows_refl|done].
    + assert (is_dir_at fs (cur ++ [c]) = true) as Hd'.
      { apply is_dir_at_lookup. by right. }
      specialize (IH fs (cur ++ [c]) Hwf Hd').
      destruct (mkchain fs (cur ++ [c]) cs); [|done].
      destruct IH as (Hg & Hwf' & l & Hw & Hl). split; [done|]. split; [done|].
      exists l. by rewrite (grows_is_dir_at _ _ _ Hg Hd).
    + pose proof (grows_insert_dir fs _ En) as Hg1.
      assert (is_dir_at (<[cur ++ [c] := Dir]> fs) (cur ++ [c]) = true) as Hd'.
      { apply is_dir_at_lookup. right. by rewrite lookup_insert_eq. }
      specialize (IH _ (cur ++ [c]) (wf_insert_dir _ _ _ Hwf Hd En) Hd').
      destruct (mkchain (<[cur ++ [c] := Dir]> fs) (cur ++ [c]) cs).
      * destruct IH as (Hg & Hwf' & l & Hw & Hl).
        split; [by eapply grows_trans|]. split; [done|]. exists l.
        rewrite (grows_is_dir_at fs); [done|by eapply grows_trans|done].
      * destruct IH as (Hg & Hwf'). split; [by eapply grows_trans|done].
Qed.

(** *** Trees with the same directories *)

Lemma same_dirs_insert_file (fs : gmap (list string) node) (l : list string) (data : string) :
  node_at fs l ≠ Some Dir →
  ∀ k, is_dir_at (<[l := File data]> fs) k = is_dir_at fs k.
Proof.
  intros Hl k. unfold is_dir_at. destruct k as [|c k]; [done|].
  destruct (decide (l = c :: k)) as [->|Hne].
  - simpl in *. rewrite lookup_insert_eq. by destruct (fs !! (c :: k)) as [[]|].
  - simpl. by rewrite lookup_insert_ne.
Qed.

Lemma same_dirs_delete_file (fs : gmap (list string) node) (l : list string) (data : string) :
  fs !! l = Some (File data) →
  ∀ k, is_dir_at (delete l fs) k = is_dir_at fs k.
Proof.
  intros Hl k. unfold is_dir_at. destruct k as [|c k]; [done|].
  destruct (decide (l = c :: k)) as [->|Hne].
  - simpl. by rewrite lookup_delete_eq, Hl.
  - simpl. by rewrite lookup_delete_ne.
Qed.

Lemma same_dirs_rename_file (fs : gmap (list string) node) (l l' : list string)
    (data : string) :
  fs !! l = Some (File data) → node_at fs l' ≠ Some Dir →
  ∀ k, is_dir_at (<[l' := File data]> (delete l fs)) k = is_dir_at fs k.
Proof.
  intros Hl Hl' k. rewrite same_dirs_insert_file.
  - by eapply same_dirs_delete_file.
  - unfold node_at in *. destruct l' as [|c l']; [done|].
    destruct (decide (l = c :: l')) as [->|Hne].
    + by rewrite lookup_delete_eq.
    + by rewrite lookup_delete_ne.
Qed.

(** *** Pruning *)

Lemma prune_below (fs : gmap (list string) node) (l k : list string) :
  below l k → prune l fs !! k = None.
Proof.
  intros Hb. unfold prune. apply map_lookup_filter_None. right. intros n _ Hn. by apply Hn.
Qed.

Lemma prune_other (fs : gmap (list string) node) (l k : list string) :
  ¬ below l k → prune l fs !! k = fs !! k.
Proof.
  intros Hb. unfold prune. destruct (fs !! k) as [n|] eqn:E.
  - by apply map_lookup_filter_Some.
  - apply map_lookup_filter_None. by left.
Qed.

Lemma split_replicate (n : nat) (t : string) :
  PyStr.split sep (replicate n sep +:+ t) = repeat "" n ++ PyStr.split sep t.
Proof.
  induction n as [|n IH]; [done|].
  simpl replicate. rewrite sapp_cons. simpl. by rewrite IH.
Qed.

Lemma split_dir_tail (d t : string) (n : nat) :
  PyStr.split sep ((d +:+ replicate (S n) sep) +:+ t) =
    PyStr.split sep d ++ repeat "" n ++ PyStr.split sep t.
Proof.
  simpl replicate. rewrite sapp_assoc, sapp_cons, split_app_sep. by rewrite split_replicate.
Qed.

Lemma mkchain_grows (cs : list string) :
  ∀ (fs : gmap (list string) node) (cur : list string),
    grows fs (tree_of (mkchain fs cur cs)).
Proof.
  induction cs as [|c cs IH]; intros fs cur; [apply grows_refl|].
  simpl. destruct (is_dot c); [apply IH|]. destruct (eqb c ".."); [apply IH|].
  rewrite node_at_snoc. destruct (fs !! (cur ++ [c])) as [[data|]|] eqn:En.
  - apply grows_refl.
  - apply IH.
  - eapply grows_trans; [by apply grows_insert_dir|apply IH].
Qed.

Section WithCwd.
Variable cwd : list string.

Lemma makedirs_grows (name : string) (fs : gmap (list string) node) :
  grows fs (tree_of (makedirs cwd name fs)).
Proof.
  unfold makedirs. destruct (nonempty name); [|apply grows_refl].
  destruct (is_dir_at fs _); [apply mkchain_grows|apply grows_refl].
Qed.

Lemma resolve_same_dirs (fs fs' : gmap (list string) node) (p : string) :
  (∀ l, is_dir_at fs' l = is_dir_at fs l) → resolve cwd fs' p = resolve cwd fs p.
Proof.
  intros Hd. unfold resolve. destruct (nonempty p); [|done]. by apply walk_same_dirs.
Qed.

Lemma resolve_grows (fs fs' : gmap (list string) node) (p : string) (l : list string) :
  grows fs fs' → resolve cwd fs p = Some l → resolve cwd fs' p = Some l.
Proof.
  intros Hg. unfold resolve. destruct (nonempty p); [|done]. by apply walk_grows.
Qed.

Lemma read_spec (fs : gmap (list string) node) (p data : string) :
  read cwd fs p = Some data ↔
  ∃ l, resolve cwd fs p = Some l ∧ l ≠ [] ∧ fs !! l = Some (File data).
Proof.
  unfold read. split.
  - destruct (resolve cwd fs p) as [l|]; [|done].
    destruct l as [|c l]; [done|]. simpl.
    destruct (fs !! (c :: l)) as [[d|]|] eqn:E; [|done..].
    intros [= ->]. by exists (c :: l).
  - intros (l & -> & Hne & Hl). destruct l as [|c l]; [done|]. simpl. by rewrite Hl.
Qed.

Lemma read_exists (fs : gmap (list string) node) (p data : string) :
  read cwd fs p = Some data → exists_ cwd fs p = true.
Proof.
  intros (l & Hr & Hne & Hl)%read_spec. unfold exists_. rewrite Hr.
  destruct l as [|c l]; [done|]. simpl. rewrite Hl. by apply bool_decide_eq_true.
Qed.

Lemma read_not_dir (fs : gmap (list string) node) (p data : string) :
  read cwd fs p = Some data → isdir cwd fs p = false.
Proof.
  intros (l & Hr & Hne & Hl)%read_spec. unfold isdir, is_dir_at. rewrite Hr.
  destruct l as [|c l]; [done|]. simpl. by rewrite Hl.
Qed.

Lemma read_grows (fs fs' : gmap (list string) node) (p data : string) :
  grows fs fs' → read cwd fs p = Some data → read cwd fs' p = Some data.
Proof.
  intros Hg (l & Hr & Hne & Hl)%read_spec. apply read_spec. exists l.
  split; [by eapply resolve_grows|]. split; [done|]. by eapply grows_lookup.
Qed.

Lemma isdir_same_dirs (fs fs' : gmap (list string) node) (p : string) :
  (∀ l, is_dir_at fs' l = is_dir_at fs l) → isdir cwd fs' p = isdir cwd fs p.
Proof.
  intros Hd. unfold isdir. rewrite (resolve_same_dirs fs fs' p Hd).
  by destruct (resolve cwd fs p).
Qed.

Lemma isdir_exists (fs : gmap (list string) node) (p : string) :
  isdir cwd fs p = true → exists_ cwd fs p = true.
Proof.
  unfold isdir, exists_, is_dir_at. destruct (resolve cwd fs p) as [l|]; [|done].
  destruct (node_at fs l) as [[]|]; [done| |done]. intros _. by apply bool_decide_eq_true.
Qed.

Lemma last_name_join (archive : string) (ds : list string) :
  Forall (λ c, is_name c = true) ds → ds ≠ [] →
  ∃ d, is_name d = true
       ∧ last_name (PosixPath.join archive [PyStr.join sep ds]) = Some d.
Proof.
  intros Hds Hne.
  destruct (join_names_shape ds Hds Hne) as (Hn & _ & Hs).
  assert (∃ pre, PyStr.split sep (PosixPath.join archive [PyStr.join sep ds]) = pre ++ ds)
    as [pre Hsplit].
  { unfold PosixPath.join. simpl. unfold join2. rewrite Hs.
    pose proof (split_join sep ds (join_names_nosep ds Hds) Hne) as Hj.
    destruct (negb (nonempty archive) || endswith archive "/") eqn:E.
    - destruct (nonempty archive) eqn:Hna; [|destruct archive; [by exists []|done]].
      apply endswith_spec in E as [pre E]. rewrite E.
      exists (PyStr.split sep pre). by rewrite sapp_assoc, sapp_cons, sapp_nil_l, split_app_sep, Hj.
    - exists (PyStr.split sep archive).
      change (archive +:+ "/" +:+ PyStr.join sep ds)
        with (archive +:+ String sep ("" +:+ PyStr.join sep ds)).
      by rewrite sapp_nil_l, split_app_sep, Hj. }
  unfold last_name. rewrite Hsplit, filter_app, last_app.
  assert (filter (λ x, nonempty x = true) ds = ds) as ->.
  { clear -Hds. induction Hds as [|d ds Hd _ IH]; [done|].
    apply is_name_spec in Hd as (Hd & _).
    rewrite filter_cons_True by (by destruct d). by rewrite IH. }
  destruct (last ds) as [d|] eqn:El.
  - exists d. split; [|done]. rewrite Forall_forall in Hds. apply Hds.
    apply last_Some in El as [l' ->]. apply elem_of_app. right. apply list_elem_of_here.
  - by apply last_None in El.
Qed.

Lemma rmtree_done (fs : gmap (list string) node) (p : string) (l : list string) :
  resolve cwd fs p = Some l → is_dir_at fs l = true →
  (∃ d, is_name d = true ∧ last_name p = Some d) →
  rmtree cwd p fs = Done (prune l fs).
Proof.
  intros Hr Hd (d & (_ & H1 & H2 & _)%is_name_spec & Hl). unfold rmtree, is_dir_at in *.
  rewrite Hr, Hl. destruct (node_at fs l) as [[]|]; [done| |done].
  apply eqb_false in H1, H2. by rewrite H1, H2.
Qed.

Lemma isdir_false_node (fs : gmap (list string) node) (p : string) (l : list string) :
  resolve cwd fs p = Some l → isdir cwd fs p = false → node_at fs l ≠ Some Dir.
Proof.
  unfold isdir, is_dir_at. intros ->. by destruct (node_at fs l) as [[]|].
Qed.

Lemma write_done (fs : gmap (list string) node) (p data : string) (l : list string) :
  resolve cwd fs p = Some l → node_at fs l ≠ Some Dir → utf8 data = true →
  write cwd p data fs = Done (<[l := File data]> fs).
Proof.
  unfold write. intros -> Hn ->. rewrite insert_insert_eq.
  by destruct (node_at fs l) as [[]|].
Qed.

(** A text the encoder refuses leaves the file empty. *)
Lemma write_refused (fs : gmap (list string) node) (p data : string) (l : list string) :
  resolve cwd fs p = Some l → node_at fs l ≠ Some Dir → utf8 data = false →
  write cwd p data fs = Fail UnicodeEncodeError (<[l := File ""]> fs).
Proof. unfold write. intros -> Hn ->. by destruct (node_at fs l) as [[]|]. Qed.

Lemma read_written (fs : gmap (list string) node) (p data : string) (l : list string) :
  resolve cwd fs p = Some l → node_at fs l ≠ Some Dir →
  read cwd (<[l := File data]> fs) p = Some data.
Proof.
  intros Hr Hn. apply read_spec. exists l.
  split; [|split].
  - rewrite <- Hr. apply resolve_same_dirs. by apply same_dirs_insert_file.
  - by intros ->.
  - by rewrite lookup_insert_eq.
Qed.

Lemma write_cases (fs : gmap (list string) node) (p data : string) :
  (∃ l, resolve cwd fs p = Some l ∧ node_at fs l ≠ Some Dir ∧ utf8 data = true
        ∧ write cwd p data fs = Done (<[l := File data]> fs))
  ∨ (∃ l, resolve cwd fs p = Some l ∧ node_at fs l ≠ Some Dir ∧ utf8 data = false
          ∧ write cwd p data fs = Fail UnicodeEncodeError (<[l := File ""]> fs))
  ∨ (∃ e, write cwd p data fs = Fail e fs).
Proof.
  destruct (resolve cwd fs p) as [l|] eqn:Hl;
    [|right; right; unfold write; rewrite Hl; by eexists].
  destruct (decide (node_at fs l = Some Dir)) as [E|E].
  { right; right. unfold write. rewrite Hl, E. by eexists. }
  destruct (utf8 data) eqn:Hu.
  - left. exists l. by rewrite (write_done fs p data l).
  - right; left. exists l. by rewrite (write_refused fs p data l).
Qed.

Lemma remove_done (fs : gmap (list string) node) (p data : string) (l : list string) :
  resolve cwd fs p = Some l → l ≠ [] → fs !! l = Some (File data) →
  remove cwd p fs = Done (delete l fs).
Proof.
  unfold remove. intros -> Hne Hl. destruct l as [|c l]; [done|]. simpl. by rewrite Hl.
Qed.

(** A path whose directory exists resolves to a child of that directory. *)
Lemma resolve_cut (fs : gmap (list string) node) (p : string) :
  is_name (basename p) = true → isdir cwd fs (dirname p) = true →
  ∃ l, resolve cwd fs (dirname p) = Some l ∧ is_dir_at fs l = true
       ∧ resolve cwd fs p = Some (l ++ [basename p]).
Proof.
  unfold basename, dirname. destruct (cut p) as [h t] eqn:E.
  apply cut_spec in E as (-> & Hno & Hh). simpl. intros Ht Hdir.
  destruct Hh as [->|[h' ->]]; [done|].
  destruct (rstrip_spec sep (h' +:+ "/")) as (n & Hs & He).
  rewrite rstrip_snoc in Hs, He.
  unfold strip_head in *. rewrite rstrip_snoc in *.
  assert (nonempty (h' +:+ "/") = true) as Hn by (by destruct h').
  rewrite Hn in *. simpl andb in *.
  assert (nonempty ((h' +:+ "/") +:+ t) = true) as Hnp by (by destruct h').
  remember (rstrip _ h') as d eqn:Ed.
  destruct (all_char sep (h' +:+ "/")) eqn:Eall.
  - simpl in *. apply all_char_spec in Eall.
    destruct (String.length (h' +:+ "/")) as [|m] eqn:Elen; [by rewrite Eall in Hn|].
    rewrite Eall in *. clear Eall Hs He.
    exists []. unfold resolve in *. rewrite Hnp.
    change (nonempty (replicate (S m) sep)) with true.
    replace (replicate (S m) sep) with (replicate (S m) sep +:+ "") at 2
      by apply sapp_nil_r.
    rewrite !split_replicate.
    assert (isabs (replicate (S m) sep +:+ t) = true) as ->.
    { unfold isabs. simpl. by rewrite startswith_nil. }
    assert (isabs (replicate (S m) sep) = true) as ->.
    { unfold isabs. simpl. by rewrite startswith_nil. }
    rewrite !walk_empties by done. split; [done|]. split; [done|].
    rewrite split_nosep by done. by apply walk_name.
  - simpl in *.
    assert (d ≠ "") as Hd.
    { intros Hd. rewrite Hd in Ed. symmetry in Ed. apply rstrip_nil_iff in Ed.
      rename Ed into Hd'. clear Hd. rename Hd' into Hd.
      assert (all_char sep (h' +:+ "/") = true); [|congruence].
      clear -Hd. induction h' as [|a h' IH]; [done|]. rewrite sapp_cons. simpl in *.
      apply andb_true_iff in Hd as [-> Hd]. by apply IH. }
    destruct n as [|m].
    { exfalso. simpl in Hs. rewrite sapp_nil_r in Hs. rewrite <- Hs in He.
      by rewrite endswith_app in He. }
    rewrite Hs. unfold isdir, resolve in *.
    assert (nonempty d = true) as Hnd by (by destruct d).
    assert (nonempty ((d +:+ replicate (S m) sep) +:+ t) = true) as -> by (by destruct d).
    assert (isabs ((d +:+ replicate (S m) sep) +:+ t) = isabs d) as ->.
    { unfold isabs. by rewrite sapp_assoc, startswith_char_app. }
    rewrite Hnd in *.
    destruct (walk fs (if isabs d then [] else cwd) (PyStr.split sep d)) as [l|] eqn:Ew;
      [|done].
    exists l. split; [done|]. split; [done|].
    rewrite split_dir_tail, walk_app, Ew, walk_empties by done.
    rewrite split_nosep by done. by apply walk_name.
Qed.

Lemma makedirs_spec (name : string) (fs : gmap (list string) node) :
  wf fs →
  match makedirs cwd name fs with
  | Done fs' => grows fs fs' ∧ wf fs' ∧ isdir cwd fs' name = true
  | Fail _ fs' => grows fs fs' ∧ wf fs'
  end.
Proof.
  intros Hwf. unfold makedirs, isdir, resolve.
  destruct (nonempty name); [|by split; [apply grows_refl|]].
  set (start := if isabs name then [] else cwd).
  destruct (is_dir_at fs start) eqn:Hd; [|by split; [apply grows_refl|]].
  pose proof (mkchain_spec (PyStr.split sep name) fs start Hwf Hd) as H.
  destruct (mkchain fs start (PyStr.split sep name)); [|done].
  destruct H as (Hg & Hwf' & l & -> & Hl). done.
Qed.

End WithCwd.
End FSFacts.

(** ** The handler *)

Module HandlerFacts.
Import PyStr PyStrFacts PosixPath PosixPathFacts FSFacts Handler.

Local Open Scope py_scope.

Local Arguments PosixPath.join : simpl never.
Local Arguments PosixPath.dirname : simpl never.
Local Arguments PosixPath.basename : simpl never.
Local Arguments PosixPath.splitext : simpl never.
Local Arguments PosixPath.relpath : simpl never.
Local Arguments txt_path_of : simpl never.
Local Arguments endswith : simpl never.
Local Arguments makedirs : simpl never.
Local Arguments write : simpl never.
Local Arguments remove : simpl never.
Local Arguments rmtree : simpl never.
Local Arguments move : simpl never.
Local Arguments exists_ : simpl never.
Local Arguments isdir : simpl never.
Local Arguments read : simpl never.
Local Arguments resolve : simpl never.
Local Arguments strftime : simpl never.
Local Arguments sidecar_text : simpl never.

Section WithEnvironment.
Variable cwd : list string.
Variable nfc : string → string.

Lemma emit_emit (l1 l2 : list string) (st : state) :
  emit l2 (emit l1 st) = emit (l1 ++ l2) st.
Proof. unfold emit. simpl. by rewrite <- List.app_assoc. Qed.

Lemma print_emit (line : string) (l : list string) (st : state) :
  print line (emit l st) = Ok tt (emit (l ++ [line]) st).
Proof. unfold print. by rewrite emit_emit. Qed.

(** *** The callbacks, case by case *)

Lemma on_created_directory (now : datetime) (ev : event) (st : state) :
  is_directory ev = true → on_created cwd nfc now ev st = Ok tt st.
Proof. intros H. unfold on_created. by rewrite H. Qed.

Lemma on_created_no_path (now : datetime) (ev : event) (st : state) :
  is_directory ev = false →
  PosixPath.relpath cwd (src_path ev) (watch_dir st) = None →
  on_created cwd nfc now ev st = Raise ValueError st.
Proof.
  intros Hd Hr. unfold on_created, bind, get, relpath. by rewrite Hd, Hr.
Qed.

Lemma on_created_file (now : datetime) (ev : event) (st : state) (rel : string) :
  is_directory ev = false →
  PosixPath.relpath cwd (src_path ev) (watch_dir st) = Some rel →
  let base_name := nfc (basename (src_path ev)) in
  let txt_path := created_txt nfc (archive_dir st) rel (src_path ev) in
  on_created cwd nfc now ev st =
    match makedirs cwd (dirname txt_path) (disk st) with
    | Fail e fs' => Raise e (set_disk fs' st)
    | Done fs1 =>
        if eqb (src_path ev) txt_path then Ok tt (set_disk fs1 st)
        else if endswith base_name ".txt" then
          if bool_decide (src_path ev ∈ system_created_txt_files st)
          then Ok tt (set_disk fs1 st)
          else Ok tt (emit ["Ignored .txt file: " +:+ base_name; border] (set_disk fs1 st))
        else
          match write cwd txt_path (sidecar_text base_name (strftime now)) fs1 with
          | Fail e fs' => Raise e (set_disk fs' st)
          | Done fs2 =>
              Ok tt (emit ["File added: " +:+ base_name;
                           "Corresponding source file also created."; border]
                       (mark txt_path (set_disk fs2 st)))
          end
    end.
Proof.
  intros Hd Hr base_name txt_path.
  unfold on_created, bind, get, relpath, syscall. rewrite Hd, Hr.
  fold base_name. unfold ret.
  change (txt_path_of (archive_dir st) rel (nfc (splitext base_name).1)) with txt_path.
  destruct (makedirs cwd (dirname txt_path) (disk st)) as [fs1|e fs']; [|done].
  destruct (eqb (src_path ev) txt_path); [done|].
  destruct (endswith base_name ".txt").
  - simpl. destruct (bool_decide _); [done|]. by rewrite print_emit.
  - simpl. destruct (write cwd txt_path _ fs1); [|done].
    unfold track. by rewrite emit_emit, print_emit.
Qed.

Lemma on_moved_directory (ev : event) (st : state) :
  is_directory ev = true → on_moved cwd nfc ev st = Ok tt st.
Proof. intros H. unfold on_moved. by rewrite H. Qed.

Lemma on_moved_file (ev : event) (st : state) (old_rel new_rel : string) :
  is_directory ev = false →
  PosixPath.relpath cwd (src_path ev) (watch_dir st) = Some old_rel →
  PosixPath.relpath cwd (dest_path ev) (watch_dir st) = Some new_rel →
  let old_txt_path := moved_txt nfc (archive_dir st) old_rel in
  let new_txt_path := moved_txt nfc (archive_dir st) new_rel in
  on_moved cwd nfc ev st =
    if exists_ cwd (disk st) old_txt_path then
      match makedirs cwd (dirname new_txt_path) (disk st) with
      | Fail e fs' => Raise e (set_disk fs' st)
      | Done fs1 =>
          match move cwd old_txt_path new_txt_path fs1 with
          | Fail e fs' => Raise e (set_disk fs' st)
          | Done fs2 => Ok tt (set_disk fs2 st)
          end
      end
    else Ok tt st.
Proof.
  intros Hd Ho Hn old_txt_path new_txt_path.
  unfold on_moved, bind, get, relpath, syscall, path_exists. rewrite Hd, Ho. simpl.
  rewrite Hn. simpl.
  change (txt_path_of (archive_dir st) old_rel (nfc (splitext (basename old_rel)).1))
    with old_txt_path.
  change (txt_path_of (archive_dir st) new_rel (nfc (splitext (basename new_rel)).1))
    with new_txt_path.
  destruct (exists_ cwd (disk st) old_txt_path); [|done].
  destruct (makedirs cwd (dirname new_txt_path) (disk st)) as [fs1|e fs']; [|done].
  simpl. by destruct (move cwd old_txt_path new_txt_path fs1).
Qed.

Lemma on_moved_raises (ev : event) (st : state) :
  is_directory ev = false →
  PosixPath.relpath cwd (src_path ev) (watch_dir st) = None
  ∨ PosixPath.relpath cwd (dest_path ev) (watch_dir st) = None →
  on_moved cwd nfc ev st = Raise ValueError st.
Proof.
  intros Hd H. unfold on_moved, bind, get, relpath. rewrite Hd.
  destruct (PosixPath.relpath cwd (src_path ev) (watch_dir st)); [|done].
  destruct H as [H|H]; [done|]. simpl. by rewrite H.
Qed.

Lemma on_deleted_no_path (ev : event) (st : state) :
  PosixPath.relpath cwd (src_path ev) (watch_dir st) = None →
  on_deleted cwd nfc ev st = Raise ValueError st.
Proof.
  intros H. unfold on_deleted, bind, get, relpath. rewrite H. by destruct (is_directory ev).
Qed.

Lemma on_deleted_directory (ev : event) (st : state) (rel : string) :
  is_directory ev = true →
  PosixPath.relpath cwd (src_path ev) (watch_dir st) = Some rel →
  let archive_dir_path := PosixPath.join (archive_dir st) [rel] in
  on_deleted cwd nfc ev st =
    if exists_ cwd (disk st) archive_dir_path then
      match rmtree cwd archive_dir_path (disk st) with
      | Fail e fs' => Raise e (set_disk fs' st)
      | Done fs' =>
          Ok tt (emit ["Directory deleted: " +:+ rel;
                       "Corresponding source files also deleted."; border]
                   (set_disk fs' st))
      end
    else Ok tt st.
Proof.
  intros Hd Hr archive_dir_path.
  unfold on_deleted, bind, get, relpath, syscall, path_exists. rewrite Hd, Hr. simpl.
  fold archive_dir_path.
  destruct (exists_ cwd (disk st) archive_dir_path); [|done].
  destruct (rmtree cwd archive_dir_path (disk st)); [|done].
  by rewrite !print_emit, !emit_emit.
Qed.

Lemma on_deleted_file (ev : event) (st : state) (rel : string) :
  is_directory ev = false →
  PosixPath.relpath cwd (src_path ev) (watch_dir st) = Some rel →
  let base_name := nfc (basename rel) in
  on_deleted cwd nfc ev st =
    match drop_sidecar cwd (deleted_txt nfc (archive_dir st) rel) base_name st with
    | Raise e st1 => Raise e st1
    | Ok _ st1 =>
        if endswith base_name ".txt"
        then probe cwd (watch_dir st) rel base_name (fst (splitext base_name))
               possible_extensions st1
        else Ok tt st1
    end.
Proof.
  intros Hd Hr base_name.
  unfold on_deleted, bind, get, relpath, syscall, path_exists, drop_sidecar.
  rewrite Hd, Hr. simpl. fold base_name.
  change (txt_path_of (archive_dir st) rel (nfc (splitext base_name).1))
    with (deleted_txt nfc (archive_dir st) rel).
  destruct (exists_ cwd (disk st) (deleted_txt nfc (archive_dir st) rel)).
  - destruct (remove cwd _ (disk st)); [|done].
    rewrite !print_emit, !emit_emit. simpl.
    by destruct (endswith base_name ".txt").
  - simpl. by destruct (endswith base_name ".txt").
Qed.

(** *** The probe *)

Lemma probe_none (watch rel base_name stem : string) (exts : list string) (st : state) :
  (∀ ext, ext ∈ exts → exists_ cwd (disk st) (candidate watch rel stem ext) = false) →
  probe cwd watch rel base_name stem exts st = Ok tt st.
Proof.
  induction exts as [|ext exts IH]; intros H; [done|].
  simpl. unfold bind at 1, path_exists, get. fold (candidate watch rel stem ext).
  rewrite (H ext) by apply list_elem_of_here.
  apply IH. intros e He. apply H. by apply list_elem_of_further.
Qed.

Lemma probe_first (watch rel base_name stem : string)
    (pre : list string) (ext : string) (post : list string) (st : state) :
  (∀ e, e ∈ pre → exists_ cwd (disk st) (candidate watch rel stem e) = false) →
  exists_ cwd (disk st) (candidate watch rel stem ext) = true →
  probe cwd watch rel base_name stem (pre ++ ext :: post) st =
    match remove cwd (candidate watch rel stem ext) (disk st) with
    | Fail e fs' => Raise e (set_disk fs' st)
    | Done fs' =>
        Ok tt (emit ["File deleted: " +:+ base_name;
                     "Watch file also deleted: " +:+ stem +:+ ext; border]
                 (set_disk fs' st))
    end.
Proof.
  induction pre as [|e pre IH]; intros Hpre Hext.
  - simpl. unfold bind at 1, path_exists, get. fold (candidate watch rel stem ext).
    rewrite Hext. unfold bind, syscall.
    destruct (remove cwd (candidate watch rel stem ext) (disk st)); [|done].
    unfold print. simpl. by rewrite !emit_emit.
  - simpl. unfold bind at 1, path_exists, get. fold (candidate watch rel stem e).
    rewrite (Hpre e) by apply list_elem_of_here.
    apply IH; [|done]. intros e' He'. apply Hpre. by apply list_elem_of_further.
Qed.

Lemma probe_marker (watch rel base_name stem : string) (exts : list string) (st : state) :
  system_created_txt_files (final (probe cwd watch rel base_name stem exts st))
  = system_created_txt_files st.
Proof.
  induction exts as [|ext exts IH]; [done|].
  simpl. unfold bind at 1, path_exists, get.
  destruct (exists_ cwd (disk st) _); [|apply IH].
  unfold bind, syscall. by destruct (remove cwd _ (disk st)).
Qed.

(** *** Time stamps and records *)

Lemma is_digit_dchar (n : Z) : is_digit (dchar n) = true.
Proof.
  unfold is_digit, dchar. pose proof (Z.mod_pos_bound n 10 eq_refl) as Hb.
  rewrite nat_ascii_embedding by lia.
  apply andb_true_iff. split; apply Nat.leb_le; lia.
Qed.



Lemma is_ascii_dchar (n : Z) : is_ascii (dchar n) = true.
Proof.
  pose proof (is_digit_dchar n) as [_ H]%andb_true_iff. apply Nat.leb_le in H.
  unfold is_ascii. apply Nat.ltb_lt. lia.
Qed.

Lemma all_ascii_decimal_fuel (fuel : nat) (n : Z) : all_ascii (decimal_fuel fuel n) = true.
Proof.
  revert n. induction fuel as [|fuel IH]; intros n; [done|]. simpl.
  destruct (n <? 10)%Z.
  - unfold digit. simpl. by rewrite is_ascii_dchar.
  - rewrite all_ascii_app, IH. unfold digit. simpl. by rewrite is_ascii_dchar.
Qed.

Lemma all_ascii_strftime (now : datetime) : all_ascii (strftime now) = true.
Proof.
  unfold strftime, decimal, pad2, digit.
  rewrite !all_ascii_app, all_ascii_decimal_fuel. simpl.
  by rewrite !is_ascii_dchar.
Qed.

(** The record can be encoded exactly when the name in it can. *)
Lemma utf8_sidecar_text (base_name : string) (now : datetime) :
  utf8 (sidecar_text base_name (strftime now)) = utf8 base_name.
Proof.
  unfold sidecar_text.
  change (utf8 ("File name: " +:+ base_name
                  +:+ String (ascii_of_nat 10)
                        (nl +:+ "Link: " +:+ nl +:+ "                        " +:+ nl
                           +:+ "Last updated: " +:+ strftime now +:+ nl +:+ nl
                           +:+ "Other:" +:+ nl))
          = utf8 base_name).
  apply utf8_between; [done..|].
  rewrite !all_ascii_app, all_ascii_strftime. done.
Qed.


(** *** The marker set *)

Lemma txt_path_endswith (archive rel name_without_ext : string) :
  endswith (txt_path_of archive rel name_without_ext) ".txt" = true.
Proof.
  unfold txt_path_of. apply join_endswith. eexists. split; [done|]. apply endswith_app.
Qed.

Lemma sidecar_of_endswith (archive : string) (ds : list string) (name : string) :
  endswith (sidecar_of nfc archive ds name) ".txt" = true.
Proof.
  unfold sidecar_of. apply join_endswith. eexists. split; [done|]. apply endswith_app.
Qed.

Lemma created_marker (now : datetime) (ev : event) (st : state) :
  let st' := final (on_created cwd nfc now ev st) in
  system_created_txt_files st' = system_created_txt_files st
  ∨ ∃ rel,
      PosixPath.relpath cwd (src_path ev) (watch_dir st) = Some rel
      ∧ system_created_txt_files st'
        = {[created_txt nfc (archive_dir st) rel (src_path ev)]}
            ∪ system_created_txt_files st
      ∧ read cwd (disk st') (created_txt nfc (archive_dir st) rel (src_path ev))
        = Some (sidecar_text (nfc (basename (src_path ev))) (strftime now)).
Proof.
  destruct (is_directory ev) eqn:Hd; [left; by rewrite on_created_directory|].
  destruct (PosixPath.relpath cwd (src_path ev) (watch_dir st)) as [rel|] eqn:Hr;
    [|left; by rewrite on_created_no_path].
  rewrite (on_created_file now ev st rel Hd Hr). cbv zeta.
  destruct (makedirs cwd _ (disk st)) as [fs1|e fs']; [|by left].
  destruct (eqb (src_path ev) _); [by left|].
  destruct (endswith (nfc (basename (src_path ev))) ".txt").
  { destruct (bool_decide _); by left. }
  destruct (write_cases cwd fs1 (created_txt nfc (archive_dir st) rel (src_path ev))
              (sidecar_text (nfc (basename (src_path ev))) (strftime now)))
    as [(l & Hl & Hn & _ & ->)|[(l & _ & _ & _ & ->)|[e ->]]]; [|by left..].
  right. exists rel. split; [done|]. split; [done|]. simpl. by apply read_written.
Qed.

Lemma moved_marker (ev : event) (st : state) :
  system_created_txt_files (final (on_moved cwd nfc ev st)) = system_created_txt_files st.
Proof.
  destruct (is_directory ev) eqn:Hd; [by rewrite on_moved_directory|].
  destruct (PosixPath.relpath cwd (src_path ev) (watch_dir st)) as [old_rel|] eqn:Ho;
    [|rewrite on_moved_raises; auto].
  destruct (PosixPath.relpath cwd (dest_path ev) (watch_dir st)) as [new_rel|] eqn:Hn;
    [|rewrite on_moved_raises; auto].
  rewrite (on_moved_file ev st old_rel new_rel Hd Ho Hn). cbv zeta.
  destruct (exists_ cwd (disk st) _); [|done].
  destruct (makedirs cwd _ (disk st)) as [fs1|e fs']; [|done].
  by destruct (move cwd _ _ fs1).
Qed.

Lemma deleted_marker (ev : event) (st : state) :
  system_created_txt_files (final (on_deleted cwd nfc ev st)) = system_created_txt_files st.
Proof.
  destruct (PosixPath.relpath cwd (src_path ev) (watch_dir st)) as [rel|] eqn:Hr;
    [|by rewrite on_deleted_no_path].
  destruct (is_directory ev) eqn:Hd.
  - rewrite (on_deleted_directory ev st rel Hd Hr). cbv zeta.
    destruct (exists_ cwd (disk st) _); [|done]. by destruct (rmtree cwd _ (disk st)).
  - rewrite (on_deleted_file ev st rel Hd Hr). cbv zeta. unfold drop_sidecar.
    destruct (exists_ cwd (disk st) _).
    + destruct (remove cwd _ (disk st)); [|done].
      destruct (endswith _ ".txt"); [|done]. by rewrite probe_marker.
    + destruct (endswith _ ".txt"); [|done]. by rewrite probe_marker.
Qed.

Lemma exec_marker (c : call) (st : state) (p : string) :
  p ∈ system_created_txt_files st → p ∈ system_created_txt_files (exec cwd nfc c st).
Proof.
  intros Hp. destruct c as [now ev|ev|ev|fs out]; simpl.
  - destruct (created_marker now ev st) as [->|(rel & _ & -> & _)]; [done|].
    apply elem_of_union. by right.
  - by rewrite moved_marker.
  - by rewrite deleted_marker.
  - done.
Qed.

Lemma run_marker (cs : list call) (st : state) (p : string) :
  p ∈ system_created_txt_files st → p ∈ system_created_txt_files (run cwd nfc cs st).
Proof.
  unfold run. revert st. induction cs as [|c cs IH]; intros st Hp; [done|].
  simpl. apply IH. by apply exec_marker.
Qed.

(** Whatever is in the marker set is a path the handler gave a [.txt]
    name. *)
Lemma exec_marker_txt (c : call) (st : state) :
  (∀ p, p ∈ system_created_txt_files st → endswith p ".txt" = true) →
  ∀ p, p ∈ system_created_txt_files (exec cwd nfc c st) → endswith p ".txt" = true.
Proof.
  intros Hst p. destruct c as [now ev|ev|ev|fs out]; simpl.
  - destruct (created_marker now ev st) as [->|(rel & _ & -> & _)]; [apply Hst|].
    intros [->%elem_of_singleton|Hp]%elem_of_union; [|by apply Hst].
    apply txt_path_endswith.
  - rewrite moved_marker. apply Hst.
  - rewrite deleted_marker. apply Hst.
  - apply Hst.
Qed.

Lemma reachable_marker_txt (st : state) (p : string) :
  reachable cwd nfc st → p ∈ system_created_txt_files st → endswith p ".txt" = true.
Proof.
  intros (watch & archive & fs & out & cs & ->). revert p. unfold run.
  generalize (init watch archive fs out) (λ p (H : p ∈ system_created_txt_files
    (init watch archive fs out)), False_ind (endswith p ".txt" = true)
    (not_elem_of_empty (C := gset string) p H)).
  induction cs as [|c cs IH]; intros st Hst; [done|].
  simpl. apply IH. by apply exec_marker_txt.
Qed.

End WithEnvironment.
End HandlerFacts.

(** ** The sample normalization *)

Module ScenarioFacts.
Import PyStr PyStrFacts Scenario.

Lemma compose_plain (a : ascii) (r t : string) :
  has_char "e" t = false → has_char "195" t = false →
  compose a r = t ↔ String a r = t.
Proof.
  intros He Hc. unfold compose.
  destruct (is_char "e" a && startswith r (String "204" (String "129" ""))) eqn:E; [|done].
  apply andb_true_iff in E as [->%is_char_true Hr].
  destruct r as [|x [|y r']]; [done..|].
  split; intros <-; simpl in *; done.
Qed.

Lemma nfc_sample_plain (s t : string) :
  has_char "e" t = false → has_char "195" t = false →
  nfc_sample s = t ↔ s = t.
Proof.
  revert t. induction s as [|a s IH]; intros t He Hc; [done|].
  simpl. rewrite compose_plain by done.
  destruct t as [|b t]; [done|]. simpl in He, Hc.
  apply orb_false_iff in He as [_ He]. apply orb_false_iff in Hc as [_ Hc].
  split; intros [= -> H]; f_equal; by apply (IH t).
Qed.

(** The sample normalization neither makes nor breaks a [.txt] suffix. *)
Lemma nfc_sample_txt (s : string) : endswith (nfc_sample s) ".txt" = endswith s ".txt".
Proof.
  induction s as [|a s IH]; [done|].
  change (endswith (String a s) ".txt")
    with (eqb (String a s) ".txt" || endswith s ".txt").
  simpl nfc_sample. unfold compose.
  destruct (is_char "e" a && startswith (nfc_sample s) (String "204" (String "129" "")))
    eqn:E.
  - apply andb_true_iff in E as [->%is_char_true Hr].
    destruct (nfc_sample s) as [|x [|y r']]; [done..|].
    simpl in Hr. apply andb_true_iff in Hr as [->%bool_decide_eq_true Hr].
    apply andb_true_iff in Hr as [->%bool_decide_eq_true _].
    rewrite <- IH. done.
  - change (endswith (String a (nfc_sample s)) ".txt")
      with (eqb (String a (nfc_sample s)) ".txt" || endswith (nfc_sample s) ".txt").
    rewrite IH. f_equal. unfold eqb. apply bool_decide_ext.
    split; intros [= -> H]; f_equal; by apply (nfc_sample_plain s "txt").
Qed.

End ScenarioFacts.

(** * What the mirror synchronizer does *)

Module Synchronizer.
Import PyStr PyStrFacts PosixPath PosixPathFacts FSFacts Handler HandlerFacts.

Section WithEnvironment.
Variable cwd : list string.
Variable nfc : string → string.

(** Normalization composes and decomposes accented letters; it leaves a
    trailing [.txt] alone and makes none. *)
Hypothesis nfc_txt : ∀ s, endswith (nfc s) ".txt" = endswith s ".txt".

(** C9. The marker set only grows.  [on_created] leaves it as it is or
    adds the one sidecar path it has just written; [on_moved] and
    [on_deleted] leave it as it is; so a path in the set stays there
    through every run of the handler. *)
Theorem marker_set_only_grows :
  (∀ now ev st,
      let st' := final (on_created cwd nfc now ev st) in
      system_created_txt_files st' = system_created_txt_files st
      ∨ ∃ rel,
          PosixPath.relpath cwd (src_path ev) (watch_dir st) = Some rel
          ∧ system_created_txt_files st'
            = {[created_txt nfc (archive_dir st) rel (src_path ev)]}
                ∪ system_created_txt_files st
          ∧ read cwd (disk st') (created_txt nfc (archive_dir st) rel (src_path ev))
            = Some (sidecar_text (nfc (basename (src_path ev))) (strftime now)))
  ∧ (∀ ev st,
        system_created_txt_files (final (on_moved cwd nfc ev st))
        = system_created_txt_files st)
  ∧ (∀ ev st,
        system_created_txt_files (final (on_deleted cwd nfc ev st))
        = system_created_txt_files st)
  ∧ (∀ cs st p,
        p ∈ system_created_txt_files st →
        p ∈ system_created_txt_files (run cwd nfc cs st)).
Proof.
  split; [apply created_marker|]. split; [apply moved_marker|].
  split; [apply deleted_marker|]. apply run_marker.
Qed.

(** C8. A creation event for a path that is in the marker set changes
    no file, prints nothing and leaves the marker set as it is: all it can
    do is create directories. *)
Theorem marked_path_created_again (now : datetime) (ev : event) (st : state) :
  reachable cwd nfc st →
  src_path ev ∈ system_created_txt_files st →
  let st' := final (on_created cwd nfc now ev st) in
  stdout st' = stdout st
  ∧ system_created_txt_files st' = system_created_txt_files st
  ∧ (∀ l data, disk st' !! l = Some (File data) ↔ disk st !! l = Some (File data))
  ∧ grows (disk st) (disk st').
Proof.
  intros Hreach Hin.
  pose proof (reachable_marker_txt cwd nfc st _ Hreach Hin) as Htxt.
  assert (∀ fs', grows (disk st) fs' →
            let st' := set_disk fs' st in
            stdout st' = stdout st
            ∧ system_created_txt_files st' = system_created_txt_files st
            ∧ (∀ l data, disk st' !! l = Some (File data) ↔ disk st !! l = Some (File data))
            ∧ grows (disk st) (disk st')) as Hdone.
  { intros fs' Hg. simpl. split; [done|]. split; [done|]. split; [|done].
    intros l data. by apply grows_file. }
  destruct (is_directory ev) eqn:Hd.
  { rewrite on_created_directory by done. simpl.
    split; [done|]. split; [done|]. split; [done|]. apply grows_refl. }
  destruct (relpath_some cwd (src_path ev) (watch_dir st)) as [rel Hr].
  { eapply endswith_nonempty; done. }
  rewrite (on_created_file cwd nfc now ev st rel Hd Hr). cbv zeta.
  pose proof (makedirs_grows cwd
    (dirname (created_txt nfc (archive_dir st) rel (src_path ev))) (disk st)) as Hg.
  destruct (makedirs cwd _ (disk st)) as [fs1|e fs']; [|by apply Hdone].
  destruct (eqb (src_path ev) _); [by apply Hdone|].
  rewrite nfc_txt, (basename_endswith_txt _ Htxt).
  rewrite bool_decide_eq_true_2 by done. by apply Hdone.
Qed.

(** C10. For a file event, [on_created] makes the directories of the
    sidecar path before it looks at the name or at the marker set: when
    [makedirs] raises, the callback raises; when it succeeds, that
    directory exists when the callback is over, and an event that is then
    skipped or ignored leaves the disk exactly as [makedirs] left it. *)
Theorem directories_come_first (now : datetime) (ev : event) (st : state) (rel : string) :
  wf (disk st) →
  is_directory ev = false →
  PosixPath.relpath cwd (src_path ev) (watch_dir st) = Some rel →
  let txt_path := created_txt nfc (archive_dir st) rel (src_path ev) in
  let r := on_created cwd nfc now ev st in
  match makedirs cwd (dirname txt_path) (disk st) with
  | Fail e fs' => r = Raise e (set_disk fs' st)
  | Done fs1 =>
      grows (disk st) fs1
      ∧ isdir cwd fs1 (dirname txt_path) = true
      ∧ isdir cwd (disk (final r)) (dirname txt_path) = true
      ∧ (src_path ev = txt_path ∨ endswith (basename (src_path ev)) ".txt" = true →
         ∃ out, r = Ok tt (emit out (set_disk fs1 st)))
  end.
Proof.
  intros Hwf Hd Hr txt_path r. subst r.
  rewrite (on_created_file cwd nfc now ev st rel Hd Hr). cbv zeta. fold txt_path.
  pose proof (makedirs_spec cwd (dirname txt_path) (disk st) Hwf) as Hm.
  destruct (makedirs cwd (dirname txt_path) (disk st)) as [fs1|e fs']; [|done].
  destruct Hm as (Hg & Hwf1 & Hdir).
  assert (∀ out, emit out (set_disk fs1 st) = emit out (set_disk fs1 st)) as _ by done.
  split; [done|]. split; [done|].
  rewrite nfc_txt.
  destruct (eqb (src_path ev) txt_path) eqn:Eeq.
  { split; [done|]. intros _. exists []. unfold emit. simpl. by rewrite List.app_nil_r. }
  apply eqb_false in Eeq.
  destruct (endswith (basename (src_path ev)) ".txt") eqn:Etxt.
  { destruct (bool_decide _).
    - split; [done|]. intros _. exists []. unfold emit. simpl. by rewrite List.app_nil_r.
    - split; [done|]. intros _. by eexists. }
  destruct (write_cases cwd fs1 txt_path
              (sidecar_text (nfc (basename (src_path ev))) (strftime now)))
    as [(l & Hl & Hn & _ & ->)|[(l & Hl & Hn & _ & ->)|[e ->]]].
  - split; [|by intros [?|?]]. simpl.
    rewrite (isdir_same_dirs cwd fs1); [done|]. by apply same_dirs_insert_file.
  - split; [|by intros [?|?]]. simpl.
    rewrite (isdir_same_dirs cwd fs1); [done|]. by apply same_dirs_insert_file.
  - split; [done|]. by intros [?|?].
Qed.



(** C6. A file that is not a [.txt] file disappears below the source
    root while its sidecar is there: [on_deleted] removes that sidecar,
    prints the notice (its three lines are the new lines of the
    console), and leaves every other location of the disk and the marker
    set as they are. *)
Theorem deleted_file_loses_sidecar (ev : event) (st : state)
    (ws ds : list string) (name data : string) :
  Forall (λ c, is_name c = true) ws →
  Forall (λ c, is_name c = true) ds →
  is_name name = true →
  watch_dir st = path_of ws →
  src_path ev = path_of (ws ++ ds ++ [name]) →
  is_directory ev = false →
  endswith name ".txt" = false →
  let txt_path := sidecar_of nfc (archive_dir st) ds name in
  read cwd (disk st) txt_path = Some data →
  ∃ l,
    resolve cwd (disk st) txt_path = Some l
    ∧ disk st !! l = Some (File data)
    ∧ on_deleted cwd nfc ev st
      = Ok tt (emit ["File deleted: " +:+ nfc name;
                     "Corresponding source file also deleted."; border]
                 (set_disk (delete l (disk st)) st))
    ∧ stdout (final (on_deleted cwd nfc ev st))
      = stdout st ++ ["File deleted: " +:+ nfc name;
                      "Corresponding source file also deleted."; border]
    ∧ disk (final (on_deleted cwd nfc ev st)) = delete l (disk st)
    ∧ system_created_txt_files (final (on_deleted cwd nfc ev st))
      = system_created_txt_files st.
Proof.
  intros Hws Hds Hname Hwatch Hsrc Hd Htxt txt_path Hread.
  assert (Forall (λ c, is_name c = true) (ds ++ [name])) as Hrs.
  { apply Forall_app. split; [done|]. by apply Forall_singleton. }
  assert (PosixPath.relpath cwd (src_path ev) (watch_dir st)
          = Some (PyStr.join sep (ds ++ [name]))) as Hr.
  { rewrite Hwatch, Hsrc. apply relpath_under; [done..|]. by destruct ds. }
  rewrite (on_deleted_file cwd nfc ev st _ Hd Hr). cbv zeta.
  assert (deleted_txt nfc (archive_dir st) (PyStr.join sep (ds ++ [name])) = txt_path)
    as ->.
  { unfold deleted_txt, txt_path_of, txt_path, sidecar_of.
    by rewrite basename_join_names, dirname_join_names. }
  rewrite basename_join_names by done.
  unfold drop_sidecar. rewrite (read_exists cwd _ _ _ Hread).
  apply read_spec in Hread as (l & Hres & Hne & Hl).
  rewrite (remove_done cwd _ _ _ _ Hres Hne Hl), nfc_txt, Htxt.
  by exists l.
Qed.



(** The probe of [on_deleted], when nothing is at the sidecar path computed
    for the deleted [.txt] file: the extensions are tried in the order of
    [possible_extensions]; at the first one whose path exists that file is
    removed, the notice is printed and the probe stops; when no path
    exists nothing happens.  The paths are [watch_dir] joined with the
    directory of the path relative to [watch_dir]. *)
Lemma deleted_txt_probes_extensions (ev : event) (st : state) (rel : string) :
  is_directory ev = false →
  PosixPath.relpath cwd (src_path ev) (watch_dir st) = Some rel →
  endswith (basename rel) ".txt" = true →
  exists_ cwd (disk st) (deleted_txt nfc (archive_dir st) rel) = false →
  let base_name := nfc (basename rel) in
  let stem := fst (splitext base_name) in
  let path ext := candidate (watch_dir st) rel stem ext in
  possible_extensions
  = [".mp4"; ".avi"; ".mkv"; ".mov"; ".webm"; ".gif"; ".jpeg"; ".jpg"; ".png";
     ".webp"; ".mp3"; ".aac"; ".wav"; ".flac"; ".bmp"]
  ∧ ((∀ ext, ext ∈ possible_extensions → exists_ cwd (disk st) (path ext) = false) →
     on_deleted cwd nfc ev st = Ok tt st)
  ∧ (∀ pre ext post data,
        possible_extensions = pre ++ ext :: post →
        (∀ e, e ∈ pre → exists_ cwd (disk st) (path e) = false) →
        read cwd (disk st) (path ext) = Some data →
        ∃ l,
          resolve cwd (disk st) (path ext) = Some l
          ∧ disk st !! l = Some (File data)
          ∧ on_deleted cwd nfc ev st
            = Ok tt (emit ["File deleted: " +:+ base_name;
                           "Watch file also deleted: " +:+ stem +:+ ext; border]
                       (set_disk (delete l (disk st)) st))).
Proof.
  intros Hd Hr Htxt Hside base_name stem path.
  split; [done|].
  rewrite (on_deleted_file cwd nfc ev st _ Hd Hr). cbv zeta.
  unfold drop_sidecar. rewrite Hside, nfc_txt, Htxt. fold base_name stem.
  split.
  - intros Hnone. by apply probe_none.
  - intros pre ext post data -> Hpre Hread.
    rewrite (probe_first cwd _ _ _ _ pre ext post st Hpre (read_exists cwd _ _ _ Hread)).
    apply read_spec in Hread as (l & Hres & Hne & Hl).
    fold (path ext). rewrite (remove_done cwd _ _ _ _ Hres Hne Hl). by exists l.
Qed.


End WithEnvironment.

(** ** The theorems at work on the sample disk *)

Import Scenario ScenarioFacts.

Ltac compute_it := vm_compute; first [reflexivity | exact I | discriminate | done].

Lemma names_w : Forall (λ c, is_name c = true) ["w"].
Proof. by repeat constructor. Qed.

Lemma names_clips : Forall (λ c, is_name c = true) ["clips"].
Proof. by repeat constructor. Qed.

Lemma handler1_reachable : reachable [] nfc_sample handler1.
Proof. by exists "/w", "/a", disk0, [], [Created now0 clip_created]. Qed.


Lemma marked_path_created_again_witness :
  src_path sidecar_created ∈ system_created_txt_files handler1
  ∧ let st' := final (on_created [] nfc_sample now0 sidecar_created handler1) in
    stdout st' = stdout handler1
    ∧ system_created_txt_files st' = system_created_txt_files handler1
    ∧ (∀ l data,
          disk st' !! l = Some (File data) ↔ disk handler1 !! l = Some (File data))
    ∧ grows (disk handler1) (disk st').
Proof.
  assert (src_path sidecar_created ∈ system_created_txt_files handler1) as Hin.
  { refine (bool_decide_unpack _ _). compute_it. }
  split; [exact Hin|].
  exact (marked_path_created_again [] nfc_sample nfc_sample_txt now0 sidecar_created
           handler1 handler1_reachable Hin).
Defined.

Lemma directories_come_first_witness :
  isdir [] (disk handler0) "/a/new/dir" = false
  ∧ ∃ fs1 out,
      on_created [] nfc_sample now0 nested_notes_created handler0
      = Ok tt (emit out (set_disk fs1 handler0))
      ∧ grows (disk handler0) fs1
      ∧ isdir [] fs1 "/a/new/dir" = true.
Proof.
  split; [compute_it|].
  pose proof (directories_come_first [] nfc_sample nfc_sample_txt now0
                nested_notes_created handler0 "new/dir/notes.txt") as H.
  cbv zeta in H.
  assert (makedirs [] (dirname (created_txt nfc_sample (archive_dir handler0)
                                  "new/dir/notes.txt" (src_path nested_notes_created)))
            (disk handler0)
          = Done (<[["a"; "new"; "dir"] := Dir]> (<[["a"; "new"] := Dir]> disk0))) as E.
  { compute_it. }
  rewrite E in H.
  destruct H as (Hg & Hdir & _ & Hout).
  - apply wf_check. compute_it.
  - compute_it.
  - compute_it.
  - destruct Hout as [out Hout]; [right; compute_it|].
    exists (<[["a"; "new"; "dir"] := Dir]> (<[["a"; "new"] := Dir]> disk0)), out.
    split; [exact Hout|]. split; [exact Hg|]. exact Hdir.
Defined.


Lemma deleted_file_loses_sidecar_witness :
  ∃ l,
    resolve [] (disk handler1) (sidecar_of nfc_sample "/a" ["clips"] cafe_mp4) = Some l
    ∧ disk handler1 !! l = Some (File (sidecar_text (nfc_sample cafe_mp4) (strftime now0)))
    ∧ on_deleted [] nfc_sample clip_deleted handler1
      = Ok tt (emit ["File deleted: " +:+ nfc_sample cafe_mp4;
                     "Corresponding source file also deleted."; border]
                 (set_disk (delete l (disk handler1)) handler1))
    ∧ stdout (final (on_deleted [] nfc_sample clip_deleted handler1))
      = stdout handler1 ++ ["File deleted: " +:+ nfc_sample cafe_mp4;
                            "Corresponding source file also deleted."; border]
    ∧ disk (final (on_deleted [] nfc_sample clip_deleted handler1))
      = delete l (disk handler1)
    ∧ system_created_txt_files (final (on_deleted [] nfc_sample clip_deleted handler1))
      = system_created_txt_files handler1.
Proof.
  apply (deleted_file_loses_sidecar [] nfc_sample nfc_sample_txt clip_deleted handler1
           ["w"] ["clips"] cafe_mp4).
  - exact names_w.
  - exact names_clips.
  - compute_it.
  - compute_it.
  - compute_it.
  - compute_it.
  - compute_it.
  - compute_it.
Defined.




(** C1, the claim as it is written, at three files below the source root
    whose names do not end in [.txt].  The file [y.mp4] appears in the
    directory [x.txt] while the archive has the regular file [/a/x.txt],
    the sidecar of [x.mp4]: the directories of the mapped path cannot be
    made.  The file [clip.mp4] appears while the archive has the
    directory [/a/clip.txt], the mirror of a source directory: the mapped
    path cannot be opened.  A file appears whose name is not UTF-8: the
    sidecar is opened and the record cannot be encoded.  Each time
    [on_created] raises, and no record is at the mapped path. *)
Lemma created_file_without_sidecar :
  (reachable [] nfc_sample handler_x
   ∧ sidecar_of nfc_sample "/a" ["x.txt"] "y.mp4" = "/a/x.txt/y.txt"
   ∧ on_created [] nfc_sample now0 inner_created handler_x
     = Raise FileExistsError handler_x
   ∧ read [] (disk handler_x) "/a/x.txt/y.txt" = None)
  ∧ (reachable [] nfc_sample handler_clip
     ∧ sidecar_of nfc_sample "/a" [] "clip.mp4" = "/a/clip.txt"
     ∧ on_created [] nfc_sample now0 clip_blocked handler_clip
       = Raise IsADirectoryError handler_clip
     ∧ read [] (disk handler_clip) "/a/clip.txt" = None)
  ∧ (sidecar_of nfc_sample "/a" [] latin_mp4 = "/a/" +:+ latin_txt
     ∧ utf8 (nfc_sample latin_mp4) = false
     ∧ ∃ st',
         on_created [] nfc_sample now0 latin_created handler0
         = Raise UnicodeEncodeError st'
         ∧ read [] (disk st') ("/a/" +:+ latin_txt) = Some ""
         ∧ stdout st' = stdout handler0).
Proof.
  split; [|split].
  - split.
    { by exists "/w", "/a", disk_x, [],
        [Created now0 (Event "/w/x.mp4" "" false);
         Created now0 (Event "/w/old.mp4" "" false)]. }
    repeat split; compute_it.
  - split.
    { by exists "/w", "/a", disk_clip, [],
        [Created now0 (Event "/w/clip.txt/v.mp4" "" false);
         Created now0 (Event "/w/old.mp4" "" false)]. }
    repeat split; compute_it.
  - split; [compute_it|]. split; [compute_it|].
    eexists. split; [vm_compute; reflexivity|]. split; compute_it.
Qed.

(** C3, the claim as it is written: the text file [notes.txt] appears in
    the source directory [x.txt] while the archive has the regular file
    [/a/x.txt], the sidecar of [x.mp4].  The path is not in the marker set
    and is not the computed sidecar path, yet no notice is printed: the
    directories of the sidecar path cannot be made, and [on_created]
    raises. *)
Lemma foreign_txt_without_notice :
  reachable [] nfc_sample handler_x
  ∧ is_directory inner_notes_created = false
  ∧ endswith (basename (src_path inner_notes_created)) ".txt" = true
  ∧ (src_path inner_notes_created ∉ system_created_txt_files handler_x)
  ∧ PosixPath.relpath [] (src_path inner_notes_created) (watch_dir handler_x)
    = Some "x.txt/notes.txt"
  ∧ created_txt nfc_sample (archive_dir handler_x) "x.txt/notes.txt"
      (src_path inner_notes_created)
    = "/a/x.txt/notes.txt"
  ∧ read [] (disk handler_x) "/a/x.txt" = Some (sidecar_text "x.mp4" (strftime now0))
  ∧ on_created [] nfc_sample now0 inner_notes_created handler_x
    = Raise FileExistsError handler_x
  ∧ stdout (final (on_created [] nfc_sample now0 inner_notes_created handler_x))
    = stdout handler_x.
Proof.
  split.
  { by exists "/w", "/a", disk_x, [],
      [Created now0 (Event "/w/x.mp4" "" false);
       Created now0 (Event "/w/old.mp4" "" false)]. }
  split; [compute_it|]. split; [compute_it|]. split.
  { intros Hin. apply (bool_decide_pack _) in Hin. revert Hin. compute_it. }
  repeat split; compute_it.
Qed.

(** C5, the claim as it is written: a file appears whose name is not
    UTF-8.  [on_created] opens the sidecar and raises when it encodes the
    record: the file it has made is empty, and holds no record. *)
Lemma written_file_left_empty :
  disk handler0 !! ["a"; latin_txt] = None
  ∧ (∃ st',
       on_created [] nfc_sample now0 latin_created handler0
       = Raise UnicodeEncodeError st'
       ∧ disk st' !! ["a"; latin_txt] = Some (File ""))
  ∧ ¬ record_shape (nfc_sample latin_mp4) "".
Proof.
  split; [compute_it|]. split.
  { eexists. split; [vm_compute; reflexivity|]. compute_it. }
  intros (ts & gap1 & gap2 & gap3 & link & other & E & _).
  rewrite !sapp_cons in E. discriminate.
Qed.

(** C7, the claim as it is written: the source directory [x.txt] is
    deleted while the archive has the regular file [/a/x.txt], the sidecar
    of [x.mp4].  The corresponding archive path exists, and nothing is
    removed and nothing is printed: [rmtree] raises on a regular file. *)
Lemma deleted_directory_meets_file :
  reachable [] nfc_sample handler_x
  ∧ PosixPath.relpath [] (src_path x_txt_deleted) (watch_dir handler_x) = Some "x.txt"
  ∧ PosixPath.join (archive_dir handler_x) ["x.txt"] = "/a/x.txt"
  ∧ exists_ [] (disk handler_x) "/a/x.txt" = true
  ∧ read [] (disk handler_x) "/a/x.txt" = Some (sidecar_text "x.mp4" (strftime now0))
  ∧ on_deleted [] nfc_sample x_txt_deleted handler_x
    = Raise NotADirectoryError handler_x.
Proof.
  split.
  { by exists "/w", "/a", disk_x, [],
      [Created now0 (Event "/w/x.mp4" "" false);
       Created now0 (Event "/w/old.mp4" "" false)]. }
  repeat split; compute_it.
Qed.


(** C2, the code at work: the sidecar [/a/video.txt] is deleted while
    [/w/video.mp4] and [/w/video.mov] exist.  The paths probed are
    [/w/../a/video.mp4] and so on, beside the deleted sidecar and not
    in the source tree: nothing is found, nothing is removed, nothing is
    printed. *)
Lemma sidecar_deletion_misses_source :
  PosixPath.relpath [] (src_path video_txt_deleted) "/w" = Some "../a/video.txt"
  ∧ map (candidate "/w" "../a/video.txt" "video") possible_extensions
    = map (λ ext, "/w/../a/video" +:+ ext) possible_extensions
  ∧ read [] disk_videos "/w/video.mp4" = Some "mp4"
  ∧ read [] disk_videos "/w/video.mov" = Some "mov"
  ∧ on_deleted [] nfc_sample video_txt_deleted (init "/w" "/a" disk_videos [])
    = Ok tt (init "/w" "/a" disk_videos []).
Proof. repeat split; compute_it. Qed.

(** A text file deleted in the source tree takes the sidecar of its
    namesake along: [/w/notes.txt] is deleted, and [/a/notes.txt], the sidecar
    of [/w/notes.pdf], goes. *)
Lemma text_file_deletion_takes_sidecar :
  read [] disk_notes "/a/notes.txt" = Some "sidecar"
  ∧ ∃ st',
      on_deleted [] nfc_sample notes_txt_deleted (init "/w" "/a" disk_notes []) = Ok tt st'
      ∧ read [] (disk st') "/a/notes.txt" = None
      ∧ read [] (disk st') "/w/notes.pdf" = Some "pdf"
      ∧ stdout st' = ["File deleted: notes.txt";
                      "Corresponding source file also deleted."; border].
Proof.
  split; [compute_it|]. eexists. split; [vm_compute; reflexivity|]. repeat split; compute_it.
Qed.

End Synchronizer.

(** * More facts about the model *)

(** ** Trees: more about resolution and [makedirs] *)

Module FrameFacts.
Import PyStr PyStrFacts PosixPath PosixPathFacts FS FSFacts.

(** Entering directories that exist makes nothing. *)
Lemma mkchain_existing (fs : gmap (list string) node) (cs : list string) :
  ∀ cur l, walk fs cur cs = Some l → is_dir_at fs l = true → mkchain fs cur cs = Done fs.
Proof.
  induction cs as [|c cs IH]; intros cur l Hw Hl; [done|].
  simpl in *. destruct (is_dir_at fs cur) eqn:Hd; [|done].
  destruct (is_dot c); [by eapply IH|]. destruct (eqb c ".."); [by eapply IH|].
  assert (is_dir_at fs (cur ++ [c]) = true) as Hc.
  { destruct cs as [|c' cs]; [by injection Hw as <-|].
    simpl in Hw. by destruct (is_dir_at fs (cur ++ [c])). }
  unfold is_dir_at in Hc. destruct (node_at fs (cur ++ [c])) as [[]|]; [done| |done].
  by eapply IH.
Qed.

Lemma wf_insert_file (fs : gmap (list string) node) (l : list string) (data : string) :
  wf fs → is_dir_at fs (removelast l) = true → node_at fs l ≠ Some Dir →
  wf (<[l := File data]> fs).
Proof.
  intros Hwf Hd Hn k n Hk. rewrite same_dirs_insert_file by done.
  destruct (decide (l = k)) as [<-|Hne]; [done|].
  rewrite lookup_insert_ne in Hk by done. by eapply Hwf.
Qed.

(** Names are walked downwards, one level each. *)
Lemma walk_names (fs : gmap (list string) node) (cs : list string) :
  Forall (λ c, is_name c = true) cs →
  ∀ cur l, walk fs cur cs = Some l → l = cur ++ cs.
Proof.
  induction 1 as [|c cs Hc _ IH]; intros cur l Hw.
  - injection Hw as <-. by rewrite List.app_nil_r.
  - simpl in Hw. destruct (is_dir_at fs cur); [|done].
    apply is_name_spec in Hc as (H1 & H2 & H3 & _).
    apply eqb_false in H1, H2, H3. unfold is_dot in Hw. rewrite H1, H2, H3 in Hw.
    apply IH in Hw as ->. by rewrite <- List.app_assoc.
Qed.

Section WithCwd.
Variable cwd : list string.

Lemma makedirs_existing (fs : gmap (list string) node) (name : string) :
  isdir cwd fs name = true → makedirs cwd name fs = Done fs.
Proof.
  unfold isdir, resolve, makedirs. destruct (nonempty name); [|done].
  set (start := if isabs name then [] else cwd).
  destruct (walk fs start (PyStr.split sep name)) as [l|] eqn:Hw; [|done].
  intros Hl. assert (is_dir_at fs start = true) as ->.
  { pose proof (split_nonnil sep name). destruct (PyStr.split sep name); [done|].
    simpl in Hw. by destruct (is_dir_at fs start). }
  by eapply mkchain_existing.
Qed.

Lemma remove_cases (fs : gmap (list string) node) (p : string) :
  (∃ l data, fs !! l = Some (File data) ∧ resolve cwd fs p = Some l
             ∧ remove cwd p fs = Done (delete l fs))
  ∨ (∃ e, remove cwd p fs = Fail e fs).
Proof.
  unfold remove. destruct (resolve cwd fs p) as [l|]; [|right; by eexists].
  destruct l as [|c l]; [right; by eexists|]. simpl.
  destruct (fs !! (c :: l)) as [[data|]|] eqn:E; [|right; by eexists..].
  left. by exists (c :: l), data.
Qed.

(** A path with a directory part resolves only when that part is a
    directory. *)
Lemma resolve_parent (fs : gmap (list string) node) (p : string) (l : list string) :
  has_char sep p = true → resolve cwd fs p = Some l →
  isdir cwd fs (dirname p) = true.
Proof.
  unfold dirname. destruct (cut p) as [h t] eqn:E.
  apply cut_spec in E as (-> & Hno & Hh). simpl. intros Hsep Hres.
  destruct Hh as [->|[h' ->]]; [rewrite sapp_nil_l in Hsep; congruence|].
  destruct (rstrip_spec sep (h' +:+ "/")) as (n & Hs & He).
  rewrite rstrip_snoc in Hs, He.
  unfold strip_head in *. rewrite rstrip_snoc in *.
  assert (nonempty (h' +:+ "/") = true) as Hn by (by destruct h').
  rewrite Hn in *. simpl andb in *.
  assert (nonempty ((h' +:+ "/") +:+ t) = true) as Hnp by (by destruct h').
  remember (rstrip _ h') as d eqn:Ed.
  destruct (all_char sep (h' +:+ "/")) eqn:Eall.
  - simpl in *. apply all_char_spec in Eall.
    destruct (String.length (h' +:+ "/")) as [|m] eqn:Elen; [by rewrite Eall in Hn|].
    rewrite Eall in *. clear Eall Hs He.
    unfold isdir, resolve in *.
    change (nonempty (replicate (S m) sep)) with true.
    replace (replicate (S m) sep) with (replicate (S m) sep +:+ "")
      by apply sapp_nil_r.
    rewrite !split_replicate.
    assert (isabs (replicate (S m) sep +:+ "") = true) as ->.
    { unfold isabs. simpl. by rewrite startswith_nil. }
    by rewrite !walk_empties.
  - simpl in *.
    assert (d ≠ "") as Hd.
    { intros Hd. rewrite Hd in Ed. symmetry in Ed. apply rstrip_nil_iff in Ed.
      rename Ed into Hd'. clear Hd. rename Hd' into Hd.
      assert (all_char sep (h' +:+ "/") = true); [|congruence].
      clear -Hd. induction h' as [|a h' IH]; [done|]. rewrite sapp_cons. simpl in *.
      apply andb_true_iff in Hd as [-> Hd]. by apply IH. }
    destruct n as [|m].
    { exfalso. simpl in Hs. rewrite sapp_nil_r in Hs. rewrite <- Hs in He.
      by rewrite endswith_app in He. }
    rewrite Hs in Hres. unfold isdir, resolve in *.
    assert (nonempty d = true) as Hnd by (by destruct d).
    assert (nonempty ((d +:+ replicate (S m) sep) +:+ t) = true) as Hnp'
      by (by destruct d).
    rewrite Hnp' in Hres.
    assert (isabs ((d +:+ replicate (S m) sep) +:+ t) = isabs d) as Habs.
    { unfold isabs. by rewrite sapp_assoc, startswith_char_app. }
    rewrite Habs in Hres. rewrite Hnd.
    rewrite split_dir_tail, walk_app in Hres.
    destruct (walk fs (if isabs d then [] else cwd) (PyStr.split sep d)) as [l0|];
      [|done].
    destruct (is_dir_at fs l0) eqn:Hl0; [done|].
    pose proof (split_nonnil sep t) as Hsp.
    destruct m as [|m]; simpl in Hres.
    + destruct (PyStr.split sep t); [done|]. simpl in Hres. by rewrite Hl0 in Hres.
    + by rewrite Hl0 in Hres.
Qed.

End WithCwd.
End FrameFacts.

(** ** What [shutil.move] keeps *)

Module MoreHandlerFacts.
Import PyStr PyStrFacts PosixPath PosixPathFacts FSFacts Handler HandlerFacts FrameFacts.

Local Open Scope py_scope.

Local Arguments PosixPath.join : simpl never.
Local Arguments PosixPath.dirname : simpl never.
Local Arguments PosixPath.basename : simpl never.
Local Arguments PosixPath.splitext : simpl never.
Local Arguments PosixPath.relpath : simpl never.
Local Arguments txt_path_of : simpl never.
Local Arguments endswith : simpl never.
Local Arguments makedirs : simpl never.
Local Arguments write : simpl never.
Local Arguments remove : simpl never.
Local Arguments rmtree : simpl never.
Local Arguments move : simpl never.
Local Arguments exists_ : simpl never.
Local Arguments isdir : simpl never.
Local Arguments read : simpl never.
Local Arguments resolve : simpl never.
Local Arguments strftime : simpl never.
Local Arguments sidecar_text : simpl never.

(** The files of the subtree moved by [graft] are files of the tree. *)
Lemma graft_lookup (fs : gmap (list string) node) (l l' k : list string) (n : node) :
  graft l l' fs !! k = Some n → ∃ k', fs !! k' = Some n.
Proof.
  unfold graft. intros H%elem_of_list_to_map_2.
  apply list_elem_of_fmap in H as ([k' n'] & [= -> ->] & H).
  apply elem_of_map_to_list in H. apply map_lookup_filter_Some in H as [H _].
  by exists k'.
Qed.

Section WithCwd.
Variable cwd : list string.

Lemma rename_content (fs : gmap (list string) node) (src dst : string)
    (k : list string) (data : string) :
  tree_of (rename cwd src dst fs) !! k = Some (File data) →
  ∃ k', fs !! k' = Some (File data).
Proof.
  unfold rename.
  destruct (resolve cwd fs src) as [l|]; [|by exists k].
  destruct (resolve cwd fs dst) as [l'|]; [|by exists k].
  destruct (node_at fs l) as [[d|]|] eqn:El; [| |by exists k].
  - destruct (node_at fs l') as [[]|]; simpl; [|by exists k|].
    all: destruct (decide (l' = k)) as [<-|Hne];
      [rewrite lookup_insert_eq; intros [= <-]; destruct l; [done|by eexists]
      |rewrite lookup_insert_ne by done; intros [_ H]%lookup_delete_Some; by exists k].
  - destruct (bool_decide (l = l')); [by exists k|].
    destruct (bool_decide (below l l')); [by exists k|].
    assert (∀ k, (graft l l' fs ∪ prune l fs) !! k = Some (File data) →
                 ∃ k', fs !! k' = Some (File data)) as Hu.
    { intros k0 [H|[_ H]]%lookup_union_Some_raw; [by eapply graft_lookup|].
      apply map_lookup_filter_Some in H as [H _]. by exists k0. }
    destruct (node_at fs l') as [[]|]; simpl; [by exists k| |apply Hu].
    destruct (bool_decide _); simpl; [apply Hu|by exists k].
Qed.

Lemma fallback_tree (r : fsres) : tree_of (fallback r) = tree_of r.
Proof. by destruct r as [|[] ?]. Qed.

Lemma move_content (fs : gmap (list string) node) (src dst : string)
    (k : list string) (data : string) :
  tree_of (move cwd src dst fs) !! k = Some (File data) →
  ∃ k', fs !! k' = Some (File data).
Proof.
  unfold move. destruct (isdir cwd fs dst).
  - destruct (bool_decide _); [apply rename_content|].
    destruct (exists_ cwd fs _); [by exists k|].
    rewrite fallback_tree. apply rename_content.
  - rewrite fallback_tree. apply rename_content.
Qed.

End WithCwd.
End MoreHandlerFacts.

(** ** The probe, round by round *)

Module ProbeFacts.
Import PyStr PyStrFacts PosixPath PosixPathFacts FSFacts Handler HandlerFacts.
Import FrameFacts.

Local Open Scope py_scope.

Local Arguments PosixPath.join : simpl never.
Local Arguments PosixPath.dirname : simpl never.
Local Arguments PosixPath.basename : simpl never.
Local Arguments PosixPath.splitext : simpl never.
Local Arguments PosixPath.relpath : simpl never.
Local Arguments txt_path_of : simpl never.
Local Arguments endswith : simpl never.
Local Arguments makedirs : simpl never.
Local Arguments write : simpl never.
Local Arguments remove : simpl never.
Local Arguments rmtree : simpl never.
Local Arguments move : simpl never.
Local Arguments exists_ : simpl never.
Local Arguments isdir : simpl never.
Local Arguments read : simpl never.
Local Arguments resolve : simpl never.
Local Arguments strftime : simpl never.
Local Arguments sidecar_text : simpl never.

Section WithCwd.
Variable cwd : list string.

(** One round of the probe. *)
Lemma probe_step (watch rel base_name stem ext : string) (exts : list string) (st : state) :
  probe cwd watch rel base_name stem (ext :: exts) st =
    if exists_ cwd (disk st) (candidate watch rel stem ext) then
      match remove cwd (candidate watch rel stem ext) (disk st) with
      | Fail e fs' => Raise e (set_disk fs' st)
      | Done fs' =>
          Ok tt (emit ["File deleted: " +:+ base_name;
                       "Watch file also deleted: " +:+ stem +:+ ext; border]
                   (set_disk fs' st))
      end
    else probe cwd watch rel base_name stem exts st.
Proof.
  simpl. unfold bind at 1, path_exists, get. fold (candidate watch rel stem ext).
  destruct (exists_ cwd (disk st) (candidate watch rel stem ext)); [|done].
  unfold bind, syscall.
  destruct (remove cwd (candidate watch rel stem ext) (disk st)); [|done].
  unfold print. simpl. by rewrite !emit_emit.
Qed.

(** The disk a probe leaves: the old one, or the old one without one
    regular file. *)
Lemma probe_disk (watch rel base_name stem : string) (exts : list string) (st : state) :
  disk (final (probe cwd watch rel base_name stem exts st)) = disk st
  ∨ ∃ l data, disk st !! l = Some (File data)
              ∧ disk (final (probe cwd watch rel base_name stem exts st))
                = delete l (disk st).
Proof.
  induction exts as [|ext exts IH]; [by left|].
  rewrite probe_step.
  destruct (exists_ cwd (disk st) _); [|apply IH].
  destruct (remove_cases cwd (disk st) (candidate watch rel stem ext))
    as [(l & data & Hl & _ & ->)|[e ->]]; [|by left].
  right. by exists l, data.
Qed.

End WithCwd.
End ProbeFacts.

(** ** Files below the source root *)

Module MirrorFacts.
Import PyStr PyStrFacts PosixPath PosixPathFacts FSFacts Handler HandlerFacts.
Import FrameFacts MoreHandlerFacts.

Local Open Scope py_scope.

Local Arguments PosixPath.join : simpl never.
Local Arguments PosixPath.dirname : simpl never.
Local Arguments PosixPath.basename : simpl never.
Local Arguments PosixPath.splitext : simpl never.
Local Arguments PosixPath.relpath : simpl never.
Local Arguments txt_path_of : simpl never.
Local Arguments endswith : simpl never.
Local Arguments makedirs : simpl never.
Local Arguments write : simpl never.
Local Arguments remove : simpl never.
Local Arguments rmtree : simpl never.
Local Arguments move : simpl never.
Local Arguments exists_ : simpl never.
Local Arguments isdir : simpl never.
Local Arguments read : simpl never.
Local Arguments resolve : simpl never.
Local Arguments strftime : simpl never.
Local Arguments sidecar_text : simpl never.

Section WithEnvironment.
Variable cwd : list string.
Variable nfc : string → string.
Hypothesis nfc_txt : ∀ s, endswith (nfc s) ".txt" = endswith s ".txt".

(** What the callbacks compute for the file [name] in the directory [ds]
    below the source root [ws]. *)
Lemma under_root (watch archive src : string) (ws ds : list string) (name : string) :
  Forall (λ c, is_name c = true) ws →
  Forall (λ c, is_name c = true) ds →
  is_name name = true →
  watch = path_of ws →
  src = path_of (ws ++ ds ++ [name]) →
  let rel := PyStr.join sep (ds ++ [name]) in
  PosixPath.relpath cwd src watch = Some rel
  ∧ basename src = name
  ∧ basename rel = name
  ∧ created_txt nfc archive rel src = sidecar_of nfc archive ds name
  ∧ deleted_txt nfc archive rel = sidecar_of nfc archive ds name.
Proof.
  intros Hws Hds Hname -> -> rel.
  assert (Forall (λ c, is_name c = true) (ds ++ [name])) as Hrs.
  { apply Forall_app. split; [done|]. by apply Forall_singleton. }
  assert (basename (path_of (ws ++ ds ++ [name])) = name) as Hb.
  { rewrite List.app_assoc. apply basename_path_of; [|done]. by apply Forall_app. }
  split; [apply relpath_under; [done..|by destruct ds]|].
  split; [done|]. split; [by apply basename_join_names|].
  unfold created_txt, deleted_txt, txt_path_of, sidecar_of, rel.
  by rewrite Hb, basename_join_names, dirname_join_names.
Qed.

(** A successful [on_created] for a file below the source root that is
    not a [.txt] file, taken apart. *)
Lemma created_inv (now : datetime) (ev : event) (st st1 : state)
    (ws ds : list string) (name : string) :
  wf (disk st) →
  Forall (λ c, is_name c = true) ws →
  Forall (λ c, is_name c = true) ds →
  is_name name = true →
  watch_dir st = path_of ws →
  src_path ev = path_of (ws ++ ds ++ [name]) →
  is_directory ev = false →
  endswith name ".txt" = false →
  on_created cwd nfc now ev st = Ok tt st1 →
  let txt_path := sidecar_of nfc (archive_dir st) ds name in
  let text := sidecar_text (nfc name) (strftime now) in
  ∃ fs1 l,
    makedirs cwd (dirname txt_path) (disk st) = Done fs1
    ∧ grows (disk st) fs1 ∧ wf fs1
    ∧ isdir cwd fs1 (dirname txt_path) = true
    ∧ resolve cwd fs1 txt_path = Some l
    ∧ l ≠ []
    ∧ node_at fs1 l ≠ Some Dir
    ∧ is_dir_at fs1 (removelast l) = true
    ∧ st1 = emit ["File added: " +:+ nfc name;
                  "Corresponding source file also created."; border]
              (mark txt_path (set_disk (<[l := File text]> fs1) st)).
Proof.
  intros Hwf Hws Hds Hname Hwatch Hsrc Hd Htxt Hok txt_path text.
  destruct (under_root (watch_dir st) (archive_dir st) (src_path ev) ws ds name)
    as (Hr & Hb & _ & Etxt & _); [done..|].
  rewrite (on_created_file cwd nfc now ev st _ Hd Hr) in Hok. cbv zeta in Hok.
  rewrite Etxt, Hb in Hok. fold txt_path text in Hok.
  pose proof (makedirs_spec cwd (dirname txt_path) (disk st) Hwf) as Hspec.
  destruct (makedirs cwd (dirname txt_path) (disk st)) as [fs1|e fs']; [|done].
  destruct Hspec as (Hg & Hwf1 & Hdir).
  assert (endswith txt_path ".txt" = true) as Hend by apply sidecar_of_endswith.
  assert (eqb (src_path ev) txt_path = false) as Hne.
  { apply eqb_false. intros E. rewrite <- E in Hend.
    apply basename_endswith_txt in Hend. congruence. }
  rewrite Hne, nfc_txt, Htxt in Hok.
  destruct (resolve_cut cwd fs1 txt_path (txt_basename_is_name _ Hend) Hdir)
    as (l0 & _ & Hl0 & Hres).
  destruct (write_cases cwd fs1 txt_path text)
    as [(l & Hl & Hn & _ & Hw)|[(l & _ & _ & _ & Hw)|[e Hw]]];
    rewrite Hw in Hok; [|done..].
  injection Hok as <-. exists fs1, l. rewrite Hres in Hl. injection Hl as <-.
  repeat split; try done.
  - apply snoc_nonnil.
  - by rewrite removelast_snoc.
Qed.

(** [on_deleted] for a file below the source root that is not a [.txt]
    file, while its sidecar is there. *)
Lemma deleted_under_root (ev : event) (st : state)
    (ws ds : list string) (name data : string) :
  Forall (λ c, is_name c = true) ws →
  Forall (λ c, is_name c = true) ds →
  is_name name = true →
  watch_dir st = path_of ws →
  src_path ev = path_of (ws ++ ds ++ [name]) →
  is_directory ev = false →
  endswith name ".txt" = false →
  let txt_path := sidecar_of nfc (archive_dir st) ds name in
  read cwd (disk st) txt_path = Some data →
  ∃ l,
    resolve cwd (disk st) txt_path = Some l
    ∧ disk st !! l = Some (File data)
    ∧ on_deleted cwd nfc ev st
      = Ok tt (emit ["File deleted: " +:+ nfc name;
                     "Corresponding source file also deleted."; border]
                 (set_disk (delete l (disk st)) st)).
Proof.
  intros Hws Hds Hname Hwatch Hsrc Hd Htxt txt_path Hread.
  destruct (under_root (watch_dir st) (archive_dir st) (src_path ev) ws ds name)
    as (Hr & _ & Hb & _ & Etxt); [done..|].
  rewrite (on_deleted_file cwd nfc ev st _ Hd Hr). cbv zeta.
  rewrite Etxt, Hb. fold txt_path.
  unfold drop_sidecar. rewrite (read_exists cwd _ _ _ Hread).
  apply read_spec in Hread as (l & Hres & Hne & Hl).
  rewrite (remove_done cwd _ _ _ _ Hres Hne Hl), nfc_txt, Htxt.
  by exists l.
Qed.

(** [on_deleted] for a file below the source root that is not a [.txt]
    file, while nothing is at the sidecar path. *)
Lemma deleted_nothing (ev : event) (st : state) (ws ds : list string) (name : string) :
  Forall (λ c, is_name c = true) ws →
  Forall (λ c, is_name c = true) ds →
  is_name name = true →
  watch_dir st = path_of ws →
  src_path ev = path_of (ws ++ ds ++ [name]) →
  is_directory ev = false →
  endswith name ".txt" = false →
  exists_ cwd (disk st) (sidecar_of nfc (archive_dir st) ds name) = false →
  on_deleted cwd nfc ev st = Ok tt st.
Proof.
  intros Hws Hds Hname Hwatch Hsrc Hd Htxt Hex.
  destruct (under_root (watch_dir st) (archive_dir st) (src_path ev) ws ds name)
    as (Hr & _ & Hb & _ & Etxt); [done..|].
  rewrite (on_deleted_file cwd nfc ev st _ Hd Hr). cbv zeta.
  rewrite Etxt, Hb. unfold drop_sidecar. by rewrite Hex, nfc_txt, Htxt.
Qed.

Lemma exists_deleted (fs : gmap (list string) node) (p data : string) (l : list string) :
  resolve cwd fs p = Some l → l ≠ [] → fs !! l = Some (File data) →
  exists_ cwd (delete l fs) p = false.
Proof.
  intros Hres Hne Hl. unfold exists_.
  rewrite (resolve_same_dirs cwd fs (delete l fs) p (same_dirs_delete_file fs l data Hl)).
  rewrite Hres. destruct l as [|c l]; [done|]. simpl. rewrite lookup_delete_eq.
  apply bool_decide_eq_false. by intros [? ?].
Qed.

Lemma set_disk_id (st : state) : set_disk (disk st) st = st.
Proof. by destruct st. Qed.

End WithEnvironment.
End MirrorFacts.

(** ** Joined paths *)

Module PathMore.
Import PyStr PyStrFacts PosixPath PosixPathFacts.

Lemma startswith_has_char (a : ascii) (s : string) :
  startswith s (String a "") = true → has_char a s = true.
Proof.
  destruct s as [|b s]; [done|]. simpl. rewrite startswith_nil, andb_true_r.
  intros ->%bool_decide_eq_true. by rewrite is_char_refl.
Qed.

Lemma endswith_has_char (a : ascii) (s : string) :
  endswith s (String a "") = true → has_char a s = true.
Proof.
  intros [x ->]%endswith_spec. rewrite has_char_app. simpl.
  by rewrite is_char_refl, orb_true_r.
Qed.

Lemma join2_has_sep (path b : string) :
  nonempty path = true → has_char sep (join2 path b) = true.
Proof.
  intros Hn. unfold join2. destruct (startswith b "/") eqn:Hb.
  { by apply startswith_has_char. }
  rewrite Hn. simpl. destruct (endswith path "/") eqn:He.
  - rewrite has_char_app, (endswith_has_char _ _ He). done.
  - rewrite !has_char_app. simpl. by rewrite orb_true_r.
Qed.

Lemma join2_nonempty (path b : string) :
  nonempty path = true → nonempty (join2 path b) = true.
Proof.
  intros Hn. pose proof (join2_has_sep path b Hn) as H. by destruct (join2 path b).
Qed.

End PathMore.

(** ** Moves *)

Module MoveFacts.
Import PyStr PyStrFacts PosixPath PosixPathFacts FSFacts Handler HandlerFacts.
Import FrameFacts MoreHandlerFacts MirrorFacts PathMore.

Local Open Scope py_scope.

Local Arguments PosixPath.join : simpl never.
Local Arguments PosixPath.dirname : simpl never.
Local Arguments PosixPath.basename : simpl never.
Local Arguments PosixPath.splitext : simpl never.
Local Arguments PosixPath.relpath : simpl never.
Local Arguments txt_path_of : simpl never.
Local Arguments endswith : simpl never.
Local Arguments makedirs : simpl never.
Local Arguments write : simpl never.
Local Arguments remove : simpl never.
Local Arguments rmtree : simpl never.
Local Arguments move : simpl never.
Local Arguments exists_ : simpl never.
Local Arguments isdir : simpl never.
Local Arguments read : simpl never.
Local Arguments resolve : simpl never.
Local Arguments strftime : simpl never.
Local Arguments sidecar_text : simpl never.

Lemma walk_dot (fs : gmap (list string) node) (cur : list string) (c : string) :
  is_dot c = true → walk fs cur [c] = if is_dir_at fs cur then Some cur else None.
Proof. intros H. simpl. by rewrite H. Qed.

Section WithEnvironment.
Variable cwd : list string.
Variable nfc : string → string.
Hypothesis nfc_txt : ∀ s, endswith (nfc s) ".txt" = endswith s ".txt".

Lemma txt_path_has_sep (archive rel name_without_ext : string) :
  nonempty archive = true →
  has_char sep (txt_path_of archive rel name_without_ext) = true.
Proof.
  intros Hn. unfold txt_path_of, PosixPath.join. simpl.
  apply join2_has_sep. by apply join2_nonempty.
Qed.

(** A regular file moved onto a path that is not a directory. *)
Lemma move_file (fs : gmap (list string) node) (src dst data : string) (l l' : list string) :
  resolve cwd fs src = Some l → l ≠ [] → fs !! l = Some (File data) →
  resolve cwd fs dst = Some l' → isdir cwd fs dst = false →
  move cwd src dst fs = Done (<[l' := File data]> (delete l fs)).
Proof.
  intros Hres Hne Hl Hres' Hnotdir.
  pose proof (isdir_false_node cwd fs _ _ Hres' Hnotdir) as Hnode.
  unfold move, rename. rewrite Hnotdir, Hres, Hres'.
  destruct l as [|c l]; [done|]. simpl node_at at 1. rewrite Hl.
  by destruct (node_at fs l') as [[]|].
Qed.

(** The sidecar path [on_moved] computes below the source root. *)
Lemma moved_txt_under_root (archive : string) (ds : list string) (name : string) :
  Forall (λ c, is_name c = true) ds → is_name name = true →
  moved_txt nfc archive (PyStr.join sep (ds ++ [name]))
  = PosixPath.join archive
      [PyStr.join sep ds; nfc (fst (splitext name)) +:+ ".txt"].
Proof.
  intros Hds Hname. unfold moved_txt, txt_path_of.
  by rewrite basename_join_names, dirname_join_names.
Qed.

(** A directory named with [.] at its end: the same directory, and a
    last name that [rmdir] refuses. *)
Lemma resolve_join_dot (fs : gmap (list string) node) (archive : string) (l : list string) :
  resolve cwd fs archive = Some l → is_dir_at fs l = true →
  resolve cwd fs (PosixPath.join archive ["."]) = Some l
  ∧ last_name (PosixPath.join archive ["."]) = Some ".".
Proof.
  intros Hres Hdir.
  assert (nonempty archive = true) as Hn.
  { unfold resolve in Hres. by destruct (nonempty archive). }
  assert (archive ≠ "") as Hne by (by destruct archive).
  assert (∃ pre x, PosixPath.join archive ["."] = archive +:+ x
                   ∧ PyStr.split sep (archive +:+ x) = pre ++ ["."]
                   ∧ (PyStr.split sep archive = pre ++ [""]
                      ∨ PyStr.split sep archive = pre)) as (pre & x & -> & Hsp & Hpre).
  { unfold PosixPath.join. simpl. unfold join2. simpl. rewrite Hn. simpl.
    destruct (endswith archive "/") eqn:He.
    - apply endswith_spec in He as [pre ->]. exists (PyStr.split sep pre), ".".
      split; [done|]. rewrite sapp_assoc.
      change ("/" +:+ ".") with (String sep "."). rewrite !split_app_sep. auto.
    - exists (PyStr.split sep archive), "/.". split; [done|].
      change "/." with (String sep "."). rewrite split_app_sep. auto. }
  unfold resolve, last_name in *. rewrite Hn in Hres.
  assert (nonempty (archive +:+ x) = true) as -> by (by destruct archive).
  assert (isabs (archive +:+ x) = isabs archive) as ->.
  { unfold isabs. by apply startswith_char_app. }
  rewrite Hsp. split.
  - rewrite walk_app. destruct Hpre as [Hpre|Hpre]; rewrite Hpre in Hres.
    + rewrite walk_app in Hres.
      destruct (walk fs _ pre) as [l0|]; [|done].
      rewrite walk_dot in Hres |- * by done.
      by destruct (is_dir_at fs l0).
    + rewrite Hres, walk_dot by done. by rewrite Hdir.
  - by rewrite filter_app, last_app.
Qed.

End WithEnvironment.
End MoveFacts.

(** ** Paths made of components *)

Module CompFacts.
Import PyStr PyStrFacts PosixPath PosixPathFacts FS FSFacts FrameFacts PathMore.

Lemma is_comp_spec (c : string) : is_comp c = true ↔ c ≠ "" ∧ has_char sep c = false.
Proof.
  unfold is_comp. rewrite andb_true_iff, negb_true_iff.
  destruct c; simpl; intuition congruence.
Qed.

Lemma name_is_comp (c : string) : is_name c = true → is_comp c = true.
Proof. intros (? & _ & _ & ?)%is_name_spec. by apply is_comp_spec. Qed.

Lemma names_are_comps (cs : list string) :
  Forall (λ c, is_name c = true) cs → Forall (λ c, is_comp c = true) cs.
Proof. intros H. eapply Forall_impl; [exact H|]. apply name_is_comp. Qed.

Lemma comp_not_startswith_sep (c : string) : is_comp c = true → startswith c "/" = false.
Proof.
  intros (Hne & Hs)%is_comp_spec. destruct c as [|a c]; [done|].
  simpl in *. apply orb_false_iff in Hs as [Ha _]. apply is_char_false in Ha.
  apply andb_false_iff. left. by apply bool_decide_eq_false.
Qed.

Lemma join_comps_shape (l : list string) :
  Forall (λ c, is_comp c = true) l → l ≠ [] →
  nonempty (PyStr.join sep l) = true ∧ endswith (PyStr.join sep l) "/" = false
  ∧ startswith (PyStr.join sep l) "/" = false.
Proof.
  induction 1 as [|c l Hc Hl IH]; [done|]. intros _.
  pose proof Hc as (Hne & Hs)%is_comp_spec.
  destruct l as [|d l].
  - simpl. split; [by destruct c|]. split.
    + rewrite <- (sapp_nil_l c). by apply nosep_not_endswith_sep.
    + by apply comp_not_startswith_sep.
  - destruct IH as (Hn & IH & _); [done|].
    change (PyStr.join sep (c :: d :: l)) with (c +:+ String sep (PyStr.join sep (d :: l))).
    split; [by destruct c|]. split.
    + replace (c +:+ String sep (PyStr.join sep (d :: l)))
        with ((c +:+ "/") +:+ PyStr.join sep (d :: l)) by (by rewrite sapp_assoc).
      rewrite endswith_char_app; [done|]. intros E. by rewrite E in Hn.
    + rewrite startswith_char_app by done. by apply comp_not_startswith_sep.
Qed.

Lemma join_comps_nosep (l : list string) :
  Forall (λ c, is_comp c = true) l → Forall (λ x, has_char sep x = false) l.
Proof.
  intros H. eapply Forall_impl; [exact H|]. by intros c (_ & ?)%is_comp_spec.
Qed.

Lemma cut_join_comps (cs : list string) (t : string) :
  Forall (λ c, is_comp c = true) cs → is_comp t = true →
  cut (PyStr.join sep (cs ++ [t])) =
    (match cs with [] => "" | _ => PyStr.join sep cs +:+ "/" end, t).
Proof.
  intros Hcs (_ & Hn)%is_comp_spec.
  destruct cs as [|d cs]; [by apply cut_nosep|].
  rewrite join_app_one by done. by apply cut_app.
Qed.

Lemma basename_join_comps (cs : list string) (t : string) :
  Forall (λ c, is_comp c = true) cs → is_comp t = true →
  basename (PyStr.join sep (cs ++ [t])) = t.
Proof. intros. unfold basename. by rewrite cut_join_comps. Qed.

Lemma dirname_join_comps (cs : list string) (t : string) :
  Forall (λ c, is_comp c = true) cs → is_comp t = true →
  dirname (PyStr.join sep (cs ++ [t])) = PyStr.join sep cs.
Proof.
  intros Hcs Ht. unfold dirname. rewrite cut_join_comps by done.
  destruct cs as [|d cs]; [done|]. simpl fst.
  destruct (join_comps_shape (d :: cs)) as (? & ? & _); [done..|].
  by apply strip_head_dir.
Qed.

Lemma join_app (c : ascii) (a b : list string) :
  a ≠ [] → b ≠ [] → PyStr.join c (a ++ b) = PyStr.join c a +:+ String c (PyStr.join c b).
Proof.
  intros Ha Hb. induction a as [|x a IH]; [done|].
  destruct a as [|y a].
  - destruct b; done.
  - change (PyStr.join c ((x :: y :: a) ++ b))
      with (x +:+ String c (PyStr.join c ((y :: a) ++ b))).
    rewrite IH by done.
    change (PyStr.join c (x :: y :: a)) with (x +:+ String c (PyStr.join c (y :: a))).
    by rewrite !sapp_assoc.
Qed.

(** [join(p, d, n)] for a directory [d] and a name [n], both relative. *)
Lemma join_dir_name (p d n : string) :
  nonempty p = true → endswith p "/" = false →
  nonempty d = true → startswith d "/" = false → endswith d "/" = false →
  startswith n "/" = false →
  PosixPath.join p [d; n] = p +:+ String sep (d +:+ String sep n).
Proof.
  intros Hp Hpe Hd Hds Hde Hn. unfold PosixPath.join. simpl.
  unfold join2 at 2. rewrite Hds, Hp, Hpe. simpl.
  unfold join2. rewrite Hn.
  assert (nonempty (p +:+ "/" +:+ d) = true) as -> by (by destruct p).
  assert (endswith (p +:+ "/" +:+ d) "/" = false) as ->.
  { replace (p +:+ "/" +:+ d) with ((p +:+ "/") +:+ d) by (by rewrite sapp_assoc).
    rewrite endswith_char_app; [done|]. by destruct d. }
  simpl. by rewrite !sapp_assoc.
Qed.

Lemma split_dir_name (p d n : string) :
  PyStr.split sep (p +:+ String sep (d +:+ String sep n))
  = PyStr.split sep p ++ PyStr.split sep d ++ PyStr.split sep n.
Proof. by rewrite !split_app_sep. Qed.

Lemma path_of_shape (cs : list string) :
  Forall (λ c, is_name c = true) cs → cs ≠ [] →
  nonempty (path_of cs) = true ∧ endswith (path_of cs) "/" = false.
Proof.
  intros Hcs Hne. split; [done|]. unfold path_of.
  destruct (join_names_shape cs Hcs Hne) as (Hn & He & _).
  rewrite endswith_char_app; [done|]. intros E. by rewrite E in Hn.
Qed.

(** The components of [join(path_of ws, join(cs), n)]. *)
Lemma split_join_path_of (ws cs : list string) (n : string) :
  Forall (λ c, is_name c = true) ws → ws ≠ [] →
  Forall (λ c, is_comp c = true) cs → cs ≠ [] →
  is_comp n = true →
  let p := PosixPath.join (path_of ws) [PyStr.join sep cs; n] in
  nonempty p = true ∧ isabs p = true
  ∧ PyStr.split sep p = "" :: ws ++ cs ++ [n].
Proof.
  intros Hws Hwne Hcs Hcne Hn p.
  destruct (path_of_shape ws Hws Hwne) as (Hp & Hpe).
  destruct (join_comps_shape cs Hcs Hcne) as (Hd & Hde & Hds).
  pose proof (comp_not_startswith_sep n Hn) as Hns.
  apply is_comp_spec in Hn as (_ & Hnn).
  unfold p. rewrite (join_dir_name _ _ _ Hp Hpe Hd Hds Hde Hns).
  split; [by unfold path_of|].
  split; [unfold isabs, path_of; simpl; by rewrite startswith_nil|].
  rewrite split_dir_name, split_path_of by done.
  rewrite split_join by (by try apply join_comps_nosep).
  rewrite split_nosep by done. by destruct ws.
Qed.

Lemma common_diverge (ps xs ys : list string) (w a : string) :
  w ≠ a → common (ps ++ w :: xs) (ps ++ a :: ys) = length ps.
Proof.
  intros Hwa. induction ps as [|p ps IH].
  - simpl. apply eqb_false in Hwa. by rewrite Hwa.
  - simpl. by rewrite eqb_refl, IH.
Qed.

(** A path in a sibling of the start directory: one level up, then down. *)
Lemma relpath_sibling (cwd ps rs : list string) (w a : string) :
  Forall (λ c, is_name c = true) ps → Forall (λ c, is_name c = true) rs →
  is_name w = true → is_name a = true → w ≠ a →
  relpath cwd (path_of (ps ++ a :: rs)) (path_of (ps ++ [w]))
  = Some (PyStr.join sep (".." :: a :: rs)).
Proof.
  intros Hps Hrs Hw Ha Hwa. unfold relpath.
  change (nonempty (path_of (ps ++ a :: rs))) with true. simpl negb. cbv iota.
  assert (Forall (λ c, is_name c = true) (a :: rs)) as Har by (by constructor).
  assert (Forall (λ c, is_name c = true) (ps ++ [w])) as Hpw.
  { apply Forall_app. split; [done|]. by apply Forall_singleton. }
  assert (Forall (λ c, is_name c = true) (ps ++ a :: rs)) as Hpa.
  { by apply Forall_app. }
  rewrite (abspath_path_of cwd _ Hpw), (abspath_path_of cwd _ Hpa).
  rewrite (nonempty_comps_path_of _ Hpw), (nonempty_comps_path_of _ Hpa).
  rewrite common_diverge, length_app, drop_app_length by done.
  replace (length ps + length [w] - length ps) with 1 by (simpl; lia).
  change (repeat pardir 1 ++ a :: rs) with (".." :: a :: rs). cbv iota.
  f_equal. by apply join_names.
Qed.

(** The location a walk ends at does not depend on the tree. *)
Lemma walk_up (fs : gmap (list string) node) (ws more l : list string) :
  Forall (λ c, is_name c = true) ws → Forall (λ c, is_name c = true) more →
  walk fs [] ("" :: ws ++ ".." :: more) = Some l → l = removelast ws ++ more.
Proof.
  intros Hws Hmore. change (walk fs [] ("" :: ws ++ ".." :: more))
    with (walk fs [] (ws ++ ".." :: more)).
  rewrite walk_app. destruct (walk fs [] ws) as [l1|] eqn:E1; [|done].
  apply walk_names in E1 as ->; [|done]. simpl.
  destruct (is_dir_at fs ws); [|done].
  change (is_dot "..") with false. change (eqb ".." "..") with true. cbv iota.
  by intros ->%walk_names.
Qed.

Lemma walk_down (fs : gmap (list string) node) (cs l : list string) :
  Forall (λ c, is_name c = true) cs →
  walk fs [] (PyStr.split sep (path_of cs)) = Some l → l = cs.
Proof.
  intros Hcs. rewrite split_path_of by done. destruct cs as [|c cs].
  - by intros [= <-].
  - change (walk fs [] ("" :: c :: cs)) with (walk fs [] (c :: cs)).
    by intros ->%walk_names.
Qed.

Lemma splitext_fst_nosep (p : string) :
  has_char sep p = false → has_char sep (fst (splitext p)) = false.
Proof.
  intros Hp. unfold splitext. rewrite cut_nosep by done.
  destruct (rbreak extsep p) as [[stem ext]|] eqn:E; [|done].
  destruct (all_char extsep stem); [done|]. simpl.
  apply rbreak_some in E as (t' & -> & -> & _).
  rewrite has_char_app in Hp. rewrite sapp_nil_l.
  by apply orb_false_iff in Hp as [-> _].
Qed.

(** A name with an extension of three characters or more. *)
Lemma with_ext_is_name (x e : string) :
  has_char sep x = false → has_char sep e = false → 3 ≤ String.length e →
  is_name (x +:+ e) = true.
Proof.
  intros Hx He Hlen. apply is_name_spec.
  repeat split; [| | |by rewrite has_char_app, Hx, He];
    intros E; apply (f_equal String.length) in E;
    rewrite slength_app in E; simpl in E; lia.
Qed.

Lemma possible_extensions_shape :
  Forall (λ e, has_char sep e = false ∧ 3 ≤ String.length e) Handler.possible_extensions.
Proof. unfold Handler.possible_extensions. repeat constructor; simpl; lia. Qed.

(** [makedirs] along names makes directories on the way and nowhere
    else. *)
Lemma mkchain_local (cs : list string) :
  Forall (λ c, is_name c = true) cs →
  ∀ (fs : gmap (list string) node) (cur k : list string),
    tree_of (mkchain fs cur cs) !! k = fs !! k
    ∨ (k `prefix_of` (cur ++ cs) ∧ fs !! k = None
       ∧ tree_of (mkchain fs cur cs) !! k = Some Dir).
Proof.
  induction 1 as [|c cs Hc _ IH]; intros fs cur k; [by left|].
  simpl. apply is_name_spec in Hc as (H1 & H2 & H3 & _).
  apply eqb_false in H1, H2, H3. unfold is_dot. rewrite H1, H2, H3. simpl.
  rewrite node_at_snoc.
  assert (cur ++ c :: cs = (cur ++ [c]) ++ cs) as Happ by (by rewrite <- List.app_assoc).
  destruct (fs !! (cur ++ [c])) as [[data|]|] eqn:En.
  - by left.
  - rewrite Happ. apply IH.
  - rewrite Happ.
    destruct (IH (<[cur ++ [c] := Dir]> fs) (cur ++ [c]) k) as [E|(Hp & E1 & E2)].
    + destruct (decide (cur ++ [c] = k)) as [<-|Hne].
      * right. rewrite lookup_insert_eq in E. split; [|done].
        by apply prefix_app_r.
      * left. by rewrite lookup_insert_ne in E.
    + right. split; [done|]. split; [|done].
      destruct (decide (cur ++ [c] = k)) as [<-|Hne].
      * by rewrite lookup_insert_eq in E1.
      * by rewrite lookup_insert_ne in E1.
Qed.

Lemma dirname_path_of (cs : list string) (t : string) :
  Forall (λ c, is_name c = true) cs → is_name t = true →
  dirname (path_of (cs ++ [t])) = path_of cs.
Proof.
  intros Hcs (_ & _ & _ & Ht)%is_name_spec. unfold dirname, path_of.
  destruct cs as [|c cs].
  - change ("/" +:+ PyStr.join sep ([] ++ [t])) with ("" +:+ String sep t).
    by rewrite cut_app.
  - rewrite join_app_one by done. rewrite <- sapp_assoc. rewrite cut_app by done.
    simpl fst. destruct (path_of_shape (c :: cs)) as (Hn & He); [done..|].
    by apply strip_head_dir.
Qed.

(** The mirror of a directory and a name below an archive root given by
    its names. *)
Lemma join_path_of (cs ds : list string) (t : string) :
  Forall (λ c, is_name c = true) cs → Forall (λ c, is_name c = true) ds →
  is_name t = true →
  PosixPath.join (path_of cs) [PyStr.join sep ds; t] = path_of (cs ++ ds ++ [t]).
Proof.
  intros Hcs Hds Ht.
  pose proof (name_not_startswith_sep t Ht) as Hts.
  assert (∀ xs, Forall (λ c, is_name c = true) xs →
            join2 (path_of xs) t = path_of (xs ++ [t])) as Hlast.
  { intros xs Hxs. unfold join2. rewrite Hts. destruct xs as [|x xs]; [done|].
    destruct (path_of_shape (x :: xs)) as (Hn & He); [done..|].
    rewrite Hn, He. simpl negb. simpl orb. cbv iota.
    unfold path_of. rewrite join_app_one by done.
    change ("/" +:+ t) with (String sep t). by rewrite !sapp_assoc. }
  unfold PosixPath.join. simpl. destruct ds as [|d ds].
  - simpl PyStr.join. destruct cs as [|c cs]; [exact (Hlast [] Hcs)|].
    destruct (path_of_shape (c :: cs)) as (Hn & He); [done..|].
    assert (join2 (path_of (c :: cs)) "" = path_of (c :: cs) +:+ "/") as ->.
    { unfold join2. change (startswith "" "/") with false. cbv iota.
      rewrite Hn, He. reflexivity. }
    unfold join2. rewrite Hts, endswith_app, orb_true_r.
    change ((c :: cs) ++ [] ++ [t]) with ((c :: cs) ++ [t]).
    unfold path_of. rewrite join_app_one by done. by rewrite !sapp_assoc.
  - assert (join2 (path_of cs) (PyStr.join sep (d :: ds)) = path_of (cs ++ d :: ds)) as ->.
    { destruct (join_names_shape (d :: ds)) as (Hn & He & Hs); [done..|].
      unfold join2. rewrite Hs. destruct cs as [|c cs]; [done|].
      destruct (path_of_shape (c :: cs)) as (Hn' & He'); [done..|].
      rewrite Hn', He'. simpl negb. simpl orb. cbv iota.
      unfold path_of. rewrite join_app by done.
      change ("/" +:+ PyStr.join sep (d :: ds)) with (String sep (PyStr.join sep (d :: ds))).
      by rewrite !sapp_assoc. }
    rewrite Hlast by (by apply Forall_app). by rewrite <- List.app_assoc.
Qed.

End CompFacts.

(** ** Where the computed paths lead *)

Module PlaceFacts.
Import PyStr PyStrFacts PosixPath PosixPathFacts FSFacts Handler HandlerFacts.
Import FrameFacts MoreHandlerFacts MirrorFacts PathMore MoveFacts CompFacts.
Import ProbeFacts.

Local Open Scope py_scope.

Local Arguments PosixPath.join : simpl never.
Local Arguments PosixPath.dirname : simpl never.
Local Arguments PosixPath.basename : simpl never.
Local Arguments PosixPath.splitext : simpl never.
Local Arguments PosixPath.relpath : simpl never.
Local Arguments txt_path_of : simpl never.
Local Arguments endswith : simpl never.
Local Arguments makedirs : simpl never.
Local Arguments write : simpl never.
Local Arguments remove : simpl never.
Local Arguments rmtree : simpl never.
Local Arguments move : simpl never.
Local Arguments exists_ : simpl never.
Local Arguments isdir : simpl never.
Local Arguments read : simpl never.
Local Arguments resolve : simpl never.
Local Arguments strftime : simpl never.
Local Arguments sidecar_text : simpl never.

Section WithEnvironment.
Variable cwd : list string.
Variable nfc : string → string.
Hypothesis nfc_txt : ∀ s, endswith (nfc s) ".txt" = endswith s ".txt".
(** Normalization neither makes nor takes away a separator. *)
Hypothesis nfc_sep : ∀ s, has_char sep (nfc s) = has_char sep s.

Lemma stem_nosep (name : string) :
  is_name name = true → has_char sep (fst (splitext (nfc name))) = false.
Proof.
  intros (_ & _ & _ & Hn)%is_name_spec. apply splitext_fst_nosep. by rewrite nfc_sep.
Qed.

Lemma txt_is_name (name : string) :
  is_name name = true →
  is_name (nfc (fst (splitext (nfc name))) +:+ ".txt") = true.
Proof.
  intros Hn. apply with_ext_is_name; [|done|simpl; lia].
  rewrite nfc_sep. by apply stem_nosep.
Qed.

Lemma candidate_is_name (name ext : string) :
  is_name name = true → ext ∈ possible_extensions →
  is_name (fst (splitext (nfc name)) +:+ ext) = true.
Proof.
  intros Hn Hext. pose proof possible_extensions_shape as Hshape.
  rewrite Forall_forall in Hshape. destruct (Hshape ext Hext) as [He Hlen].
  apply with_ext_is_name; [by apply stem_nosep|done..].
Qed.

(** [makedirs] of an absolute path given by its names. *)
Lemma makedirs_path_of (fs : gmap (list string) node) (cs k : list string) :
  Forall (λ c, is_name c = true) cs →
  tree_of (makedirs cwd (path_of cs) fs) !! k = fs !! k
  ∨ (k `prefix_of` cs ∧ fs !! k = None
     ∧ tree_of (makedirs cwd (path_of cs) fs) !! k = Some Dir).
Proof.
  intros Hcs. unfold makedirs. change (nonempty (path_of cs)) with true. cbv iota.
  rewrite isabs_path_of. cbv zeta iota. change (is_dir_at fs []) with true. cbv iota.
  rewrite split_path_of by done. destruct cs as [|c cs]; [by left|].
  change (mkchain fs [] ("" :: c :: cs)) with (mkchain fs [] (c :: cs)).
  apply (mkchain_local (c :: cs) Hcs fs [] k).
Qed.

Lemma resolve_path_of (fs : gmap (list string) node) (cs l : list string) :
  Forall (λ c, is_name c = true) cs →
  resolve cwd fs (path_of cs) = Some l → l = cs.
Proof.
  intros Hcs. unfold resolve. change (nonempty (path_of cs)) with true. cbv iota.
  rewrite isabs_path_of. by apply walk_down.
Qed.

(** Where a path through a sibling directory leads. *)
Lemma resolve_sibling (fs : gmap (list string) node) (ps ds l : list string)
    (x a n : string) :
  Forall (λ c, is_name c = true) ps → Forall (λ c, is_name c = true) ds →
  is_name x = true → is_name a = true → is_name n = true →
  resolve cwd fs (PosixPath.join (path_of (ps ++ [x])) [PyStr.join sep (".." :: a :: ds); n])
  = Some l →
  l = ps ++ a :: ds ++ [n].
Proof.
  intros Hps Hds Hx Ha Hn.
  assert (Forall (λ c, is_name c = true) (ps ++ [x])) as Hpx.
  { apply Forall_app. split; [done|]. by apply Forall_singleton. }
  assert (Forall (λ c, is_comp c = true) (".." :: a :: ds)) as Hcs.
  { constructor; [done|]. apply names_are_comps. by constructor. }
  destruct (split_join_path_of (ps ++ [x]) (".." :: a :: ds) n)
    as (Hne & Habs & Hsplit); [done|apply snoc_nonnil|done|done|by apply name_is_comp|].
  unfold resolve. rewrite Hne, Habs, Hsplit.
  change ("" :: (ps ++ [x]) ++ (".." :: a :: ds) ++ [n])
    with ("" :: (ps ++ [x]) ++ ".." :: (a :: ds ++ [n])).
  intros Hw%walk_up; [|done|].
  - by rewrite removelast_snoc in Hw.
  - constructor; [done|]. apply Forall_app. split; [done|]. by apply Forall_singleton.
Qed.

(** The disk a probe leaves, with the path that was removed. *)
Lemma probe_gone (watch rel base_name stem : string) (exts : list string) (st : state) :
  disk (final (probe cwd watch rel base_name stem exts st)) = disk st
  ∨ ∃ ext l data,
      ext ∈ exts
      ∧ resolve cwd (disk st) (candidate watch rel stem ext) = Some l
      ∧ disk st !! l = Some (File data)
      ∧ disk (final (probe cwd watch rel base_name stem exts st)) = delete l (disk st).
Proof.
  induction exts as [|ext exts IH]; [by left|].
  rewrite probe_step.
  destruct (exists_ cwd (disk st) _).
  2:{ destruct IH as [IH|(e & l & data & He & IH)]; [by left|].
      right. exists e, l, data. split; [by apply list_elem_of_further|done]. }
  destruct (remove_cases cwd (disk st) (candidate watch rel stem ext))
    as [(l & data & Hl & Hres & ->)|[e ->]]; [|by left].
  right. exists ext, l, data. split; [apply list_elem_of_here|done].
Qed.

End WithEnvironment.
End PlaceFacts.

(** ** The state a creation leaves *)

Module RunFacts.
Import PyStr PyStrFacts PosixPath PosixPathFacts FSFacts Handler HandlerFacts.
Import FrameFacts MoreHandlerFacts MirrorFacts PathMore MoveFacts CompFacts.
Import PlaceFacts.

Local Open Scope py_scope.

Local Arguments PosixPath.join : simpl never.
Local Arguments PosixPath.dirname : simpl never.
Local Arguments PosixPath.basename : simpl never.
Local Arguments PosixPath.splitext : simpl never.
Local Arguments PosixPath.relpath : simpl never.
Local Arguments txt_path_of : simpl never.
Local Arguments endswith : simpl never.
Local Arguments makedirs : simpl never.
Local Arguments write : simpl never.
Local Arguments remove : simpl never.
Local Arguments rmtree : simpl never.
Local Arguments move : simpl never.
Local Arguments exists_ : simpl never.
Local Arguments isdir : simpl never.
Local Arguments read : simpl never.
Local Arguments resolve : simpl never.
Local Arguments strftime : simpl never.
Local Arguments sidecar_text : simpl never.

(** In a well-formed tree a directory is reached by walking to it, and so
    is whatever is stored. *)
Lemma walk_dir (fs : gmap (list string) node) (cs : list string) :
  wf fs → Forall (λ c, is_name c = true) cs → is_dir_at fs cs = true →
  walk fs [] cs = Some cs.
Proof.
  intros Hwf. induction cs as [|c cs IH] using rev_ind; [done|].
  intros [Hcs Hc]%Forall_app Hd. rewrite Forall_singleton in Hc.
  apply is_dir_at_lookup in Hd as [Hd|Hd]; [by destruct (snoc_nonnil _ _ Hd)|].
  pose proof (Hwf _ _ Hd) as Hp. rewrite removelast_snoc in Hp.
  rewrite walk_app, IH by done. by apply walk_name.
Qed.

Lemma walk_stored (fs : gmap (list string) node) (cs : list string) (c : string) :
  wf fs → Forall (λ c, is_name c = true) cs → is_name c = true →
  is_Some (fs !! (cs ++ [c])) →
  walk fs [] (cs ++ [c]) = Some (cs ++ [c]).
Proof.
  intros Hwf Hcs Hc [n Hn].
  pose proof (Hwf _ _ Hn) as Hp. rewrite removelast_snoc in Hp.
  rewrite walk_app, walk_dir by done. by apply walk_name.
Qed.


Section WithEnvironment.
Variable cwd : list string.
Variable nfc : string → string.
Hypothesis nfc_txt : ∀ s, endswith (nfc s) ".txt" = endswith s ".txt".
Hypothesis nfc_sep : ∀ s, has_char sep (nfc s) = has_char sep s.

Lemma resolve_stored (fs : gmap (list string) node) (cs : list string) (c : string) :
  wf fs → Forall (λ c, is_name c = true) cs → is_name c = true →
  is_Some (fs !! (cs ++ [c])) →
  resolve cwd fs (path_of (cs ++ [c])) = Some (cs ++ [c]).
Proof.
  intros Hwf Hcs Hc Hn. unfold resolve.
  change (nonempty (path_of (cs ++ [c]))) with true. cbv iota.
  assert (PyStr.split sep (path_of (cs ++ [c])) = "" :: cs ++ [c]) as ->.
  { rewrite split_path_of.
    - destruct (cs ++ [c]) as [|x xs] eqn:E; [by destruct (snoc_nonnil _ _ E)|done].
    - apply Forall_app. split; [done|]. by apply Forall_singleton. }
  rewrite isabs_path_of.
  change (walk fs [] ("" :: cs ++ [c])) with (walk fs [] (cs ++ [c])).
  by apply walk_stored.
Qed.


(** A successful [on_created] with the archive root given by its names:
    the state it leaves. *)
Lemma created_at (now : datetime) (ev : event) (st : state)
    (ws zs ds : list string) (name : string) (fs1 : gmap (list string) node) :
  wf (disk st) →
  Forall (λ c, is_name c = true) ws →
  Forall (λ c, is_name c = true) zs →
  Forall (λ c, is_name c = true) ds →
  is_name name = true →
  watch_dir st = path_of ws →
  archive_dir st = path_of zs →
  src_path ev = path_of (ws ++ ds ++ [name]) →
  is_directory ev = false →
  endswith name ".txt" = false →
  let loc := zs ++ ds ++ [nfc (fst (splitext (nfc name))) +:+ ".txt"] in
  makedirs cwd (path_of (zs ++ ds)) (disk st) = Done fs1 →
  disk st !! loc ≠ Some Dir →
  utf8 (nfc name) = true →
  sidecar_of nfc (archive_dir st) ds name = path_of loc
  ∧ wf (<[loc := File (sidecar_text (nfc name) (strftime now))]> fs1)
  ∧ fs1 !! loc = disk st !! loc
  ∧ (∀ k, fs1 !! k = disk st !! k
          ∨ (k `prefix_of` (zs ++ ds) ∧ disk st !! k = None ∧ fs1 !! k = Some Dir))
  ∧ isdir cwd (<[loc := File (sidecar_text (nfc name) (strftime now))]> fs1)
      (path_of (zs ++ ds)) = true
  ∧ on_created cwd nfc now ev st
    = Ok tt (emit ["File added: " +:+ nfc name;
                   "Corresponding source file also created."; border]
               (mark (path_of loc)
                  (set_disk (<[loc := File (sidecar_text (nfc name) (strftime now))]> fs1)
                     st))).
Proof.
  intros Hwf Hws Hzs Hds Hname Hwatch Harch Hsrc Hd Htxt loc Hm Hnode Hutf.
  pose proof (txt_is_name nfc nfc_sep name Hname) as Htn.
  assert (Forall (λ c, is_name c = true) (zs ++ ds)) as Hzd by (by apply Forall_app).
  assert (loc = (zs ++ ds) ++ [nfc (fst (splitext (nfc name))) +:+ ".txt"]) as Eloc.
  { unfold loc. by rewrite List.app_assoc. }
  assert (Forall (λ c, is_name c = true) loc) as Hloc.
  { rewrite Eloc. apply Forall_app. split; [done|]. by apply Forall_singleton. }
  assert (sidecar_of nfc (archive_dir st) ds name = path_of loc) as Eside.
  { unfold sidecar_of. rewrite Harch. by apply join_path_of. }
  assert (dirname (path_of loc) = path_of (zs ++ ds)) as Edir.
  { rewrite Eloc. by apply dirname_path_of. }
  assert (∀ k, fs1 !! k = disk st !! k
               ∨ (k `prefix_of` (zs ++ ds) ∧ disk st !! k = None ∧ fs1 !! k = Some Dir))
    as Hlocal.
  { intros k. pose proof (makedirs_path_of cwd (disk st) (zs ++ ds) k Hzd) as H.
    by rewrite Hm in H. }
  assert (fs1 !! loc = disk st !! loc) as Hsame.
  { destruct (Hlocal loc) as [?|([x Hx] & _)]; [done|exfalso].
    rewrite Eloc in Hx. apply (f_equal length) in Hx.
    rewrite !length_app in Hx. simpl in Hx. lia. }
  pose proof (makedirs_spec cwd (path_of (zs ++ ds)) (disk st) Hwf) as Hspec.
  rewrite Hm in Hspec. destruct Hspec as (Hg & Hwf1 & Hisdir).
  assert (resolve cwd fs1 (path_of loc) = Some loc) as Hres.
  { assert (endswith (path_of loc) ".txt" = true) as Hend.
    { rewrite <- Eside. apply sidecar_of_endswith. }
    destruct (resolve_cut cwd fs1 (path_of loc) (txt_basename_is_name _ Hend))
      as (l0 & _ & _ & Hres); [by rewrite Edir|].
    rewrite Hres. f_equal. by apply (resolve_path_of cwd fs1 loc). }
  assert (node_at fs1 loc ≠ Some Dir) as Hnode1.
  { rewrite Eloc, node_at_snoc, <- Eloc. by rewrite Hsame. }
  assert (is_dir_at fs1 (zs ++ ds) = true) as Hpar.
  { unfold isdir in Hisdir.
    destruct (resolve cwd fs1 (path_of (zs ++ ds))) as [l|] eqn:E; [|done].
    by apply resolve_path_of in E as ->. }
  split; [done|]. split.
  { apply wf_insert_file; [done| |done]. by rewrite Eloc, removelast_snoc. }
  split; [done|]. split; [done|]. split.
  { rewrite (isdir_same_dirs cwd fs1); [done|]. by apply same_dirs_insert_file. }
  destruct (under_root cwd nfc (watch_dir st) (archive_dir st) (src_path ev) ws ds name)
    as (Hr & Hb & _ & Etxt & _); [done..|].
  rewrite (on_created_file cwd nfc now ev st _ Hd Hr). cbv zeta.
  rewrite Etxt, Hb, Eside, Edir, Hm.
  assert (eqb (src_path ev) (path_of loc) = false) as ->.
  { apply eqb_false. intros E.
    assert (endswith (basename (src_path ev)) ".txt" = true); [|congruence].
    apply basename_endswith_txt. rewrite E, <- Eside. apply sidecar_of_endswith. }
  rewrite nfc_txt, Htxt.
  by rewrite (write_done cwd fs1 _ _ _ Hres Hnode1) by (by rewrite utf8_sidecar_text).
Qed.

End WithEnvironment.
End RunFacts.

(** ** Mirrors of directories *)

Module TreeFacts.
Import PyStr PyStrFacts PosixPath PosixPathFacts FSFacts Handler HandlerFacts.
Import FrameFacts MoreHandlerFacts MirrorFacts PathMore MoveFacts CompFacts.
Import PlaceFacts RunFacts.

Local Open Scope py_scope.

Local Arguments PosixPath.join : simpl never.
Local Arguments PosixPath.dirname : simpl never.
Local Arguments PosixPath.basename : simpl never.
Local Arguments PosixPath.splitext : simpl never.
Local Arguments PosixPath.relpath : simpl never.
Local Arguments txt_path_of : simpl never.
Local Arguments endswith : simpl never.
Local Arguments makedirs : simpl never.
Local Arguments write : simpl never.
Local Arguments remove : simpl never.
Local Arguments rmtree : simpl never.
Local Arguments move : simpl never.
Local Arguments exists_ : simpl never.
Local Arguments isdir : simpl never.
Local Arguments read : simpl never.
Local Arguments resolve : simpl never.
Local Arguments strftime : simpl never.
Local Arguments sidecar_text : simpl never.

(** In a well-formed tree whatever lies above a stored node is a
    directory. *)
Lemma wf_above (fs : gmap (list string) node) (l k : list string) :
  wf fs → is_Some (fs !! (l ++ k)) → k ≠ [] → is_dir_at fs l = true.
Proof.
  intros Hwf. induction k as [|c k IH] using rev_ind; [done|].
  intros [n Hn] _. pose proof (Hwf _ _ Hn) as Hp.
  rewrite List.app_assoc, removelast_snoc in Hp.
  destruct k as [|c' k]; [by rewrite List.app_nil_r in Hp|].
  apply IH; [|done]. apply is_dir_at_lookup in Hp as [Hp|Hp]; [|by eexists].
  by destruct l.
Qed.

Lemma join_one_path_of (cs ds : list string) :
  Forall (λ c, is_name c = true) cs → Forall (λ c, is_name c = true) ds → ds ≠ [] →
  PosixPath.join (path_of cs) [PyStr.join sep ds] = path_of (cs ++ ds).
Proof.
  intros Hcs Hds Hne. unfold PosixPath.join. simpl.
  destruct (join_names_shape ds Hds Hne) as (Hn & He & Hs).
  unfold join2. rewrite Hs. destruct cs as [|c cs]; [done|].
  destruct (path_of_shape (c :: cs)) as (Hn' & He'); [done..|].
  rewrite Hn', He'. simpl negb. simpl orb. cbv iota.
  unfold path_of. rewrite join_app by done.
  change ("/" +:+ PyStr.join sep ds) with (String sep (PyStr.join sep ds)).
  by rewrite !sapp_assoc.
Qed.

Section WithCwd.
Variable cwd : list string.

Lemma resolve_dir (fs : gmap (list string) node) (cs : list string) :
  wf fs → Forall (λ c, is_name c = true) cs → is_dir_at fs cs = true →
  resolve cwd fs (path_of cs) = Some cs.
Proof.
  intros Hwf Hcs Hd. unfold resolve.
  change (nonempty (path_of cs)) with true. cbv iota.
  rewrite isabs_path_of, split_path_of by done.
  destruct cs as [|c cs]; [done|].
  change (walk fs [] ("" :: c :: cs)) with (walk fs [] (c :: cs)).
  by apply walk_dir.
Qed.

Lemma read_pruned (fs : gmap (list string) node) (l cs : list string) :
  Forall (λ c, is_name c = true) cs → below l cs →
  read cwd (prune l fs) (path_of cs) = None.
Proof.
  intros Hcs Hb. unfold read.
  destruct (resolve cwd (prune l fs) (path_of cs)) as [l'|] eqn:E; [|done].
  apply resolve_path_of in E as ->; [|done].
  destruct cs as [|c cs]; [done|]. simpl. by rewrite prune_below.
Qed.

End WithCwd.
End TreeFacts.

(** ** The sample normalization and separators *)

Module SampleFacts.
Import PyStr PyStrFacts Scenario.

(** The sample normalization neither makes nor takes away a separator. *)
Lemma nfc_sample_sep (s : string) : has_char sep (nfc_sample s) = has_char sep s.
Proof.
  induction s as [|a s IH]; [done|].
  simpl nfc_sample. unfold compose.
  destruct (is_char "e" a && startswith (nfc_sample s) (String "204" (String "129" "")))
    eqn:E.
  - apply andb_true_iff in E as [->%is_char_true Hr]. simpl has_char at 2.
    rewrite <- IH.
    destruct (nfc_sample s) as [|x [|y r']]; [done..|].
    simpl in Hr. apply andb_true_iff in Hr as [->%bool_decide_eq_true Hr].
    apply andb_true_iff in Hr as [->%bool_decide_eq_true _].
    reflexivity.
  - simpl. by rewrite IH.
Qed.

End SampleFacts.

(** ** Two roots of one parent *)

Module SiblingFacts.
Import PyStr PyStrFacts PosixPath PosixPathFacts FSFacts Handler HandlerFacts.
Import FrameFacts MoreHandlerFacts ProbeFacts MirrorFacts PathMore MoveFacts CompFacts.
Import PlaceFacts RunFacts TreeFacts.

Local Open Scope py_scope.

Local Arguments PosixPath.join : simpl never.
Local Arguments PosixPath.dirname : simpl never.
Local Arguments PosixPath.basename : simpl never.
Local Arguments PosixPath.splitext : simpl never.
Local Arguments PosixPath.relpath : simpl never.
Local Arguments txt_path_of : simpl never.
Local Arguments endswith : simpl never.
Local Arguments makedirs : simpl never.
Local Arguments write : simpl never.
Local Arguments remove : simpl never.
Local Arguments rmtree : simpl never.
Local Arguments move : simpl never.
Local Arguments exists_ : simpl never.
Local Arguments isdir : simpl never.
Local Arguments read : simpl never.
Local Arguments resolve : simpl never.
Local Arguments strftime : simpl never.
Local Arguments sidecar_text : simpl never.

(** [makedirs] along names and then further: the tree it leaves. *)
Lemma mkchain_names_app (cs1 cs2 : list string) :
  Forall (λ c, is_name c = true) cs1 →
  ∀ (fs : gmap (list string) node) (cur : list string),
    tree_of (mkchain fs cur (cs1 ++ cs2)) =
      match mkchain fs cur cs1 with
      | Done fs1 => tree_of (mkchain fs1 (cur ++ cs1) cs2)
      | Fail _ fs1 => fs1
      end.
Proof.
  induction 1 as [|c cs1 Hc _ IH]; intros fs cur.
  - simpl. by rewrite List.app_nil_r.
  - simpl. apply is_name_spec in Hc as (H1 & H2 & H3 & _).
    apply eqb_false in H1, H2, H3. unfold is_dot. rewrite H1, H2, H3. simpl.
    assert (cur ++ c :: cs1 = (cur ++ [c]) ++ cs1) as -> by (by rewrite <- List.app_assoc).
    destruct (node_at fs (cur ++ [c])) as [[data|]|]; [done|apply IH..].
Qed.

(** [makedirs] up one level and down again makes directories on the two
    ways and nowhere else. *)
Lemma mkchain_up_local (fs : gmap (list string) node) (ws more k : list string) :
  Forall (λ c, is_name c = true) ws → Forall (λ c, is_name c = true) more →
  tree_of (mkchain fs [] ("" :: ws ++ ".." :: more)) !! k = fs !! k
  ∨ k `prefix_of` ws ∨ k `prefix_of` (removelast ws ++ more).
Proof.
  intros Hws Hmore.
  change (mkchain fs [] ("" :: ws ++ ".." :: more)) with (mkchain fs [] (ws ++ ".." :: more)).
  rewrite mkchain_names_app by done.
  destruct (mkchain_local ws Hws fs [] k) as [E|(Hp & _)]; [|by auto].
  destruct (mkchain fs [] ws) as [fs1|e fs1]; simpl in E; [|by left].
  change (mkchain fs1 ([] ++ ws) (".." :: more)) with (mkchain fs1 (removelast ws) more).
  destruct (mkchain_local more Hmore fs1 (removelast ws) k) as [E'|(Hp & _)]; [|by auto].
  left. congruence.
Qed.

Lemma dirname_app_name (x t : string) :
  nonempty x = true → endswith x "/" = false → has_char sep t = false →
  dirname (x +:+ String sep t) = x.
Proof.
  intros Hn He Ht. unfold dirname. rewrite cut_app by done. simpl fst.
  by apply strip_head_dir.
Qed.

Section WithEnvironment.
Variable cwd : list string.
Variable nfc : string → string.
Hypothesis nfc_txt : ∀ s, endswith (nfc s) ".txt" = endswith s ".txt".
Hypothesis nfc_sep : ∀ s, has_char sep (nfc s) = has_char sep s.

(** What [on_created] computes for the file [name] in the directory [ds]
    below the archive root [a], a sibling of the source root [w]. *)
Lemma in_sibling (watch archive src : string) (ps ds : list string) (w a name : string) :
  Forall (λ c, is_name c = true) ps →
  Forall (λ c, is_name c = true) ds →
  is_name w = true → is_name a = true → is_name name = true →
  w ≠ a →
  watch = path_of (ps ++ [w]) →
  archive = path_of (ps ++ [a]) →
  src = path_of (ps ++ a :: ds ++ [name]) →
  let rel := PyStr.join sep (".." :: a :: ds ++ [name]) in
  let txt_path :=
    PosixPath.join archive [PyStr.join sep (".." :: a :: ds);
                            nfc (fst (splitext (nfc name))) +:+ ".txt"] in
  PosixPath.relpath cwd src watch = Some rel
  ∧ basename src = name
  ∧ created_txt nfc archive rel src = txt_path
  ∧ PyStr.split sep (dirname txt_path) = "" :: (ps ++ [a]) ++ ".." :: a :: ds
  ∧ nonempty (dirname txt_path) = true
  ∧ isabs (dirname txt_path) = true.
Proof.
  intros Hps Hds Hw Ha Hname Hwa -> -> -> rel txt_path.
  assert (Forall (λ c, is_name c = true) (ds ++ [name])) as Hdn.
  { apply Forall_app. split; [done|]. by apply Forall_singleton. }
  assert (Forall (λ c, is_comp c = true) (".." :: a :: ds)) as Hcs.
  { constructor; [done|]. apply names_are_comps. by constructor. }
  assert (Forall (λ c, is_name c = true) (ps ++ [a])) as Hpa.
  { apply Forall_app. split; [done|]. by apply Forall_singleton. }
  assert (basename (path_of (ps ++ a :: ds ++ [name])) = name) as Hb.
  { replace (ps ++ a :: ds ++ [name]) with ((ps ++ a :: ds) ++ [name])
      by (by rewrite <- List.app_assoc).
    apply basename_path_of; [|done]. apply Forall_app. split; [done|]. by constructor. }
  split; [by apply (relpath_sibling cwd ps (ds ++ [name]) w a)|]. split; [done|].
  assert (dirname rel = PyStr.join sep (".." :: a :: ds)) as Hdir.
  { apply (dirname_join_comps (".." :: a :: ds) name Hcs). by apply name_is_comp. }
  split.
  { unfold created_txt, txt_path_of. by rewrite Hb, Hdir. }
  pose proof (txt_is_name nfc nfc_sep name Hname) as Htn.
  destruct (path_of_shape (ps ++ [a]) Hpa (snoc_nonnil _ _)) as (Hp & Hpe).
  destruct (join_comps_shape (".." :: a :: ds) Hcs) as (Hd & Hde & Hds'); [done|].
  unfold txt_path.
  rewrite (join_dir_name _ _ _ Hp Hpe Hd Hds' Hde (name_not_startswith_sep _ Htn)).
  replace (path_of (ps ++ [a]) +:+ String sep (PyStr.join sep (".." :: a :: ds) +:+ String sep
             (nfc (fst (splitext (nfc name))) +:+ ".txt")))
    with ((path_of (ps ++ [a]) +:+ String sep (PyStr.join sep (".." :: a :: ds)))
            +:+ String sep (nfc (fst (splitext (nfc name))) +:+ ".txt"))
    by (by rewrite !sapp_assoc).
  rewrite dirname_app_name.
  - split; [|split].
    + rewrite split_app_sep, split_path_of by done.
      rewrite split_join by (by try apply join_comps_nosep).
      destruct (ps ++ [a]) eqn:E; [by destruct (snoc_nonnil _ _ E)|done].
    + by unfold path_of.
    + unfold isabs, path_of. simpl. by rewrite startswith_nil.
  - by unfold path_of.
  - replace (path_of (ps ++ [a]) +:+ String sep (PyStr.join sep (".." :: a :: ds)))
      with ((path_of (ps ++ [a]) +:+ "/") +:+ PyStr.join sep (".." :: a :: ds))
      by (by rewrite !sapp_assoc).
    rewrite endswith_char_app; [done|]. intros E. by rewrite E in Hd.
  - by apply is_name_spec in Htn as (_ & _ & _ & ?).
Qed.

(** [makedirs] for a file below the archive root stays on the way to the
    mirror directory. *)
Lemma makedirs_sibling (fs : gmap (list string) node) (p : string)
    (ps ds k : list string) (a : string) :
  Forall (λ c, is_name c = true) ps →
  Forall (λ c, is_name c = true) ds →
  is_name a = true →
  PyStr.split sep p = "" :: (ps ++ [a]) ++ ".." :: a :: ds →
  nonempty p = true → isabs p = true →
  tree_of (makedirs cwd p fs) !! k = fs !! k ∨ k `prefix_of` (ps ++ a :: ds).
Proof.
  intros Hps Hds Ha Hsplit Hn Habs. unfold makedirs. rewrite Hn, Habs. cbv zeta iota.
  change (is_dir_at fs []) with true. cbv iota. rewrite Hsplit.
  destruct (mkchain_up_local fs (ps ++ [a]) (a :: ds) k) as [?|[Hp|Hp]]; [| |by left| |].
  - apply Forall_app. split; [done|]. by apply Forall_singleton.
  - by constructor.
  - right. etrans; [exact Hp|]. exists ds. by rewrite <- List.app_assoc.
  - right. by rewrite removelast_snoc in Hp.
Qed.

End WithEnvironment.
End SiblingFacts.

(** * The handler at large

    What the callbacks never touch, how they fail, and how their effects
    add up over more than one event. *)

Module Behaviour.
Import PyStr PyStrFacts PosixPath PosixPathFacts FSFacts Handler HandlerFacts.
Import FrameFacts MoreHandlerFacts ProbeFacts MirrorFacts PathMore MoveFacts CompFacts.
Import PlaceFacts RunFacts TreeFacts SiblingFacts.

Local Open Scope py_scope.

Local Arguments PosixPath.join : simpl never.
Local Arguments PosixPath.dirname : simpl never.
Local Arguments PosixPath.basename : simpl never.
Local Arguments PosixPath.splitext : simpl never.
Local Arguments PosixPath.relpath : simpl never.
Local Arguments txt_path_of : simpl never.
Local Arguments endswith : simpl never.
Local Arguments makedirs : simpl never.
Local Arguments write : simpl never.
Local Arguments remove : simpl never.
Local Arguments rmtree : simpl never.
Local Arguments move : simpl never.
Local Arguments exists_ : simpl never.
Local Arguments isdir : simpl never.
Local Arguments read : simpl never.
Local Arguments resolve : simpl never.
Local Arguments strftime : simpl never.
Local Arguments sidecar_text : simpl never.

Section WithEnvironment.
Variable cwd : list string.
Variable nfc : string → string.

(** Normalization leaves a trailing [.txt] alone and makes none; it
    neither makes nor takes away a separator. *)
Hypothesis nfc_txt : ∀ s, endswith (nfc s) ".txt" = endswith s ".txt".
Hypothesis nfc_sep : ∀ s, has_char sep (nfc s) = has_char sep s.

(** X1. [on_created] only adds: whatever the event and however the
    callback ends, every location of the disk is still there, a
    directory is still a directory, and apart from new directories at
    most one location has changed, which then holds a regular file. *)
Theorem on_created_only_adds (now : datetime) (ev : event) (st : state) :
  let fs' := disk (final (on_created cwd nfc now ev st)) in
  (∀ l, is_Some (disk st !! l) → is_Some (fs' !! l))
  ∧ (∀ l, disk st !! l = Some Dir → fs' !! l = Some Dir)
  ∧ ∃ l0, ∀ l, l ≠ l0 →
      fs' !! l = disk st !! l ∨ (disk st !! l = None ∧ fs' !! l = Some Dir).
Proof.
  assert (∀ fs1, grows (disk st) fs1 →
            (∀ l, is_Some (disk st !! l) → is_Some (fs1 !! l))
            ∧ (∀ l, disk st !! l = Some Dir → fs1 !! l = Some Dir)
            ∧ ∃ l0 : list string, ∀ l, l ≠ l0 →
                fs1 !! l = disk st !! l ∨ (disk st !! l = None ∧ fs1 !! l = Some Dir))
    as Hgrown.
  { intros fs1 Hg. split; [|split].
    - intros l [n Hn]. exists n. by eapply grows_lookup.
    - intros l Hl. by eapply grows_lookup.
    - exists []. intros l _. apply Hg. }
  destruct (is_directory ev) eqn:Hd.
  { rewrite on_created_directory by done. apply Hgrown, grows_refl. }
  destruct (PosixPath.relpath cwd (src_path ev) (watch_dir st)) as [rel|] eqn:Hr.
  2:{ rewrite on_created_no_path by done. apply Hgrown, grows_refl. }
  rewrite (on_created_file cwd nfc now ev st rel Hd Hr). cbv zeta.
  pose proof (makedirs_grows cwd
    (dirname (created_txt nfc (archive_dir st) rel (src_path ev))) (disk st)) as Hg.
  destruct (makedirs cwd _ (disk st)) as [fs1|e fs']; [|by apply Hgrown].
  simpl in Hg.
  destruct (eqb (src_path ev) _); [by apply Hgrown|].
  destruct (endswith (nfc (basename (src_path ev))) ".txt").
  { destruct (bool_decide _); by apply Hgrown. }
  assert (∀ l0 d, node_at fs1 l0 ≠ Some Dir →
            (∀ l, is_Some (disk st !! l) → is_Some (<[l0 := File d]> fs1 !! l))
            ∧ (∀ l, disk st !! l = Some Dir → <[l0 := File d]> fs1 !! l = Some Dir)
            ∧ ∃ l1 : list string, ∀ l, l ≠ l1 →
                <[l0 := File d]> fs1 !! l = disk st !! l
                ∨ (disk st !! l = None ∧ <[l0 := File d]> fs1 !! l = Some Dir))
    as Hput.
  { intros l0 d Hn0. split; [|split].
    - intros l [n Hn]. destruct (decide (l0 = l)) as [->|Hne].
      + rewrite lookup_insert_eq. by eexists.
      + rewrite lookup_insert_ne by done. exists n. by eapply grows_lookup.
    - intros l Hl. apply (grows_lookup _ _ _ _ Hg) in Hl.
      rewrite lookup_insert_ne; [done|]. intros ->. apply Hn0.
      by destruct l.
    - exists l0. intros l Hne. rewrite lookup_insert_ne by done. apply Hg. }
  destruct (write_cases cwd fs1 (created_txt nfc (archive_dir st) rel (src_path ev))
              (sidecar_text (nfc (basename (src_path ev))) (strftime now)))
    as [(l0 & Hl0 & Hn0 & _ & ->)|[(l0 & Hl0 & Hn0 & _ & ->)|[e ->]]];
    [by apply Hput..|by apply Hgrown].
Qed.

(** X2. [on_deleted] only deletes: whatever the event and however the
    callback ends, what is on the disk afterwards was there before,
    unchanged; and an event for a file takes away at most two locations,
    each of them a regular file (the sidecar at the computed path, and
    the first file the probe finds). *)
Theorem on_deleted_only_deletes (ev : event) (st : state) :
  let fs' := disk (final (on_deleted cwd nfc ev st)) in
  fs' ⊆ disk st
  ∧ (is_directory ev = false →
     ∃ gone : list (list string),
       length gone ≤ 2
       ∧ fs' = foldr delete (disk st) gone
       ∧ Forall (λ l, ∃ data, disk st !! l = Some (File data)) gone).
Proof.
  destruct (PosixPath.relpath cwd (src_path ev) (watch_dir st)) as [rel|] eqn:Hr.
  2:{ rewrite on_deleted_no_path by done. simpl. split; [done|].
      intros _. exists []. split; [simpl; lia|]. split; [done|]. constructor. }
  destruct (is_directory ev) eqn:Hd.
  - rewrite (on_deleted_directory cwd nfc ev st rel Hd Hr). cbv zeta.
    split; [|done].
    destruct (exists_ cwd (disk st) _); [|done].
    unfold rmtree. destruct (resolve cwd (disk st) _) as [l|]; [|done].
    destruct (node_at (disk st) l) as [[]|]; [done| |done].
    destruct (last_name _) as [n|]; [|apply map_filter_subseteq].
    destruct (eqb n "." || eqb n ".."); apply map_filter_subseteq.
  - rewrite (on_deleted_file cwd nfc ev st rel Hd Hr). cbv zeta.
    set (base_name := nfc (basename rel)).
    assert (∃ st1 gone1,
              (drop_sidecar cwd (deleted_txt nfc (archive_dir st) rel) base_name st
               = Ok tt st1
               ∨ ∃ e, drop_sidecar cwd (deleted_txt nfc (archive_dir st) rel) base_name st
                      = Raise e st1)
              ∧ length gone1 ≤ 1
              ∧ disk st1 = foldr delete (disk st) gone1
              ∧ Forall (λ l, ∃ data, disk st !! l = Some (File data)) gone1)
      as (st1 & gone1 & Hdrop & Hlen1 & Hdisk1 & Hfiles1).
    { unfold drop_sidecar. destruct (exists_ cwd (disk st) _).
      - destruct (remove_cases cwd (disk st) (deleted_txt nfc (archive_dir st) rel))
          as [(l & data & Hl & _ & ->)|[e ->]].
        + eexists _, [l]. split; [by left|]. split; [done|]. split; [done|].
          constructor; [by exists data|constructor].
        + eexists _, []. split; [right; by eexists|]. split; [simpl; lia|].
          split; [done|]. constructor.
      - exists st, []. split; [by left|]. split; [simpl; lia|]. split; [done|]. constructor. }
    assert (∀ fs2 gone2,
              length gone2 ≤ 1 → fs2 = foldr delete (disk st1) gone2 →
              Forall (λ l, ∃ data, disk st1 !! l = Some (File data)) gone2 →
              fs2 ⊆ disk st
              ∧ (false = false →
                 ∃ gone : list (list string),
                   length gone ≤ 2
                   ∧ fs2 = foldr delete (disk st) gone
                   ∧ Forall (λ l, ∃ data, disk st !! l = Some (File data)) gone))
      as Hsum.
    { intros fs2 gone2 Hlen2 -> Hfiles2. rewrite Hdisk1, <- foldr_app. split.
      - generalize (gone2 ++ gone1). intros g. induction g as [|l g IH]; [done|].
        simpl. etrans; [apply delete_subseteq|done].
      - intros _. exists (gone2 ++ gone1). split; [rewrite length_app; lia|].
        split; [done|]. apply Forall_app. split; [|done].
        eapply Forall_impl; [exact Hfiles2|]. intros l [data Hl]. exists data.
        rewrite Hdisk1 in Hl. clear -Hl. induction gone1 as [|k g IH]; [done|].
        simpl in Hl. apply lookup_delete_Some in Hl as [_ Hl]. by apply IH. }
    destruct Hdrop as [->|[e ->]].
    2:{ simpl. apply (Hsum _ []); [simpl; lia|done|constructor]. }
    destruct (endswith base_name ".txt").
    2:{ simpl. apply (Hsum _ []); [simpl; lia|done|constructor]. }
    destruct (probe_disk cwd (watch_dir st) rel base_name (splitext base_name).1
                possible_extensions st1) as [->|(l & data & Hl & ->)].
    + apply (Hsum _ []); [simpl; lia|done|constructor].
    + apply (Hsum _ [l]); [done|done|]. constructor; [by exists data|constructor].
Qed.

(** X3. [on_moved] prints nothing and writes nothing of its own:
    whatever the event and however the callback ends, the console is as
    it was, and the content of every regular file on the disk is the
    content of a regular file that was there before. *)
Theorem on_moved_is_silent (ev : event) (st : state) :
  let st' := final (on_moved cwd nfc ev st) in
  stdout st' = stdout st
  ∧ ∀ l data, disk st' !! l = Some (File data) → ∃ l', disk st !! l' = Some (File data).
Proof.
  assert (∀ l data, disk st !! l = Some (File data) →
            ∃ l', disk st !! l' = Some (File data)) as Hsame by (intros; by eexists).
  destruct (is_directory ev) eqn:Hd; [by rewrite on_moved_directory|].
  destruct (PosixPath.relpath cwd (src_path ev) (watch_dir st)) as [old_rel|] eqn:Ho;
    [|rewrite on_moved_raises; auto].
  destruct (PosixPath.relpath cwd (dest_path ev) (watch_dir st)) as [new_rel|] eqn:Hn;
    [|rewrite on_moved_raises; auto].
  rewrite (on_moved_file cwd nfc ev st old_rel new_rel Hd Ho Hn). cbv zeta.
  destruct (exists_ cwd (disk st) _); [|done].
  pose proof (makedirs_grows cwd
    (dirname (moved_txt nfc (archive_dir st) new_rel)) (disk st)) as Hg.
  destruct (makedirs cwd _ (disk st)) as [fs1|e fs']; simpl in Hg.
  2:{ simpl. split; [done|]. intros l data Hl. exists l.
      by apply (grows_file (disk st) fs' l data Hg). }
  pose proof (move_content cwd fs1 (moved_txt nfc (archive_dir st) old_rel)
                (moved_txt nfc (archive_dir st) new_rel)) as Hmove.
  assert (∀ l data, tree_of (move cwd (moved_txt nfc (archive_dir st) old_rel)
                               (moved_txt nfc (archive_dir st) new_rel) fs1) !! l
                    = Some (File data) →
                    ∃ l', disk st !! l' = Some (File data)) as Hfin.
  { intros l data Hl. destruct (Hmove l data Hl) as [k Hk]. exists k.
    by apply (grows_file (disk st) fs1 k data Hg). }
  destruct (move cwd _ _ fs1); simpl; split; done.
Qed.

(** X4. Creation and deletion undo each other, up to directories and
    the marker set.  A file that is not a [.txt] file appears below the
    source root and [on_created] returns; then the file disappears:
    [on_deleted] returns, nothing is at the sidecar path any more, every
    other location of the disk is as it was before the two events or is
    a new directory, the sidecar path is still in the marker set, and
    both notices are on the console. *)
Theorem created_then_deleted (now : datetime) (ev : event) (st st1 : state)
    (ws ds : list string) (name : string) :
  wf (disk st) →
  Forall (λ c, is_name c = true) ws →
  Forall (λ c, is_name c = true) ds →
  is_name name = true →
  watch_dir st = path_of ws →
  src_path ev = path_of (ws ++ ds ++ [name]) →
  is_directory ev = false →
  endswith name ".txt" = false →
  on_created cwd nfc now ev st = Ok tt st1 →
  let txt_path := sidecar_of nfc (archive_dir st) ds name in
  ∃ st2 l,
    on_deleted cwd nfc ev st1 = Ok tt st2
    ∧ resolve cwd (disk st2) txt_path = Some l
    ∧ disk st2 !! l = None
    ∧ exists_ cwd (disk st2) txt_path = false
    ∧ (∀ k, k ≠ l →
         disk st2 !! k = disk st !! k ∨ (disk st !! k = None ∧ disk st2 !! k = Some Dir))
    ∧ txt_path ∈ system_created_txt_files st2
    ∧ stdout st2 = stdout st ++ ["File added: " +:+ nfc name;
                                 "Corresponding source file also created."; border;
                                 "File deleted: " +:+ nfc name;
                                 "Corresponding source file also deleted."; border].
Proof.
  intros Hwf Hws Hds Hname Hwatch Hsrc Hd Htxt Hok txt_path.
  destruct (created_inv cwd nfc nfc_txt now ev st st1 ws ds name)
    as (fs1 & l & Hm & Hg & Hwf1 & Hdir & Hres & Hne & Hnode & Hpar & ->); [done..|].
  fold txt_path in Hm, Hdir, Hres |- *.
  set (text := sidecar_text (nfc name) (strftime now)).
  set (st1 := emit _ (mark txt_path _)).
  destruct (deleted_under_root cwd nfc nfc_txt ev st1 ws ds name text)
    as (l' & Hres' & Hl' & ->); [done..| |].
  { by apply read_written. }
  assert (resolve cwd (<[l := File text]> fs1) txt_path = Some l) as Hres1.
  { rewrite <- Hres. apply resolve_same_dirs. by apply same_dirs_insert_file. }
  unfold st1 in Hres', Hl'. simpl in Hres', Hl'. fold txt_path in Hres'.
  rewrite Hres1 in Hres'. injection Hres' as <-.
  eexists _, l. split; [done|]. simpl.
  assert (∀ k, is_dir_at (delete l (<[l := File text]> fs1)) k = is_dir_at fs1 k) as Hsame.
  { intros k. rewrite (same_dirs_delete_file _ l text) by (by rewrite lookup_insert_eq).
    by apply same_dirs_insert_file. }
  split; [by rewrite (resolve_same_dirs cwd fs1 _ txt_path Hsame)|].
  split; [by rewrite lookup_delete_eq|].
  split; [apply (exists_deleted cwd _ _ text); [done|done|by rewrite lookup_insert_eq]|].
  split; [|split].
  - intros k Hk. rewrite lookup_delete_ne, lookup_insert_ne by done. apply Hg.
  - apply elem_of_union. left. by apply elem_of_singleton.
  - by rewrite <- List.app_assoc.
Qed.

(** X5. Deleting is idempotent.  When a file that is not a [.txt] file
    disappears below the source root while its sidecar is there,
    [on_deleted] returns, and the same event once more changes nothing at
    all: no file, no notice, no exception. *)
Theorem deleted_twice (ev : event) (st : state)
    (ws ds : list string) (name data : string) :
  Forall (λ c, is_name c = true) ws →
  Forall (λ c, is_name c = true) ds →
  is_name name = true →
  watch_dir st = path_of ws →
  src_path ev = path_of (ws ++ ds ++ [name]) →
  is_directory ev = false →
  endswith name ".txt" = false →
  read cwd (disk st) (sidecar_of nfc (archive_dir st) ds name) = Some data →
  ∃ st1,
    on_deleted cwd nfc ev st = Ok tt st1
    ∧ read cwd (disk st1) (sidecar_of nfc (archive_dir st) ds name) = None
    ∧ on_deleted cwd nfc ev st1 = Ok tt st1.
Proof.
  intros Hws Hds Hname Hwatch Hsrc Hd Htxt Hread.
  destruct (deleted_under_root cwd nfc nfc_txt ev st ws ds name data)
    as (l & Hres & Hl & ->); [done..|].
  eexists. split; [done|].
  assert (l ≠ []) as Hne.
  { apply read_spec in Hread as (l' & Hres' & Hne & _). congruence. }
  assert (exists_ cwd (delete l (disk st)) (sidecar_of nfc (archive_dir st) ds name)
          = false) as Hgone by (by eapply exists_deleted).
  split.
  - simpl. destruct (read cwd (delete l (disk st)) _) as [d|] eqn:E; [|done].
    apply read_exists in E. congruence.
  - by apply (deleted_nothing cwd nfc nfc_txt _ _ ws ds name).
Qed.


(** X7. A sidecar keeps the name it was written with.  A file that is
    not a [.txt] file appears below the source root and [on_created]
    returns; then the file is moved to another name or directory below
    the source root.  When the stem of the old name normalizes the same
    way before and after the extension is cut, the directories of the new
    sidecar path can be made and that path is not a directory, [on_moved]
    returns, and the new sidecar path holds the record as it was written:
    its [File name:] field is the old name.  Nothing is printed, and the
    marker set is as it was. *)
Theorem created_then_moved (now : datetime) (ev ev' : event) (st st1 : state)
    (ws ds ds' : list string) (name name' : string) (fs2 : gmap (list string) node) :
  wf (disk st) →
  Forall (λ c, is_name c = true) ws →
  Forall (λ c, is_name c = true) ds →
  Forall (λ c, is_name c = true) ds' →
  is_name name = true → is_name name' = true →
  watch_dir st = path_of ws →
  src_path ev = path_of (ws ++ ds ++ [name]) →
  is_directory ev = false →
  endswith name ".txt" = false →
  src_path ev' = path_of (ws ++ ds ++ [name]) →
  dest_path ev' = path_of (ws ++ ds' ++ [name']) →
  is_directory ev' = false →
  nfc (fst (splitext (nfc name))) = nfc (fst (splitext name)) →
  on_created cwd nfc now ev st = Ok tt st1 →
  let old_txt_path := sidecar_of nfc (archive_dir st) ds name in
  let new_txt_path := moved_txt nfc (archive_dir st) (PyStr.join sep (ds' ++ [name'])) in
  makedirs cwd (dirname new_txt_path) (disk st1) = Done fs2 →
  isdir cwd fs2 new_txt_path = false →
  ∃ st2,
    on_moved cwd nfc ev' st1 = Ok tt st2
    ∧ read cwd (disk st2) new_txt_path = Some (sidecar_text (nfc name) (strftime now))
    ∧ (resolve cwd fs2 old_txt_path ≠ resolve cwd fs2 new_txt_path →
       read cwd (disk st2) old_txt_path = None)
    ∧ stdout st2 = stdout st1
    ∧ system_created_txt_files st2 = system_created_txt_files st1.
Proof.
  intros Hwf Hws Hds Hds' Hname Hname' Hwatch Hsrc Hd Htxt Hsrc' Hdest Hd' Hstem Hok
    old_txt_path new_txt_path Hm2 Hnotdir.
  destruct (created_inv cwd nfc nfc_txt now ev st st1 ws ds name)
    as (fs1 & l & Hm & Hg & Hwf1 & Hdir & Hres & Hne & Hnode & Hpar & Hst1); [done..|].
  fold old_txt_path in Hm, Hdir, Hres, Hst1.
  set (text := sidecar_text (nfc name) (strftime now)) in *.
  assert (disk st1 = <[l := File text]> fs1) as Hdisk1 by (by rewrite Hst1).
  assert (watch_dir st1 = watch_dir st) as Hwatch1 by (by rewrite Hst1).
  assert (archive_dir st1 = archive_dir st) as Harch1 by (by rewrite Hst1).
  clear Hst1 Hok. rewrite <- Hwatch1 in Hwatch.
  assert (wf (disk st1)) as Hwf1'.
  { rewrite Hdisk1. by apply wf_insert_file. }
  assert (read cwd (disk st1) old_txt_path = Some text) as Hread.
  { rewrite Hdisk1. by apply read_written. }
  destruct (under_root cwd nfc (watch_dir st1) (archive_dir st1) (src_path ev') ws ds name)
    as (Ho & _); [done..|].
  destruct (under_root cwd nfc (watch_dir st1) (archive_dir st1) (dest_path ev') ws ds' name')
    as (Hn & _); [done..|].
  assert (moved_txt nfc (archive_dir st1) (PyStr.join sep (ds ++ [name])) = old_txt_path)
    as Eold.
  { rewrite moved_txt_under_root, Harch1 by done. unfold old_txt_path, sidecar_of.
    by rewrite Hstem. }
  rewrite (on_moved_file cwd nfc ev' st1 _ _ Hd' Ho Hn). cbv zeta.
  rewrite Eold, Harch1. fold new_txt_path.
  rewrite (read_exists cwd _ _ _ Hread), Hm2.
  pose proof (makedirs_spec cwd (dirname new_txt_path) (disk st1) Hwf1') as Hspec.
  rewrite Hm2 in Hspec. destruct Hspec as (Hg2 & Hwf2 & Hdir2).
  apply (read_grows cwd _ fs2) in Hread; [|done].
  apply read_spec in Hread as (l1 & Hres1 & Hne1 & Hl1).
  assert (endswith new_txt_path ".txt" = true) as Hend by apply txt_path_endswith.
  destruct (resolve_cut cwd fs2 new_txt_path (txt_basename_is_name _ Hend) Hdir2)
    as (l0 & _ & _ & Hres2).
  rewrite (move_file cwd fs2 _ _ text l1 _ Hres1 Hne1 Hl1 Hres2 Hnotdir).
  pose proof (isdir_false_node cwd fs2 _ _ Hres2 Hnotdir) as Hnode2.
  pose proof (same_dirs_rename_file fs2 l1 _ text Hl1 Hnode2) as Hsame.
  eexists. split; [done|]. simpl. split; [|split; [|done]].
  - apply read_spec. eexists.
    split; [|split; [apply snoc_nonnil|by rewrite lookup_insert_eq]].
    rewrite <- Hres2. by apply resolve_same_dirs.
  - intros Hdiff. unfold read.
    rewrite (resolve_same_dirs cwd fs2 _ old_txt_path Hsame), Hres1.
    destruct l1 as [|c l1]; [done|]. simpl.
    rewrite lookup_insert_ne by congruence. by rewrite lookup_delete_eq.
Qed.

(** X8. The handler does not report its own sidecars.  After
    [on_created] has written the sidecar of a file below the source root,
    the creation event for that sidecar path prints nothing, leaves the
    marker set and every regular file as they are, and can only add
    directories. *)
Theorem own_sidecar_is_not_reported (now now' : datetime) (ev ev' : event) (st st1 : state)
    (ws ds : list string) (name : string) :
  wf (disk st) →
  Forall (λ c, is_name c = true) ws →
  Forall (λ c, is_name c = true) ds →
  is_name name = true →
  watch_dir st = path_of ws →
  src_path ev = path_of (ws ++ ds ++ [name]) →
  is_directory ev = false →
  endswith name ".txt" = false →
  on_created cwd nfc now ev st = Ok tt st1 →
  src_path ev' = sidecar_of nfc (archive_dir st) ds name →
  let st2 := final (on_created cwd nfc now' ev' st1) in
  stdout st2 = stdout st1
  ∧ system_created_txt_files st2 = system_created_txt_files st1
  ∧ (∀ l data, disk st2 !! l = Some (File data) ↔ disk st1 !! l = Some (File data))
  ∧ grows (disk st1) (disk st2).
Proof.
  intros Hwf Hws Hds Hname Hwatch Hsrc Hd Htxt Hok Hsrc'.
  destruct (created_inv cwd nfc nfc_txt now ev st st1 ws ds name)
    as (fs1 & l & _ & _ & _ & _ & _ & _ & _ & _ & Hst1); [done..|].
  assert (src_path ev' ∈ system_created_txt_files st1) as Hin.
  { rewrite Hst1, Hsrc'. simpl. apply elem_of_union. left. by apply elem_of_singleton. }
  assert (endswith (src_path ev') ".txt" = true) as Hend.
  { rewrite Hsrc'. apply sidecar_of_endswith. }
  clear Hst1.
  assert (∀ fs', grows (disk st1) fs' →
            let st2 := set_disk fs' st1 in
            stdout st2 = stdout st1
            ∧ system_created_txt_files st2 = system_created_txt_files st1
            ∧ (∀ l data, disk st2 !! l = Some (File data) ↔ disk st1 !! l = Some (File data))
            ∧ grows (disk st1) (disk st2)) as Hdone.
  { intros fs' Hg. simpl. split; [done|]. split; [done|]. split; [|done].
    intros k data. by apply grows_file. }
  destruct (is_directory ev') eqn:Hd'.
  { rewrite on_created_directory by done. simpl.
    split; [done|]. split; [done|]. split; [done|]. apply grows_refl. }
  destruct (relpath_some cwd (src_path ev') (watch_dir st1)) as [rel Hr].
  { eapply endswith_nonempty; done. }
  rewrite (on_created_file cwd nfc now' ev' st1 rel Hd' Hr). cbv zeta.
  pose proof (makedirs_grows cwd
    (dirname (created_txt nfc (archive_dir st1) rel (src_path ev'))) (disk st1)) as Hg.
  destruct (makedirs cwd _ (disk st1)) as [fs2|e fs']; [|by apply Hdone].
  destruct (eqb (src_path ev') _); [by apply Hdone|].
  rewrite nfc_txt, (basename_endswith_txt _ Hend).
  rewrite bool_decide_eq_true_2 by done. by apply Hdone.
Qed.


(** X10. No event in the archive tree reaches the source tree.  The
    source root and the archive root are two directories of one parent,
    and a file disappears below the archive root (a sidecar, say).  The
    path relative to the source root starts with [..], and every path
    [on_deleted] computes from it, the sidecar path as well as the paths
    it probes for a source file, leads into the archive tree: whatever
    the callback removes lies in the mirror directory of the deleted
    file, and every location below the source root is as it was. *)
Theorem archive_event_spares_source (ev : event) (st : state)
    (ps ds : list string) (w a name : string) :
  Forall (λ c, is_name c = true) ps →
  Forall (λ c, is_name c = true) ds →
  is_name w = true → is_name a = true → is_name name = true →
  w ≠ a →
  watch_dir st = path_of (ps ++ [w]) →
  archive_dir st = path_of (ps ++ [a]) →
  src_path ev = path_of (ps ++ a :: ds ++ [name]) →
  is_directory ev = false →
  let fs' := disk (final (on_deleted cwd nfc ev st)) in
  (∀ k, fs' !! k = disk st !! k ∨ below (ps ++ a :: ds) k)
  ∧ (∀ k, below (ps ++ [w]) k → fs' !! k = disk st !! k).
Proof.
  intros Hps Hds Hw Ha Hname Hwa Hwatch Harch Hsrc Hd fs'.
  assert (∀ k, fs' !! k = disk st !! k ∨ below (ps ++ a :: ds) k) as Hmain.
  2:{ split; [done|]. intros k [x ->]. destruct (Hmain ((ps ++ [w]) ++ x)) as [?|[y Hy]];
        [done|exfalso].
      rewrite <- !List.app_assoc in Hy. apply app_inv_head in Hy.
      simpl in Hy. congruence. }
  subst fs'.
  assert (Forall (λ c, is_name c = true) (ds ++ [name])) as Hdn.
  { apply Forall_app. split; [done|]. by apply Forall_singleton. }
  assert (PosixPath.relpath cwd (src_path ev) (watch_dir st)
          = Some (PyStr.join sep (".." :: a :: ds ++ [name]))) as Hr.
  { rewrite Hwatch, Hsrc. by apply relpath_sibling. }
  assert (Forall (λ c, is_comp c = true) (".." :: a :: ds)) as Hcs.
  { constructor; [done|]. apply names_are_comps. by constructor. }
  set (rel := PyStr.join sep (".." :: a :: ds ++ [name])) in *.
  assert (basename rel = name) as Hb.
  { apply (basename_join_comps (".." :: a :: ds) name Hcs). by apply name_is_comp. }
  assert (dirname rel = PyStr.join sep (".." :: a :: ds)) as Hdir.
  { apply (dirname_join_comps (".." :: a :: ds) name Hcs). by apply name_is_comp. }
  assert (∀ fs x n l, is_name x = true → is_name n = true →
            resolve cwd fs (PosixPath.join (path_of (ps ++ [x])) [dirname rel; n]) = Some l →
            below (ps ++ a :: ds) l) as Hplace.
  { intros fs x n l Hx Hn Hres. rewrite Hdir in Hres.
    apply resolve_sibling in Hres as ->; [|done..].
    exists [n]. by rewrite <- List.app_assoc. }
  assert (∀ (fs : gmap (list string) node) l k,
            below (ps ++ a :: ds) l →
            delete l fs !! k = fs !! k ∨ below (ps ++ a :: ds) k) as Hdel.
  { intros fs l k Hl. destruct (decide (l = k)) as [<-|Hne]; [by right|].
    left. by rewrite lookup_delete_ne. }
  intros k.
  rewrite (on_deleted_file cwd nfc ev st _ Hd Hr). cbv zeta. fold rel. rewrite Hb.
  unfold drop_sidecar, deleted_txt, txt_path_of. rewrite Hb, Harch.
  set (txt_path := PosixPath.join _ [dirname rel; _ +:+ ".txt"]).
  assert (∀ st1, disk st1 !! k = disk st !! k ∨ below (ps ++ a :: ds) k →
            watch_dir st1 = watch_dir st →
            disk (final (if endswith (nfc name) ".txt"
                         then probe cwd (watch_dir st) rel (nfc name)
                                (fst (splitext (nfc name))) possible_extensions st1
                         else Ok tt st1)) !! k = disk st !! k
            ∨ below (ps ++ a :: ds) k) as Hprobe.
  { intros st1 Hst1 Hw1. destruct (endswith (nfc name) ".txt"); [|done].
    destruct (probe_gone cwd (watch_dir st) rel (nfc name) (fst (splitext (nfc name)))
                possible_extensions st1) as [->|(ext & l & data & Hext & Hres & _ & ->)];
      [done|].
    unfold candidate in Hres. rewrite Hwatch in Hres.
    apply Hplace in Hres; [|done|by apply candidate_is_name].
    destruct (Hdel (disk st1) l k Hres) as [->|?]; [done|by right]. }
  destruct (exists_ cwd (disk st) txt_path); [|by apply Hprobe; [left|]].
  destruct (remove_cases cwd (disk st) txt_path)
    as [(l & data & Hl & Hres & ->)|[e ->]]; [|by left].
  apply Hprobe; [|done]. simpl. apply Hdel.
  apply (Hplace (disk st) a _ l Ha (txt_is_name nfc nfc_sep name Hname) Hres).
Qed.

(** X11. A directory in the way.  When the sidecar path of a file below
    the source root is a directory, [on_created] for the file raises
    [IsADirectoryError] once the directories are made: nothing is written,
    nothing is printed, the marker set is as it was, and the directories
    made stay.  [on_deleted] for the file raises the same way and leaves
    the whole state as it was. *)
Theorem directory_at_sidecar_path (now : datetime) (ev : event) (st : state)
    (ws ds : list string) (name : string) (fs1 : gmap (list string) node) :
  Forall (λ c, is_name c = true) ws →
  Forall (λ c, is_name c = true) ds →
  is_name name = true →
  watch_dir st = path_of ws →
  src_path ev = path_of (ws ++ ds ++ [name]) →
  is_directory ev = false →
  endswith name ".txt" = false →
  let txt_path := sidecar_of nfc (archive_dir st) ds name in
  (makedirs cwd (dirname txt_path) (disk st) = Done fs1 →
   isdir cwd fs1 txt_path = true →
   on_created cwd nfc now ev st = Raise IsADirectoryError (set_disk fs1 st))
  ∧ (isdir cwd (disk st) txt_path = true →
     on_deleted cwd nfc ev st = Raise IsADirectoryError st).
Proof.
  intros Hws Hds Hname Hwatch Hsrc Hd Htxt txt_path.
  destruct (under_root cwd nfc (watch_dir st) (archive_dir st) (src_path ev) ws ds name)
    as (Hr & Hb & Hb' & Etxt & Etxt'); [done..|].
  assert (endswith txt_path ".txt" = true) as Hend by apply sidecar_of_endswith.
  split.
  - intros Hm Hdir.
    rewrite (on_created_file cwd nfc now ev st _ Hd Hr). cbv zeta.
    rewrite Etxt, Hb. fold txt_path. rewrite Hm.
    assert (eqb (src_path ev) txt_path = false) as ->.
    { apply eqb_false. intros E. rewrite <- E in Hend.
      apply basename_endswith_txt in Hend. congruence. }
    rewrite nfc_txt, Htxt. unfold write. unfold isdir, is_dir_at in Hdir.
    destruct (resolve cwd fs1 txt_path) as [l|]; [|done].
    by destruct (node_at fs1 l) as [[]|].
  - intros Hdir.
    rewrite (on_deleted_file cwd nfc ev st _ Hd Hr). cbv zeta.
    rewrite Etxt', Hb'. fold txt_path. unfold drop_sidecar.
    rewrite (isdir_exists cwd _ _ Hdir). unfold remove. unfold isdir, is_dir_at in Hdir.
    destruct (resolve cwd (disk st) txt_path) as [l|]; [|done].
    destruct (node_at (disk st) l) as [[]|]; [done| |done].
    by rewrite set_disk_id.
Qed.

(** X12. An event without a path.  [os.path.relpath] raises
    [ValueError] on the empty string: [on_deleted] raises it for every
    event with an empty source path, [on_created] and [on_moved] for every
    file event with one, [on_moved] also for an empty destination path;
    each time the disk, the console and the marker set are as they were. *)
Theorem empty_path_raises (ev : event) (st : state) :
  (src_path ev = "" → on_deleted cwd nfc ev st = Raise ValueError st)
  ∧ (is_directory ev = false → src_path ev = "" →
     ∀ now, on_created cwd nfc now ev st = Raise ValueError st)
  ∧ (is_directory ev = false → src_path ev = "" ∨ dest_path ev = "" →
     on_moved cwd nfc ev st = Raise ValueError st).
Proof.
  split; [|split].
  - intros E. apply on_deleted_no_path. by rewrite E.
  - intros Hd E now. apply on_created_no_path; [done|]. by rewrite E.
  - intros Hd [E|E]; apply on_moved_raises; [done| |done|]; rewrite E; auto.
Qed.

(** X13. A change of extension moves nothing.  A file below the source
    root is renamed in its directory, and the old and the new name have
    the same normalized stem ([clip.mp4] becomes [clip.mkv]): when the
    sidecar is a regular file and the archive root is not the empty
    string, [on_moved] returns and the whole state is as it was. *)
Theorem extension_change_moves_nothing (ev : event) (st : state)
    (ws ds : list string) (name name' data : string) :
  Forall (λ c, is_name c = true) ws →
  Forall (λ c, is_name c = true) ds →
  is_name name = true → is_name name' = true →
  watch_dir st = path_of ws →
  src_path ev = path_of (ws ++ ds ++ [name]) →
  dest_path ev = path_of (ws ++ ds ++ [name']) →
  is_directory ev = false →
  nfc (fst (splitext name)) = nfc (fst (splitext name')) →
  nonempty (archive_dir st) = true →
  read cwd (disk st) (moved_txt nfc (archive_dir st) (PyStr.join sep (ds ++ [name])))
  = Some data →
  on_moved cwd nfc ev st = Ok tt st.
Proof.
  intros Hws Hds Hname Hname' Hwatch Hsrc Hdest Hd Hstem Harch Hread.
  destruct (under_root cwd nfc (watch_dir st) (archive_dir st) (src_path ev) ws ds name)
    as (Ho & _); [done..|].
  destruct (under_root cwd nfc (watch_dir st) (archive_dir st) (dest_path ev) ws ds name')
    as (Hn & _); [done..|].
  rewrite (on_moved_file cwd nfc ev st _ _ Hd Ho Hn). cbv zeta.
  assert (moved_txt nfc (archive_dir st) (PyStr.join sep (ds ++ [name']))
          = moved_txt nfc (archive_dir st) (PyStr.join sep (ds ++ [name]))) as ->.
  { rewrite !moved_txt_under_root by done. by rewrite Hstem. }
  set (txt_path := moved_txt nfc (archive_dir st) (PyStr.join sep (ds ++ [name]))) in *.
  rewrite (read_exists cwd _ _ _ Hread).
  pose proof (read_not_dir cwd _ _ _ Hread) as Hnotdir.
  apply read_spec in Hread as (l & Hres & Hne & Hl).
  rewrite makedirs_existing.
  2:{ apply (resolve_parent cwd _ _ l); [|done]. by apply txt_path_has_sep. }
  rewrite (move_file cwd _ _ _ data l l Hres Hne Hl Hres Hnotdir).
  by rewrite insert_delete_id, set_disk_id.
Qed.

(** X14. The source root itself is deleted.  The path relative to the
    source root is [.], the archive path is the archive root with [.]
    as its last name, and [rmtree] on such a path takes away everything
    below the directory and then raises on the directory itself: when the
    archive root is a directory, [on_deleted] raises [OSError], nothing
    is printed, and the archive root is left empty. *)
Theorem deleted_root_empties_archive (ev : event) (st : state) (ws : list string) :
  Forall (λ c, is_name c = true) ws →
  watch_dir st = path_of ws →
  src_path ev = path_of ws →
  is_directory ev = true →
  isdir cwd (disk st) (archive_dir st) = true →
  ∃ l,
    resolve cwd (disk st) (archive_dir st) = Some l
    ∧ on_deleted cwd nfc ev st = Raise OSError (set_disk (prune_inside l (disk st)) st)
    ∧ (∀ k, below l k → k ≠ l → prune_inside l (disk st) !! k = None)
    ∧ (∀ k, ¬ (below l k ∧ k ≠ l) → prune_inside l (disk st) !! k = disk st !! k).
Proof.
  intros Hws Hwatch Hsrc Hd Hdir.
  assert (PosixPath.relpath cwd (src_path ev) (watch_dir st) = Some ".") as Hr.
  { rewrite Hwatch, Hsrc. unfold PosixPath.relpath.
    change (nonempty (path_of ws)) with true. simpl negb. cbv iota.
    rewrite !abspath_path_of, !nonempty_comps_path_of by done.
    pose proof (common_app ws []) as Hc. rewrite List.app_nil_r in Hc.
    by rewrite Hc, Nat.sub_diag, drop_all. }
  rewrite (on_deleted_directory cwd nfc ev st _ Hd Hr). cbv zeta.
  unfold isdir in Hdir.
  destruct (resolve cwd (disk st) (archive_dir st)) as [l|] eqn:Hres; [|done].
  exists l. split; [done|].
  destruct (resolve_join_dot cwd (disk st) (archive_dir st) l Hres Hdir) as [Hres' Hlast].
  assert (exists_ cwd (disk st) (PosixPath.join (archive_dir st) ["."]) = true) as ->.
  { apply isdir_exists. unfold isdir. by rewrite Hres'. }
  unfold rmtree. rewrite Hres', Hlast. unfold is_dir_at in Hdir.
  destruct (node_at (disk st) l) as [[]|]; [done| |done].
  split; [done|]. split.
  - intros k Hb Hk. apply map_lookup_filter_None. right. intros n _ Hn. by apply Hn.
  - intros k Hk. destruct (disk st !! k) as [n|] eqn:E.
    + by apply map_lookup_filter_Some.
    + apply map_lookup_filter_None. by left.
Qed.



(** X17. A deleted directory takes the sidecars of its files along.  A
    file that is not a [.txt] file, with a normalized name that can be
    encoded as UTF-8, appears in a directory below the source root and
    gets its sidecar; then that directory, or one above it below the
    source root, disappears: [on_deleted] returns, the mirror of the
    directory is removed with everything below it, the sidecar is gone,
    the console holds the notice of the creation and then the notice of
    the deletion, and every location outside the mirror is as it was. *)
Theorem created_then_directory_deleted (now : datetime) (ev ev' : event) (st : state)
    (ws zs ds ds' : list string) (name : string) (fs1 : gmap (list string) node) :
  wf (disk st) →
  Forall (λ c, is_name c = true) ws →
  Forall (λ c, is_name c = true) zs →
  Forall (λ c, is_name c = true) ds →
  Forall (λ c, is_name c = true) ds' →
  ds ≠ [] →
  is_name name = true →
  watch_dir st = path_of ws →
  archive_dir st = path_of zs →
  src_path ev = path_of (ws ++ (ds ++ ds') ++ [name]) →
  is_directory ev = false →
  endswith name ".txt" = false →
  src_path ev' = path_of (ws ++ ds) →
  is_directory ev' = true →
  makedirs cwd (path_of (zs ++ ds ++ ds')) (disk st) = Done fs1 →
  disk st !! (zs ++ (ds ++ ds') ++ [nfc (fst (splitext (nfc name))) +:+ ".txt"])
  ≠ Some Dir →
  utf8 (nfc name) = true →
  let txt_path := sidecar_of nfc (archive_dir st) (ds ++ ds') name in
  ∃ st1,
    on_created cwd nfc now ev st = Ok tt st1
    ∧ read cwd (disk st1) txt_path = Some (sidecar_text (nfc name) (strftime now))
    ∧ on_deleted cwd nfc ev' st1
      = Ok tt (emit ["Directory deleted: " +:+ PyStr.join sep ds;
                     "Corresponding source files also deleted."; border]
                 (set_disk (prune (zs ++ ds) (disk st1)) st1))
    ∧ stdout (final (on_deleted cwd nfc ev' st1))
      = stdout st ++ ["File added: " +:+ nfc name;
                      "Corresponding source file also created."; border;
                      "Directory deleted: " +:+ PyStr.join sep ds;
                      "Corresponding source files also deleted."; border]
    ∧ disk (final (on_deleted cwd nfc ev' st1)) = prune (zs ++ ds) (disk st1)
    ∧ read cwd (prune (zs ++ ds) (disk st1)) txt_path = None
    ∧ (∀ k, ¬ below (zs ++ ds) k → prune (zs ++ ds) (disk st1) !! k = disk st1 !! k).
Proof.
  intros Hwf Hws Hzs Hds Hds' Hne Hname Hwatch Harch Hsrc Hd Htxt Hsrc' Hd' Hm Hnode
    Hutf txt_path.
  assert (Forall (λ c, is_name c = true) (ds ++ ds')) as Hdd by (by apply Forall_app).
  set (t := nfc (fst (splitext (nfc name))) +:+ ".txt") in *.
  pose proof (txt_is_name nfc nfc_sep name Hname) as Htn. fold t in Htn.
  destruct (created_at cwd nfc nfc_txt nfc_sep now ev st ws zs (ds ++ ds') name fs1)
    as (Eside & Hwf1 & Hsame & Hlocal & Hisdir & Hok); [done..|].
  fold t txt_path in Eside, Hwf1, Hsame, Hisdir, Hok.
  set (loc := zs ++ (ds ++ ds') ++ [t]) in *.
  set (text := sidecar_text (nfc name) (strftime now)) in *.
  eexists. split; [exact Hok|].
  set (st1 := emit _ (mark (path_of loc) _)).
  assert (disk st1 = <[loc := File text]> fs1) as Hdisk1 by done.
  assert (Forall (λ c, is_name c = true) loc) as Hloc.
  { unfold loc. apply Forall_app. split; [done|]. apply Forall_app. split; [done|].
    by apply Forall_singleton. }
  assert (loc = (zs ++ ds ++ ds') ++ [t]) as Eloc.
  { unfold loc. by rewrite <- !List.app_assoc. }
  assert (Forall (λ c, is_name c = true) (zs ++ ds ++ ds')) as Hzdd.
  { apply Forall_app. by split. }
  assert (disk st1 !! loc = Some (File text)) as Hfile.
  { rewrite Hdisk1. by rewrite lookup_insert_eq. }
  assert (below (zs ++ ds) loc) as Hbelow.
  { exists (ds' ++ [t]). unfold loc. by rewrite <- !List.app_assoc. }
  assert (is_dir_at (disk st1) (zs ++ ds) = true) as Hdir.
  { apply (wf_above _ _ (ds' ++ [t])); [by rewrite Hdisk1| |by destruct ds'].
    exists (File text). rewrite <- Hfile. f_equal. unfold loc.
    by rewrite <- !List.app_assoc. }
  assert (Forall (λ c, is_name c = true) (zs ++ ds)) as Hzd by (by apply Forall_app).
  split.
  { rewrite Eside. apply read_spec. exists loc.
    split; [|split; [rewrite Eloc; apply snoc_nonnil|done]].
    rewrite Eloc. apply resolve_stored; [by rewrite Hdisk1|done..|].
    rewrite <- Eloc. by eexists. }
  assert (PosixPath.relpath cwd (src_path ev') (watch_dir st1) = Some (PyStr.join sep ds))
    as Hr.
  { change (watch_dir st1) with (watch_dir st). rewrite Hwatch, Hsrc'.
    by apply relpath_under. }
  rewrite (on_deleted_directory cwd nfc ev' st1 _ Hd' Hr). cbv zeta.
  change (archive_dir st1) with (archive_dir st).
  assert (resolve cwd (disk st1) (PosixPath.join (archive_dir st) [PyStr.join sep ds])
          = Some (zs ++ ds)) as Hres.
  { rewrite Harch, join_one_path_of by done. apply resolve_dir; [by rewrite Hdisk1|done..]. }
  assert (exists_ cwd (disk st1) (PosixPath.join (archive_dir st) [PyStr.join sep ds])
          = true) as ->.
  { apply isdir_exists. unfold isdir. by rewrite Hres. }
  rewrite (rmtree_done cwd _ _ _ Hres Hdir) by (by apply last_name_join).
  split; [done|]. split; [simpl; by rewrite <- List.app_assoc|]. split; [done|].
  split; [|apply prune_other].
  rewrite Eside. by apply read_pruned.
Qed.

(** X18. The move of a directory is not mirrored.  A file that is not a
    [.txt] file appears in a directory below the source root and gets its
    sidecar; then a directory is moved, whichever it is: [on_moved]
    returns and the whole state is as it was.  When the file then
    disappears under a new path below the source root for which the
    archive has no sidecar, [on_deleted] returns and changes nothing
    either: the sidecar stays at its old path. *)
Theorem moved_directory_leaves_sidecar (now : datetime) (ev ev_dir ev_gone : event)
    (st st1 : state) (ws ds ds' : list string) (name : string) :
  wf (disk st) →
  Forall (λ c, is_name c = true) ws →
  Forall (λ c, is_name c = true) ds →
  Forall (λ c, is_name c = true) ds' →
  is_name name = true →
  watch_dir st = path_of ws →
  src_path ev = path_of (ws ++ ds ++ [name]) →
  is_directory ev = false →
  endswith name ".txt" = false →
  on_created cwd nfc now ev st = Ok tt st1 →
  is_directory ev_dir = true →
  src_path ev_gone = path_of (ws ++ ds' ++ [name]) →
  is_directory ev_gone = false →
  exists_ cwd (disk st1) (sidecar_of nfc (archive_dir st) ds' name) = false →
  on_moved cwd nfc ev_dir st1 = Ok tt st1
  ∧ on_deleted cwd nfc ev_gone st1 = Ok tt st1
  ∧ read cwd (disk st1) (sidecar_of nfc (archive_dir st) ds name)
    = Some (sidecar_text (nfc name) (strftime now)).
Proof.
  intros Hwf Hws Hds Hds' Hname Hwatch Hsrc Hd Htxt Hok Hdir Hgone Hd' Hnone.
  destruct (created_inv cwd nfc nfc_txt now ev st st1 ws ds name)
    as (fs1 & l & Hm & Hg & Hwf1 & Hisdir & Hres & Hne & Hnode & Hpar & Hst1); [done..|].
  assert (watch_dir st1 = watch_dir st) as Hwatch1 by (by rewrite Hst1).
  assert (archive_dir st1 = archive_dir st) as Harch1 by (by rewrite Hst1).
  split; [by apply on_moved_directory|]. split.
  - apply (deleted_nothing cwd nfc nfc_txt _ _ ws ds' name); try done.
    + by rewrite Hwatch1.
    + by rewrite Harch1.
  - rewrite Hst1. simpl. by apply read_written.
Qed.


(** X20. No creation event in the archive tree reaches the source tree.
    The source root and the archive root are two directories of one
    parent, and a file appears below the archive root, whatever its
    name: however [on_created] ends, whatever it has changed lies on the
    way from the root to a place beside the new file, and every location
    below the source root is as it was. *)
Theorem archive_creation_spares_source (now : datetime) (ev : event) (st : state)
    (ps ds : list string) (w a name : string) :
  Forall (λ c, is_name c = true) ps →
  Forall (λ c, is_name c = true) ds →
  is_name w = true → is_name a = true → is_name name = true →
  w ≠ a →
  watch_dir st = path_of (ps ++ [w]) →
  archive_dir st = path_of (ps ++ [a]) →
  src_path ev = path_of (ps ++ a :: ds ++ [name]) →
  let fs' := disk (final (on_created cwd nfc now ev st)) in
  let txt_name := nfc (fst (splitext (nfc name))) +:+ ".txt" in
  (∀ k, fs' !! k = disk st !! k ∨ k `prefix_of` (ps ++ a :: ds ++ [txt_name]))
  ∧ (∀ k, below (ps ++ [w]) k → fs' !! k = disk st !! k).
Proof.
  intros Hps Hds Hw Ha Hname Hwa Hwatch Harch Hsrc fs' txt_name.
  assert (∀ k, fs' !! k = disk st !! k ∨ k `prefix_of` (ps ++ a :: ds ++ [txt_name]))
    as Hmain.
  2:{ split; [done|]. intros k [x ->].
      destruct (Hmain ((ps ++ [w]) ++ x)) as [?|[y Hy]]; [done|exfalso].
      rewrite <- !List.app_assoc in Hy. apply app_inv_head in Hy.
      simpl in Hy. congruence. }
  subst fs'. intros k.
  destruct (is_directory ev) eqn:Hd.
  { rewrite on_created_directory by done. by left. }
  destruct (in_sibling cwd nfc nfc_sep (watch_dir st) (archive_dir st) (src_path ev)
              ps ds w a name) as (Hr & Hb & Etxt & Hsplit & Hn & Habs); [done..|].
  fold txt_name in Etxt, Hsplit, Hn, Habs.
  set (txt_path := PosixPath.join (archive_dir st)
                     [PyStr.join sep (".." :: a :: ds); txt_name]) in *.
  pose proof (txt_is_name nfc nfc_sep name Hname) as Htn. fold txt_name in Htn.
  rewrite (on_created_file cwd nfc now ev st _ Hd Hr). cbv zeta.
  rewrite Etxt, Hb.
  assert (∀ fs1, tree_of (makedirs cwd (dirname txt_path) (disk st)) = fs1 →
            fs1 !! k = disk st !! k ∨ k `prefix_of` (ps ++ a :: ds ++ [txt_name]))
    as Hdirs.
  { intros fs1 <-.
    destruct (makedirs_sibling cwd (disk st) (dirname txt_path) ps ds k a)
      as [?|Hp]; [done..|by left|].
    right. etrans; [exact Hp|]. exists [txt_name].
    by rewrite <- !List.app_assoc. }
  destruct (makedirs cwd (dirname txt_path) (disk st)) as [fs1|e fs1];
    [|by apply Hdirs].
  destruct (eqb (src_path ev) txt_path); [by apply Hdirs|].
  destruct (endswith (nfc name) ".txt").
  { destruct (bool_decide _); by apply Hdirs. }
  destruct (write_cases cwd fs1 txt_path (sidecar_text (nfc name) (strftime now)))
    as [(l0 & Hl0 & Hn0 & _ & ->)|[(l0 & Hl0 & Hn0 & _ & ->)|[e ->]]];
    [| |by apply Hdirs];
    unfold txt_path in Hl0; rewrite Harch in Hl0;
    (apply (resolve_sibling cwd fs1 ps ds _ a a txt_name) in Hl0 as ->; [|done..]);
    simpl;
    (destruct (decide (ps ++ a :: ds ++ [txt_name] = k)) as [<-|Hne]; [by right|]);
    rewrite lookup_insert_ne by done; by apply Hdirs.
Qed.

End WithEnvironment.

(** ** The theorems at work on the sample disks *)

Import Scenario ScenarioFacts SampleFacts.

Ltac compute_it := vm_compute; first [reflexivity | exact I | discriminate | done].

Lemma names_a : Forall (λ c, is_name c = true) ["a"].
Proof. by repeat constructor. Qed.

Lemma names_films : Forall (λ c, is_name c = true) ["films"].
Proof. by repeat constructor. Qed.

Lemma names_none : Forall (λ c, is_name c = true) [].
Proof. constructor. Qed.

Lemma handler0_wf : wf (disk handler0).
Proof. apply wf_check. compute_it. Qed.

Lemma handler1_created :
  on_created [] nfc_sample now0 clip_created handler0 = Ok tt handler1.
Proof. compute_it. Qed.

Lemma created_then_deleted_witness :
  ∃ st2 l,
    on_deleted [] nfc_sample clip_created handler1 = Ok tt st2
    ∧ resolve [] (disk st2) (sidecar_of nfc_sample (archive_dir handler0) ["clips"] cafe_mp4)
      = Some l
    ∧ disk st2 !! l = None
    ∧ exists_ [] (disk st2) (sidecar_of nfc_sample (archive_dir handler0) ["clips"] cafe_mp4)
      = false
    ∧ (∀ k, k ≠ l →
         disk st2 !! k = disk handler0 !! k
         ∨ (disk handler0 !! k = None ∧ disk st2 !! k = Some Dir))
    ∧ sidecar_of nfc_sample (archive_dir handler0) ["clips"] cafe_mp4
      ∈ system_created_txt_files st2
    ∧ stdout st2 = stdout handler0 ++ ["File added: " +:+ nfc_sample cafe_mp4;
                                       "Corresponding source file also created."; border;
                                       "File deleted: " +:+ nfc_sample cafe_mp4;
                                       "Corresponding source file also deleted."; border].
Proof.
  apply (created_then_deleted [] nfc_sample nfc_sample_txt now0 clip_created
           handler0 handler1 ["w"] ["clips"] cafe_mp4).
  - exact handler0_wf.
  - exact Synchronizer.names_w.
  - exact Synchronizer.names_clips.
  - compute_it.
  - compute_it.
  - compute_it.
  - compute_it.
  - compute_it.
  - exact handler1_created.
Defined.

Lemma deleted_twice_witness :
  ∃ st1,
    on_deleted [] nfc_sample clip_deleted handler1 = Ok tt st1
    ∧ read [] (disk st1) (sidecar_of nfc_sample (archive_dir handler1) ["clips"] cafe_mp4)
      = None
    ∧ on_deleted [] nfc_sample clip_deleted st1 = Ok tt st1.
Proof.
  apply (deleted_twice [] nfc_sample nfc_sample_txt clip_deleted handler1
           ["w"] ["clips"] cafe_mp4 (sidecar_text (nfc_sample cafe_mp4) (strftime now0))).
  - exact Synchronizer.names_w.
  - exact Synchronizer.names_clips.
  - compute_it.
  - compute_it.
  - compute_it.
  - compute_it.
  - compute_it.
  - compute_it.
Defined.


Lemma created_then_moved_witness :
  ∃ st2,
    on_moved [] nfc_sample clip_moved handler1 = Ok tt st2
    ∧ read [] (disk st2)
        (moved_txt nfc_sample (archive_dir handler0) (PyStr.join "/" (["films"] ++ [cafe_mkv])))
      = Some (sidecar_text (nfc_sample cafe_mp4) (strftime now0))
    ∧ stdout st2 = stdout handler1.
Proof.
  destruct (created_then_moved [] nfc_sample nfc_sample_txt now0 clip_created clip_moved
              handler0 handler1 ["w"] ["clips"] ["films"] cafe_mp4 cafe_mkv
              (<[["a"; "films"] := Dir]> (disk handler1)))
    as (st2 & Hmoved & Hread & _ & Hout & _).
  - exact handler0_wf.
  - exact Synchronizer.names_w.
  - exact Synchronizer.names_clips.
  - exact names_films.
  - compute_it.
  - compute_it.
  - compute_it.
  - compute_it.
  - compute_it.
  - compute_it.
  - compute_it.
  - compute_it.
  - compute_it.
  - compute_it.
  - exact handler1_created.
  - compute_it.
  - compute_it.
  - exists st2. split; [exact Hmoved|]. split; [exact Hread|exact Hout].
Defined.

Lemma own_sidecar_is_not_reported_witness :
  let st2 := final (on_created [] nfc_sample later sidecar_created handler1) in
  stdout st2 = stdout handler1
  ∧ system_created_txt_files st2 = system_created_txt_files handler1
  ∧ (∀ l data, disk st2 !! l = Some (File data) ↔ disk handler1 !! l = Some (File data))
  ∧ grows (disk handler1) (disk st2).
Proof.
  apply (own_sidecar_is_not_reported [] nfc_sample nfc_sample_txt now0 later clip_created
           sidecar_created handler0 handler1 ["w"] ["clips"] cafe_mp4).
  - exact handler0_wf.
  - exact Synchronizer.names_w.
  - exact Synchronizer.names_clips.
  - compute_it.
  - compute_it.
  - compute_it.
  - compute_it.
  - compute_it.
  - exact handler1_created.
  - compute_it.
Defined.


Lemma archive_event_spares_source_witness :
  read [] disk_videos "/w/video.mp4" = Some "mp4"
  ∧ ∀ k, below ["w"] k →
      disk (final (on_deleted [] nfc_sample video_txt_deleted (init "/w" "/a" disk_videos [])))
        !! k
      = disk_videos !! k.
Proof.
  split; [compute_it|].
  destruct (archive_event_spares_source [] nfc_sample nfc_sample_sep video_txt_deleted
              (init "/w" "/a" disk_videos []) [] [] "w" "a" "video.txt") as [_ H].
  - exact names_none.
  - exact names_none.
  - compute_it.
  - compute_it.
  - compute_it.
  - discriminate.
  - compute_it.
  - compute_it.
  - compute_it.
  - compute_it.
  - exact H.
Defined.

Lemma directory_at_sidecar_path_witness :
  on_created [] nfc_sample now0 clip_blocked handler_clip
  = Raise IsADirectoryError (set_disk (disk handler_clip) handler_clip)
  ∧ on_deleted [] nfc_sample clip_blocked handler_clip
    = Raise IsADirectoryError handler_clip.
Proof.
  destruct (directory_at_sidecar_path [] nfc_sample nfc_sample_txt now0 clip_blocked
              handler_clip ["w"] [] "clip.mp4" (disk handler_clip)) as [Hc Hd].
  - exact Synchronizer.names_w.
  - exact names_none.
  - compute_it.
  - compute_it.
  - compute_it.
  - compute_it.
  - compute_it.
  - split.
    + apply Hc; compute_it.
    + apply Hd; compute_it.
Defined.

Lemma extension_change_moves_nothing_witness :
  on_moved [] nfc_sample clip_retyped handler1 = Ok tt handler1.
Proof.
  apply (extension_change_moves_nothing [] nfc_sample clip_retyped handler1
           ["w"] ["clips"] cafe_mp4 cafe_mkv
           (sidecar_text (nfc_sample cafe_mp4) (strftime now0))).
  - exact Synchronizer.names_w.
  - exact Synchronizer.names_clips.
  - compute_it.
  - compute_it.
  - compute_it.
  - compute_it.
  - compute_it.
  - compute_it.
  - compute_it.
  - compute_it.
  - compute_it.
Defined.

Lemma deleted_root_empties_archive_witness :
  ∃ l,
    resolve [] (disk handler1) (archive_dir handler1) = Some l
    ∧ on_deleted [] nfc_sample root_deleted handler1
      = Raise OSError (set_disk (prune_inside l (disk handler1)) handler1)
    ∧ (∀ k, below l k → k ≠ l → prune_inside l (disk handler1) !! k = None)
    ∧ (∀ k, ¬ (below l k ∧ k ≠ l) → prune_inside l (disk handler1) !! k = disk handler1 !! k).
Proof.
  apply (deleted_root_empties_archive [] nfc_sample root_deleted handler1 ["w"]).
  - exact Synchronizer.names_w.
  - compute_it.
  - compute_it.
  - compute_it.
  - compute_it.
Defined.



Lemma created_then_directory_deleted_witness :
  ∃ st1,
    on_created [] nfc_sample now0 clip_created handler0 = Ok tt st1
    ∧ read [] (disk st1) (sidecar_of nfc_sample (archive_dir handler0) (["clips"] ++ []) cafe_mp4)
      = Some (sidecar_text (nfc_sample cafe_mp4) (strftime now0))
    ∧ on_deleted [] nfc_sample clips_deleted st1
      = Ok tt (emit ["Directory deleted: " +:+ PyStr.join "/" ["clips"];
                     "Corresponding source files also deleted."; border]
                 (set_disk (prune (["a"] ++ ["clips"]) (disk st1)) st1))
    ∧ stdout (final (on_deleted [] nfc_sample clips_deleted st1))
      = stdout handler0 ++ ["File added: " +:+ nfc_sample cafe_mp4;
                            "Corresponding source file also created."; border;
                            "Directory deleted: " +:+ PyStr.join "/" ["clips"];
                            "Corresponding source files also deleted."; border]
    ∧ disk (final (on_deleted [] nfc_sample clips_deleted st1))
      = prune (["a"] ++ ["clips"]) (disk st1)
    ∧ read [] (prune (["a"] ++ ["clips"]) (disk st1))
        (sidecar_of nfc_sample (archive_dir handler0) (["clips"] ++ []) cafe_mp4) = None
    ∧ (∀ k, ¬ below (["a"] ++ ["clips"]) k →
         prune (["a"] ++ ["clips"]) (disk st1) !! k = disk st1 !! k).
Proof.
  apply (created_then_directory_deleted [] nfc_sample nfc_sample_txt nfc_sample_sep now0
           clip_created clips_deleted handler0 ["w"] ["a"] ["clips"] [] cafe_mp4
           (<[["a"; "clips"] := Dir]> disk0)).
  - exact handler0_wf.
  - exact Synchronizer.names_w.
  - exact names_a.
  - exact Synchronizer.names_clips.
  - exact names_none.
  - done.
  - compute_it.
  - compute_it.
  - compute_it.
  - compute_it.
  - compute_it.
  - compute_it.
  - compute_it.
  - compute_it.
  - compute_it.
  - compute_it.
  - compute_it.
Defined.

Lemma moved_directory_leaves_sidecar_witness :
  on_moved [] nfc_sample clips_renamed handler1 = Ok tt handler1
  ∧ on_deleted [] nfc_sample film_deleted handler1 = Ok tt handler1
  ∧ read [] (disk handler1) (sidecar_of nfc_sample (archive_dir handler0) ["clips"] cafe_mp4)
    = Some (sidecar_text (nfc_sample cafe_mp4) (strftime now0)).
Proof.
  apply (moved_directory_leaves_sidecar [] nfc_sample nfc_sample_txt now0 clip_created
           clips_renamed film_deleted handler0 handler1 ["w"] ["clips"] ["films"] cafe_mp4).
  - exact handler0_wf.
  - exact Synchronizer.names_w.
  - exact Synchronizer.names_clips.
  - exact names_films.
  - compute_it.
  - compute_it.
  - compute_it.
  - compute_it.
  - compute_it.
  - exact handler1_created.
  - compute_it.
  - compute_it.
  - compute_it.
  - compute_it.
Defined.


Lemma archive_creation_spares_source_witness :
  read [] disk0 ("/w/clips/" +:+ cafe_mp4) = Some "moving pictures"
  ∧ ∀ k, below ["w"] k →
      disk (final (on_created [] nfc_sample now0 poster_created handler0)) !! k
      = disk handler0 !! k.
Proof.
  split; [compute_it|].
  destruct (archive_creation_spares_source [] nfc_sample nfc_sample_sep now0 poster_created
              handler0 [] [] "w" "a" "poster.jpg") as [_ H].
  - exact names_none.
  - exact names_none.
  - compute_it.
  - compute_it.
  - compute_it.
  - discriminate.
  - compute_it.
  - compute_it.
  - compute_it.
  - exact H.
Defined.

End Behaviour.
